(** * Test execution, normalization and reporting

    A shallow embedding of the result pipeline of the AI testing agent:
    [JestTestRunner] and [PlaywrightTestRunner] (runTests, analyzeResults,
    parseJestResults, parsePlaywrightResults, extractPlaywrightTestResults)
    and [TestReporter] (generateReport, generateXmlReport, escapeXml).

    Conventions of the embedding.
    - A JavaScript string is a [string]: the sequence of its UTF-8 bytes.
      Every character the code inspects is ASCII, so byte-wise and
      code-unit-wise processing agree.
    - A duration is an integer number of milliseconds, a [Z]; sums of such
      numbers are exact in JavaScript below 2^53.
    - Any other number is a binary64 number, given by the rational it
      denotes, a [Q]; [Binary64] has the rounding of the arithmetic.
    - [undefined] in an optional field is [None].
    - An [async] method is a function to [Outcome]: [Returned v] for a
      promise resolved with [v], [Thrown m] for a promise rejected with
      [new Error(m)].
    - The documents the runners print are [any] in the source; here they
      have the shape the normalizers read, and a field the code guards
      with [||] or [?.] is an [option].
    - Calls to the logger change no result and are left out. *)

From Stdlib Require Import List String Ascii Bool Arith ZArith QArith Lia Lqa.
From Stdlib Require Import DecimalString DecimalPos Permutation SpecFloat.
Import ListNotations.

Local Open Scope list_scope.
Local Open Scope string_scope.

Set Warnings "-register-all".

(** ** JavaScript primitives used by the code *)

Module JS.

(** The double quote and the line feed, as characters and strings. *)
Definition dq : ascii := ascii_of_nat 34.
Definition DQ : string := String dq "".
Definition LF : string := String (ascii_of_nat 10) "".

(** ToBoolean on a string: only the empty string is falsy. *)
Definition truthy (s : string) : bool :=
  match s with EmptyString => false | String _ _ => true end.

(** [x || y] where [x] is an optional string and [y] a string. *)
Definition or_else (x : option string) (y : string) : string :=
  match x with
  | Some s => if truthy s then s else y
  | None => y
  end.

(** [x || undefined] where [x] is a string. *)
Definition or_undefined (x : string) : option string :=
  if truthy x then Some x else None.

(** [n || 0] where [n] is an optional number: 0 is the only falsy integer. *)
Definition num_or_zero (n : option Z) : Z :=
  match n with Some z => z | None => 0%Z end.

(** [xs || []] where [xs] is an optional array. *)
Definition arr_or_empty {A : Type} (xs : option (list A)) : list A :=
  match xs with Some l => l | None => [] end.

(** Array.prototype.join on an array of strings. *)
Fixpoint join (sep : string) (xs : list string) : string :=
  match xs with
  | [] => ""
  | x :: rest =>
      match rest with
      | [] => x
      | _ :: _ => x ++ sep ++ join sep rest
      end
  end.

(** [xs.filter(Boolean)] on an array of strings. *)
Definition filter_Boolean (xs : list string) : list string :=
  filter truthy xs.

(** String.prototype.replace with a global one-character pattern. *)
Fixpoint replace_all (c : ascii) (by_ : string) (s : string) : string :=
  match s with
  | EmptyString => EmptyString
  | String a rest =>
      if Ascii.eqb a c then by_ ++ replace_all c by_ rest
      else String a (replace_all c by_ rest)
  end.

(** String.prototype.startsWith: [s] starts with [p]. *)
Fixpoint starts_with (p s : string) : bool :=
  match p with
  | EmptyString => true
  | String a p' =>
      match s with
      | String b s' => Ascii.eqb a b && starts_with p' s'
      | EmptyString => false
      end
  end.

(** ToString of an integer number and of an array length. *)
Definition Z_to_string (z : Z) : string := NilEmpty.string_of_int (Z.to_int z).
Definition nat_to_string (n : nat) : string := Z_to_string (Z.of_nat n).

(** [(d / 1000).toFixed(2)] for an integer [d].

    The quotient is the binary64 number nearest to d/1000 (ties to even):
    a 53-bit significand [m] scaled by [2^-s]. toFixed(2) then picks the
    integer [n] with [n/100] nearest to that number, the larger one on a
    tie, and prints it with two decimals. Exact for |d| < 2^53. *)
Definition div1000_binary64 (a : Z) : Z * Z :=
  let s0 := (62 - Z.log2 a)%Z in
  let s := if (a * 2 ^ s0 <? 1000 * 2 ^ 53)%Z then s0 else (s0 - 1)%Z in
  let num := (a * 2 ^ s)%Z in
  let q := (num / 1000)%Z in
  let r := (num mod 1000)%Z in
  let m := if (2 * r <? 1000)%Z then q
           else if (1000 <? 2 * r)%Z then (q + 1)%Z
           else if Z.even q then q else (q + 1)%Z in
  (m, s).

Definition two_digits (n : Z) : string :=
  if (n <? 10)%Z then "0" ++ Z_to_string n else Z_to_string n.

Definition toFixed2_magnitude (a : Z) : string :=
  if (a =? 0)%Z then "0.00"
  else
    let '(m, s) := div1000_binary64 a in
    let n := ((200 * m + 2 ^ s) / 2 ^ (s + 1))%Z in
    Z_to_string (n / 100) ++ "." ++ two_digits (n mod 100).

Definition div1000_toFixed2 (d : Z) : string :=
  if (d <? 0)%Z then "-" ++ toFixed2_magnitude (- d)
  else toFixed2_magnitude d.

End JS.

(** ** Binary64 arithmetic

    A JavaScript number is a binary64 number; a finite one is given here
    by the rational it denotes. An operation returns the binary64 number
    nearest to the exact result, the one with the even significand when
    two are as near. The exponent is not bounded here: the numbers the
    code computes from counts (array lengths, below 2^32) stay far from
    the ends of the binary64 range, and every count is itself a binary64
    number. *)

Module Binary64.

(** 2^e. *)
Definition pow2 (e : Z) : Q :=
  if (0 <=? e)%Z then inject_Z (2 ^ e) else 1 # Z.to_pos (2 ^ (- e)).

(** n/d divided by 2^e, as a fraction of integers. *)
Definition scaled (n d e : Z) : Z * Z :=
  if (0 <=? e)%Z then (n, d * 2 ^ e)%Z else (n * 2 ^ (- e), d)%Z.

(** The significand m and the exponent e of the binary64 number m * 2^e
    nearest to n/d, for positive n and d: the exponent at which n/d has
    53 bits before the point, and the integer nearest to n/d at that
    exponent. *)
Definition nearest (n d : Z) : Z * Z :=
  let e0 := (Z.log2 n - Z.log2 d - 52)%Z in
  let e := if (fst (scaled n d e0) <? snd (scaled n d e0) * 2 ^ 52)%Z
           then (e0 - 1)%Z else e0 in
  let num := fst (scaled n d e) in
  let den := snd (scaled n d e) in
  let q := (num / den)%Z in
  let r := (num mod den)%Z in
  let m := if (2 * r <? den)%Z then q
           else if (den <? 2 * r)%Z then (q + 1)%Z
           else if Z.even q then q else (q + 1)%Z in
  (m, e).

(** The binary64 number nearest to a rational. *)
Definition round (x : Q) : Q :=
  match Qnum (Qred x) with
  | Z0 => 0%Q
  | Zpos n =>
      let '(m, e) := nearest (Zpos n) (Zpos (Qden (Qred x))) in
      (inject_Z m * pow2 e)%Q
  | Zneg n =>
      let '(m, e) := nearest (Zpos n) (Zpos (Qden (Qred x))) in
      (- (inject_Z m * pow2 e))%Q
  end.

(** [x / y] and [x * y] on numbers. *)
Definition div (x y : Q) : Q := round (x / y).
Definition mul (x y : Q) : Q := round (x * y).

(** The same two operations in the Standard Library's model of
    IEEE 754, for comparison: an integer as a binary64 number, and the
    rational a finite binary64 number denotes. *)
Definition of_integer (z : Z) : spec_float :=
  binary_normalize 53 1024 z 0 false.

Definition to_Q (f : spec_float) : Q :=
  match f with
  | S754_finite false m e => (inject_Z (Zpos m) * pow2 e)%Q
  | S754_finite true m e => (- (inject_Z (Zpos m) * pow2 e))%Q
  | _ => 0%Q
  end.

Definition percent_IEEE (p t : Z) : Q :=
  to_Q (SFmul 53 1024 (SFdiv 53 1024 (of_integer p) (of_integer t))
          (of_integer 100)).

End Binary64.

(** ** JSON values and JSON.stringify

    The members of an object are its own properties in enumeration
    order, one entry per key; numbers are integers. *)

Inductive json : Type :=
| JNull
| JBool (b : bool)
| JNum (n : Z)
| JStr (s : string)
| JArr (items : list json)
| JObj (members : list (string * json)).

Module Json.

Definition hex_digit (n : nat) : string :=
  String (nth n ["0"; "1"; "2"; "3"; "4"; "5"; "6"; "7"; "8"; "9";
                 "a"; "b"; "c"; "d"; "e"; "f"]%char "0"%char) "".

(** QuoteJSONString, one character. *)
Definition quote_char (c : ascii) : string :=
  let n := nat_of_ascii c in
  if (n =? 34)%nat then "\" ++ JS.DQ
  else if (n =? 92)%nat then "\\"
  else if (n =? 8)%nat then "\b"
  else if (n =? 12)%nat then "\f"
  else if (n =? 10)%nat then "\n"
  else if (n =? 13)%nat then "\r"
  else if (n =? 9)%nat then "\t"
  else if (n <? 32)%nat then "\u00" ++ hex_digit (n / 16) ++ hex_digit (n mod 16)
  else String c "".

Fixpoint quote_body (s : string) : string :=
  match s with
  | EmptyString => EmptyString
  | String c rest => quote_char c ++ quote_body rest
  end.

Definition quote (s : string) : string := JS.DQ ++ quote_body s ++ JS.DQ.

(** [JSON.stringify(v)] without indentation. *)
Fixpoint stringify (v : json) : string :=
  match v with
  | JNull => "null"
  | JBool true => "true"
  | JBool false => "false"
  | JNum n => JS.Z_to_string n
  | JStr s => quote s
  | JArr items => "[" ++ JS.join "," (map stringify items) ++ "]"
  | JObj members =>
      "{" ++ JS.join ","
               (map (fun kv => quote (fst kv) ++ ":" ++ stringify (snd kv)) members)
          ++ "}"
  end.

(** ToBoolean. *)
Definition truthy (v : json) : bool :=
  match v with
  | JNull => false
  | JBool b => b
  | JNum n => negb (n =? 0)%Z
  | JStr s => JS.truthy s
  | JArr _ | JObj _ => true
  end.

(** ToString, as Array.prototype.join applies it to an element. *)
Fixpoint to_string (v : json) : string :=
  match v with
  | JNull => "null"
  | JBool true => "true"
  | JBool false => "false"
  | JNum n => JS.Z_to_string n
  | JStr s => s
  | JArr items =>
      JS.join "," (map (fun x => match x with
                                | JNull => ""
                                | _ => to_string x
                                end) items)
  | JObj _ => "[object Object]"
  end.

(** Property read [o.key] on an object. *)
Fixpoint get (key : string) (members : list (string * json)) : option json :=
  match members with
  | [] => None
  | (k, v) :: rest => if String.eqb k key then Some v else get key rest
  end.

End Json.

(** ** core/types *)

Record TestResult := mkTestResult {
  testId : string;
  passed : bool;
  error : option string;
  duration : Z
}.

Inductive Outcome (A : Type) : Type :=
| Returned (v : A)
| Thrown (message : string).
Arguments Returned {A} v.
Arguments Thrown {A} message.

(** The object analyzeResults returns. *)

Module Summary.
Record t := mk {
  total : nat;
  passed : nat;
  failed : nat;
  passRate : Q;
  totalDuration : Z
}.
End Summary.

Module FailedTest.
Record t := mk {
  testId : string;
  error : option string
}.
End FailedTest.

Record Analysis := mkAnalysis {
  summary : Summary.t;
  failedTests : list FailedTest.t
}.

(** ** The report of Jest's [--json] reporter *)

Module Jest.

Record AssertionResult := mkAssertion {
  fullName : option string;
  title : string;
  status : string;
  failureMessages : option (list string);
  duration : option Z
}.

Record SuiteResult := mkSuiteResult {
  assertionResults : list AssertionResult
}.

Record Results := mkResults {
  testResults : list SuiteResult
}.

End Jest.

(** ** The report of Playwright's [json] reporter *)

Module Playwright.

(** An attached error is a JSON object, given by its members. *)
Definition ErrorObject : Type := list (string * json).

Record TestRun := mkTestRun {
  status : string;
  errors : option (list ErrorObject);
  duration : option Z
}.

Record Spec := mkSpec {
  spec_title : string;
  tests : option (list TestRun)
}.

Inductive Suite : Type :=
| mkSuite (title : string) (specs : option (list Spec))
          (suites : option (list Suite)).

Definition title (s : Suite) : string :=
  match s with mkSuite t _ _ => t end.
Definition specs (s : Suite) : option (list Spec) :=
  match s with mkSuite _ sp _ => sp end.
Definition suites (s : Suite) : option (list Suite) :=
  match s with mkSuite _ _ ch => ch end.

Record Report := mkReport {
  report_suites : option (list Suite)
}.

End Playwright.

(** ** child_process.exec, promisified *)

(** What a [catch] clause of runTests receives: the [message] of the
    error and its [stdout] property, which only the rejection of exec
    carries. *)
Record JsError := mkJsError {
  message : string;
  stdout : option string
}.

(** [new Error(m)]. *)
Definition new_Error (m : string) : JsError :=
  {| message := m; stdout := None |}.

Inductive ExecResult : Type :=
| Resolved (stdout stderr : string)
| Rejected (error : JsError).

(** The result both runners return from their outer [catch]. *)
Definition execution_error (error : JsError) : list TestResult :=
  [ {| testId := "test-execution-error";
       passed := false;
       error := Some (message error);
       duration := 0%Z |} ].

(** ** TestReporter *)

Module TestReporter.

Record ReportOptions := mkReportOptions {
  format : string;
  outputPath : string;
  filename : option string;
  includeTimestamp : option bool
}.

Definition escapeXml (unsafe : string) : string :=
  JS.replace_all "'" "&apos;"
    (JS.replace_all JS.dq "&quot;"
       (JS.replace_all ">" "&gt;"
          (JS.replace_all "<" "&lt;"
             (JS.replace_all "&" "&amp;" unsafe)))).

(** An attribute value between its double quotes. *)
Definition q (value : string) : string := JS.DQ ++ value ++ JS.DQ.

(** The body of the [for] loop of generateXmlReport: what one result
    appends to [xml]. *)
Definition testcase_xml (result : TestResult) : string :=
  let testTime := JS.div1000_toFixed2 (duration result) in
  let open_ := "    <testcase name=" ++ q (escapeXml (testId result))
               ++ " time=" ++ q testTime in
  if negb (passed result) then
    open_ ++ ">" ++ JS.LF
    ++ "      <failure message="
    ++ q (escapeXml (JS.or_else (error result) "Test failed")) ++ ">"
    ++ escapeXml (JS.or_else (error result) "") ++ "</failure>" ++ JS.LF
    ++ "    </testcase>" ++ JS.LF
  else
    open_ ++ "/>" ++ JS.LF.

Definition xml_header (timestamp : string) (analysis : Analysis) : string :=
  let totalTime :=
    JS.div1000_toFixed2 (Summary.totalDuration (summary analysis)) in
  let total := JS.nat_to_string (Summary.total (summary analysis)) in
  let failed := JS.nat_to_string (Summary.failed (summary analysis)) in
  "<?xml version=" ++ q "1.0" ++ " encoding=" ++ q "UTF-8" ++ "?>" ++ JS.LF
  ++ "<testsuites name=" ++ q "AI Testing Agent Results"
  ++ " time=" ++ q totalTime ++ " tests=" ++ q total
  ++ " failures=" ++ q failed ++ " timestamp=" ++ q timestamp ++ ">" ++ JS.LF
  ++ "  <testsuite name=" ++ q "TestSuite" ++ " tests=" ++ q total
  ++ " failures=" ++ q failed ++ " time=" ++ q totalTime ++ ">" ++ JS.LF.

Definition xml_footer : string :=
  "  </testsuite>" ++ JS.LF ++ "</testsuites>".

(** [timestamp] is the value of [new Date().toISOString()]. *)
Definition generateXmlReport (timestamp : string)
    (results : list TestResult) (analysis : Analysis) : string :=
  let xml := xml_header timestamp analysis in
  let xml := fold_left (fun xml result => xml ++ testcase_xml result)
                       results xml in
  xml ++ xml_footer.

(** The object generateJsonReport serializes. *)
Module JsonTest.
Record t := mk {
  id : string;
  status : string;
  duration : Z;
  error : option string
}.
End JsonTest.

Record JsonReport := mkJsonReport {
  timestamp : string;
  report_summary : Summary.t;
  tests : list JsonTest.t;
  failures : list FailedTest.t
}.

Definition json_report (timestamp : string)
    (results : list TestResult) (analysis : Analysis) : JsonReport :=
  {| timestamp := timestamp;
     report_summary := summary analysis;
     tests := map (fun result =>
                {| JsonTest.id := testId result;
                   JsonTest.status :=
                     if passed result then "passed" else "failed";
                   JsonTest.duration := duration result;
                   JsonTest.error :=
                     match error result with
                     | Some e => JS.or_undefined e
                     | None => None
                     end |}) results;
     failures := failedTests analysis |}.

Section Effects.

(** The file system and the two operations the reporter performs on it:
    each returns the file system it leaves and the error it raised, if
    any. [path_join] is path.join; [JSON_stringify] is
    [JSON.stringify(report, null, 2)]. *)
Variable FS : Type.
Variable mkdir_recursive : string -> FS -> FS * option string.
Variable writeFile : string -> string -> FS -> FS * option string.
Variable path_join : string -> string -> string.
Variable JSON_stringify : JsonReport -> string.

Definition generateJsonReport (timestamp : string)
    (results : list TestResult) (analysis : Analysis) : string :=
  JSON_stringify (json_report timestamp results analysis).

(** [now_name] and [now_body] are the readings of the clock
    ([new Date().toISOString()]) for the file name and for the document. *)
Definition generateReport (now_name now_body : string)
    (results : list TestResult) (analysis : Analysis)
    (options : ReportOptions) (fs : FS) : Outcome string * FS :=
  let includeTimestamp :=
    match includeTimestamp options with Some b => b | None => true end in
  match mkdir_recursive (outputPath options) fs with
  | (fs1, Some e) => (Thrown e, fs1)
  | (fs1, None) =>
      let timestamp :=
        if includeTimestamp
        then "-" ++ JS.replace_all ":" "-" now_name else "" in
      let reportFilename :=
        JS.or_else (filename options)
          ("test-report" ++ timestamp ++ "." ++ format options) in
      let filePath := path_join (outputPath options) reportFilename in
      let content : string + string :=
        if String.eqb (format options) "json"
        then inr (generateJsonReport now_body results analysis)
        else if String.eqb (format options) "xml"
        then inr (generateXmlReport now_body results analysis)
        else inl ("Unsupported report format: " ++ format options) in
      match content with
      | inl e => (Thrown e, fs1)
      | inr content =>
          match writeFile filePath content fs1 with
          | (fs2, Some e) => (Thrown e, fs2)
          | (fs2, None) => (Returned filePath, fs2)
          end
      end
  end.

End Effects.

End TestReporter.

(** ** JestTestRunner *)

Module JestTestRunner.

Record Options := mkOptions {
  coverage : bool;
  watch : bool;
  testNamePattern : option string
}.

(** The object one assertion record pushes onto [results]. *)
Definition assertion_result (assertionResult : Jest.AssertionResult)
  : TestResult :=
  {| testId := JS.or_else (Jest.fullName assertionResult)
                          (Jest.title assertionResult);
     passed := String.eqb (Jest.status assertionResult) "passed";
     error :=
       match Jest.failureMessages assertionResult with
       | Some messages => JS.or_undefined (JS.join JS.LF messages)
       | None => None
       end;
     duration := JS.num_or_zero (Jest.duration assertionResult) |}.

(** The two nested [for] loops push onto the array [results]. *)
Definition parseJestResults (jestResults : Jest.Results) : list TestResult :=
  fold_left
    (fun results testResult =>
       fold_left
         (fun results assertionResult =>
            (results ++ [assertion_result assertionResult])%list)
         (Jest.assertionResults testResult) results)
    (Jest.testResults jestResults) [].

Definition analyzeResults (results : list TestResult) : Analysis :=
  let passed_ := filter (fun r => passed r) results in
  let failed_ := filter (fun r => negb (passed r)) results in
  let totalDuration :=
    fold_left (fun acc r => (acc + duration r)%Z) results 0%Z in
  {| summary :=
       {| Summary.total := List.length results;
          Summary.passed := List.length passed_;
          Summary.failed := List.length failed_;
          Summary.passRate :=
            match List.length results with
            | O => 0%Q
            | S _ =>
                Binary64.mul
                  (Binary64.div
                     (inject_Z (Z.of_nat (List.length passed_)))
                     (inject_Z (Z.of_nat (List.length results))))
                  100
            end;
          Summary.totalDuration := totalDuration |};
     failedTests :=
       map (fun f => {| FailedTest.testId := testId f;
                        FailedTest.error := error f |}) failed_ |}.

Definition jestOptions (options : Options) : string :=
  JS.join " "
    (JS.filter_Boolean
       [ "--json";
         if coverage options then "--coverage" else "";
         if watch options then "--watch" else "";
         match testNamePattern options with
         | Some p =>
             if JS.truthy p
             then "--testNamePattern=" ++ JS.DQ ++ p ++ JS.DQ else ""
         | None => ""
         end ]).

Section Run.

(** The environment of one call: the project root, the process runner
    (command and working directory to result) and [JSON.parse] read at
    the type of the document, giving the message of the exception raised
    while decoding or the document. *)
Variable projectRoot : string.
Variable execPromise : string -> string -> ExecResult.
Variable JSON_parse : string -> string + Jest.Results.

(** The outer [try] block: the value it returns, or the error it hands
    to the outer [catch]. *)
Definition run_try (testPath : string) (options : Options)
  : JsError + list TestResult :=
  match execPromise ("npx jest " ++ testPath ++ " " ++ jestOptions options)
                    projectRoot with
  | Rejected error => inl error
  | Resolved stdout _ =>
      match JSON_parse stdout with
      | inr jestResults => inr (parseJestResults jestResults)
      | inl m => inl (new_Error ("Failed to parse Jest results: " ++ m))
      end
  end.

(** The outer [catch] block. *)
Definition run_catch (error : JsError) : Outcome (list TestResult) :=
  let parsed :=
    match stdout error with
    | Some out =>
        if JS.truthy out then
          match JSON_parse out with
          | inr jestResults => Some (parseJestResults jestResults)
          | inl _ => None
          end
        else None
    | None => None
    end in
  match parsed with
  | Some results => Returned results
  | None => Returned (execution_error error)
  end.

Definition runTests (testPath : string) (options : Options)
  : Outcome (list TestResult) :=
  match run_try testPath options with
  | inr results => Returned results
  | inl error => run_catch error
  end.

End Run.

End JestTestRunner.

(** ** PlaywrightTestRunner *)

Module PlaywrightTestRunner.

Record Options := mkOptions {
  headed : bool;
  workers : option Z;
  browser : option string
}.

(** [e.message || JSON.stringify(e)], as join turns it into text. *)
Definition error_text (e : Playwright.ErrorObject) : string :=
  match Json.get "message" e with
  | Some m => if Json.truthy m then Json.to_string m
              else Json.stringify (JObj e)
  | None => Json.stringify (JObj e)
  end.

(** The separator of the template literal, byte for byte. *)
Definition separator : string := " â€º ".

(** The object one test record pushes onto [results]. *)
Definition test_result (suite_title : string) (spec : Playwright.Spec)
    (test : Playwright.TestRun) : TestResult :=
  {| testId := suite_title ++ separator ++ Playwright.spec_title spec;
     passed := String.eqb (Playwright.status test) "passed"
               || String.eqb (Playwright.status test) "expected";
     error :=
       match Playwright.errors test with
       | Some errs => JS.or_undefined (JS.join JS.LF (map error_text errs))
       | None => None
       end;
     duration := JS.num_or_zero (Playwright.duration test) |}.

(** The first loop of extractPlaywrightTestResults. *)
Definition push_specs (suite_title : string)
    (specs : list Playwright.Spec) (results : list TestResult)
  : list TestResult :=
  fold_left
    (fun results spec =>
       fold_left
         (fun results test =>
            (results ++ [test_result suite_title spec test])%list)
         (JS.arr_or_empty (Playwright.tests spec)) results)
    specs results.

(** The method mutates the array [results]; here it returns it. *)
Fixpoint extractPlaywrightTestResults (suite : Playwright.Suite)
    (results : list TestResult) : list TestResult :=
  match suite with
  | Playwright.mkSuite title specs suites =>
      let results := push_specs title (JS.arr_or_empty specs) results in
      match suites with
      | Some children =>
          fold_left
            (fun results childSuite =>
               extractPlaywrightTestResults childSuite results)
            children results
      | None => results
      end
  end.

Definition parsePlaywrightResults (pwResults : Playwright.Report)
  : list TestResult :=
  fold_left
    (fun results suite => extractPlaywrightTestResults suite results)
    (JS.arr_or_empty (Playwright.report_suites pwResults)) [].

Definition analyzeResults (results : list TestResult) : Analysis :=
  let passed_ := filter (fun r => passed r) results in
  let failed_ := filter (fun r => negb (passed r)) results in
  let totalDuration :=
    fold_left (fun acc r => (acc + duration r)%Z) results 0%Z in
  {| summary :=
       {| Summary.total := List.length results;
          Summary.passed := List.length passed_;
          Summary.failed := List.length failed_;
          Summary.passRate :=
            match List.length results with
            | O => 0%Q
            | S _ =>
                Binary64.mul
                  (Binary64.div
                     (inject_Z (Z.of_nat (List.length passed_)))
                     (inject_Z (Z.of_nat (List.length results))))
                  100
            end;
          Summary.totalDuration := totalDuration |};
     failedTests :=
       map (fun f => {| FailedTest.testId := testId f;
                        FailedTest.error := error f |}) failed_ |}.

Definition pwOptions (options : Options) : string :=
  JS.join " "
    (JS.filter_Boolean
       [ "--reporter=json";
         if headed options then "--headed" else "";
         match workers options with
         | Some w =>
             if (w =? 0)%Z then "" else "--workers=" ++ JS.Z_to_string w
         | None => ""
         end;
         match browser options with
         | Some b => if JS.truthy b then "--browser=" ++ b else ""
         | None => ""
         end ]).

Section Run.

Variable projectRoot : string.
Variable execPromise : string -> string -> ExecResult.
Variable JSON_parse : string -> string + Playwright.Report.

(** The outer [try] block. *)
Definition run_try (testPath : string) (options : Options)
  : JsError + list TestResult :=
  match execPromise
          ("npx playwright test " ++ testPath ++ " " ++ pwOptions options)
          projectRoot with
  | Rejected error => inl error
  | Resolved stdout _ =>
      match JSON_parse stdout with
      | inr pwResults => inr (parsePlaywrightResults pwResults)
      | inl m => inl (new_Error ("Failed to parse Playwright results: " ++ m))
      end
  end.

(** The outer [catch] block. *)
Definition run_catch (error : JsError) : Outcome (list TestResult) :=
  Returned (execution_error error).

Definition runTests (testPath : string) (options : Options)
  : Outcome (list TestResult) :=
  match run_try testPath options with
  | inr results => Returned results
  | inl error => run_catch error
  end.

End Run.

End PlaywrightTestRunner.

(** ** A reader of JSON texts

    An instance of JSON.parse for the texts of the examples: objects
    (a key is expected once per object), arrays, strings with the
    one-character escapes, integers, true, false and null. [fuel] bounds
    the nesting and the number of items. *)

Module JsonText.

Definition is_space (c : ascii) : bool :=
  let n := nat_of_ascii c in
  (n =? 32)%nat || (n =? 9)%nat || (n =? 10)%nat || (n =? 13)%nat.

Fixpoint skip_spaces (s : string) : string :=
  match s with
  | String c rest => if is_space c then skip_spaces rest else s
  | EmptyString => EmptyString
  end.

Definition digit (c : ascii) : option Z :=
  let n := nat_of_ascii c in
  if ((48 <=? n) && (n <=? 57))%nat then Some (Z.of_nat (n - 48)) else None.

(** The digits at the head of [s], read after [acc]. *)
Fixpoint read_digits (acc : Z) (s : string) : Z * string :=
  match s with
  | String c rest =>
      match digit c with
      | Some d => read_digits (10 * acc + d) rest
      | None => (acc, s)
      end
  | EmptyString => (acc, s)
  end.

Definition starts_with_digit (s : string) : bool :=
  match s with
  | String c _ => match digit c with Some _ => true | None => false end
  | EmptyString => false
  end.

(** An unsigned integer: 0, or digits that do not start with 0. *)
Definition read_natural (s : string) : option (Z * string) :=
  match s with
  | String "0" rest =>
      if starts_with_digit rest then None else Some (0%Z, rest)
  | _ => if starts_with_digit s then Some (read_digits 0 s) else None
  end.

Definition read_number (s : string) : option (Z * string) :=
  match s with
  | String "-" rest =>
      match read_natural rest with
      | Some (n, r) => Some ((- n)%Z, r)
      | None => None
      end
  | _ => read_natural s
  end.

Definition unescape_char (c : ascii) : option ascii :=
  let n := nat_of_ascii c in
  if (n =? 34)%nat then Some c
  else if (n =? 92)%nat then Some c
  else if (n =? 47)%nat then Some c
  else if (n =? 98)%nat then Some (ascii_of_nat 8)
  else if (n =? 102)%nat then Some (ascii_of_nat 12)
  else if (n =? 110)%nat then Some (ascii_of_nat 10)
  else if (n =? 114)%nat then Some (ascii_of_nat 13)
  else if (n =? 116)%nat then Some (ascii_of_nat 9)
  else None.

(** The string whose opening quote has been read. *)
Fixpoint read_string (s : string) : option (string * string) :=
  match s with
  | EmptyString => None
  | String c rest =>
      if Ascii.eqb c JS.dq then Some ("", rest)
      else if Ascii.eqb c "\" then
        match rest with
        | String e rest' =>
            match unescape_char e, read_string rest' with
            | Some x, Some (body, r) => Some (String x body, r)
            | _, _ => None
            end
        | EmptyString => None
        end
      else if (nat_of_ascii c <? 32)%nat then None
      else
        match read_string rest with
        | Some (body, r) => Some (String c body, r)
        | None => None
        end
  end.

Definition strip (p s : string) : option string :=
  if JS.starts_with p s
  then Some (String.substring (String.length p)
                              (String.length s - String.length p) s)
  else None.

Fixpoint read_value (fuel : nat) (s : string) {struct fuel}
  : option (json * string) :=
  match fuel with
  | O => None
  | S fuel' =>
      match skip_spaces s with
      | EmptyString => None
      | String c rest as t =>
          if Ascii.eqb c "{" then
            match skip_spaces rest with
            | String "}" r => Some (JObj [], r)
            | _ =>
                match read_members fuel' rest with
                | Some (members, r) => Some (JObj members, r)
                | None => None
                end
            end
          else if Ascii.eqb c "[" then
            match skip_spaces rest with
            | String "]" r => Some (JArr [], r)
            | _ =>
                match read_items fuel' rest with
                | Some (items, r) => Some (JArr items, r)
                | None => None
                end
            end
          else if Ascii.eqb c JS.dq then
            match read_string rest with
            | Some (text, r) => Some (JStr text, r)
            | None => None
            end
          else
            match strip "null" t, strip "true" t, strip "false" t with
            | Some r, _, _ => Some (JNull, r)
            | _, Some r, _ => Some (JBool true, r)
            | _, _, Some r => Some (JBool false, r)
            | _, _, _ =>
                match read_number t with
                | Some (n, r) => Some (JNum n, r)
                | None => None
                end
            end
      end
  end

with read_items (fuel : nat) (s : string) {struct fuel}
  : option (list json * string) :=
  match fuel with
  | O => None
  | S fuel' =>
      match read_value fuel' s with
      | None => None
      | Some (v, r) =>
          match skip_spaces r with
          | String "," r' =>
              match read_items fuel' r' with
              | Some (vs, r'') => Some (v :: vs, r'')
              | None => None
              end
          | String "]" r' => Some ([v], r')
          | _ => None
          end
      end
  end

with read_members (fuel : nat) (s : string) {struct fuel}
  : option (list (string * json) * string) :=
  match fuel with
  | O => None
  | S fuel' =>
      match skip_spaces s with
      | String c rest =>
          if Ascii.eqb c JS.dq then
            match read_string rest with
            | None => None
            | Some (key, r) =>
                match skip_spaces r with
                | String ":" r' =>
                    match read_value fuel' r' with
                    | None => None
                    | Some (v, r'') =>
                        match skip_spaces r'' with
                        | String "," r3 =>
                            match read_members fuel' r3 with
                            | Some (ms, r4) => Some ((key, v) :: ms, r4)
                            | None => None
                            end
                        | String "}" r3 => Some ([(key, v)], r3)
                        | _ => None
                        end
                    end
                | _ => None
                end
            end
          else None
      | EmptyString => None
      end
  end.

(** [JSON.parse(text)]: the value, or the message of the SyntaxError. *)
Definition parse (text : string) : string + json :=
  match read_value (S (String.length text)) text with
  | Some (v, r) =>
      match skip_spaces r with
      | EmptyString => inr v
      | String _ _ => inl "Unexpected non-whitespace character after JSON"
      end
  | None => inl "Unexpected token in JSON"
  end.

End JsonText.

(** ** Reading a JSON value as a document

    The value is read at the shape the normalizer expects; a value of
    another shape is refused. A member that is missing or null is an
    absent field. *)

Module Decode.

Fixpoint traverse {A B : Type} (f : A -> option B) (xs : list A)
  : option (list B) :=
  match xs with
  | [] => Some []
  | x :: rest =>
      match f x, traverse f rest with
      | Some y, Some ys => Some (y :: ys)
      | _, _ => None
      end
  end.

Definition text (v : json) : option string :=
  match v with JStr s => Some s | _ => None end.

Definition number (v : json) : option Z :=
  match v with JNum n => Some n | _ => None end.

Definition object (v : json) : option (list (string * json)) :=
  match v with JObj members => Some members | _ => None end.

Definition array {A : Type} (read : json -> option A) (v : json)
  : option (list A) :=
  match v with JArr items => traverse read items | _ => None end.

Definition required {A : Type} (read : json -> option A) (key : string)
    (members : list (string * json)) : option A :=
  match Json.get key members with
  | Some v => read v
  | None => None
  end.

Definition optional {A : Type} (read : json -> option A) (key : string)
    (members : list (string * json)) : option (option A) :=
  match Json.get key members with
  | None | Some JNull => Some None
  | Some v =>
      match read v with
      | Some a => Some (Some a)
      | None => None
      end
  end.

Definition assertion (v : json) : option Jest.AssertionResult :=
  match v with
  | JObj m =>
      match optional text "fullName" m, required text "title" m,
            required text "status" m,
            optional (array text) "failureMessages" m,
            optional number "duration" m with
      | Some fullName, Some title, Some status, Some messages, Some duration =>
          Some {| Jest.fullName := fullName;
                  Jest.title := title;
                  Jest.status := status;
                  Jest.failureMessages := messages;
                  Jest.duration := duration |}
      | _, _, _, _, _ => None
      end
  | _ => None
  end.

Definition suite_result (v : json) : option Jest.SuiteResult :=
  match v with
  | JObj m =>
      match required (array assertion) "assertionResults" m with
      | Some assertions => Some {| Jest.assertionResults := assertions |}
      | None => None
      end
  | _ => None
  end.

Definition jest (v : json) : option Jest.Results :=
  match v with
  | JObj m =>
      match required (array suite_result) "testResults" m with
      | Some suites => Some {| Jest.testResults := suites |}
      | None => None
      end
  | _ => None
  end.

Definition test_run (v : json) : option Playwright.TestRun :=
  match v with
  | JObj m =>
      match required text "status" m, optional (array object) "errors" m,
            optional number "duration" m with
      | Some status, Some errors, Some duration =>
          Some {| Playwright.status := status;
                  Playwright.errors := errors;
                  Playwright.duration := duration |}
      | _, _, _ => None
      end
  | _ => None
  end.

Definition spec (v : json) : option Playwright.Spec :=
  match v with
  | JObj m =>
      match required text "title" m, optional (array test_run) "tests" m with
      | Some title, Some tests =>
          Some {| Playwright.spec_title := title; Playwright.tests := tests |}
      | _, _ => None
      end
  | _ => None
  end.

(** [fuel] bounds the depth of the nesting. *)
Fixpoint suite (fuel : nat) (v : json) : option Playwright.Suite :=
  match fuel with
  | O => None
  | S fuel' =>
      match v with
      | JObj m =>
          match required text "title" m, optional (array spec) "specs" m,
                optional (array (suite fuel')) "suites" m with
          | Some title, Some specs, Some suites =>
              Some (Playwright.mkSuite title specs suites)
          | _, _, _ => None
          end
      | _ => None
      end
  end.

Definition playwright (fuel : nat) (v : json) : option Playwright.Report :=
  match v with
  | JObj m =>
      match optional (array (suite fuel)) "suites" m with
      | Some suites => Some {| Playwright.report_suites := suites |}
      | None => None
      end
  | _ => None
  end.

End Decode.

(** ** Concrete documents and environments

    The documents of the testable properties, and one instance of each
    environment the runners and the reporter are parameterised by. *)

Module Sample.

(** One suite, two assertions: one passed (10 ms), one failed with
    message boom (5 ms). *)
Definition jest_document : Jest.Results :=
  {| Jest.testResults :=
       [ {| Jest.assertionResults :=
              [ {| Jest.fullName := Some "math adds";
                   Jest.title := "adds";
                   Jest.status := "passed";
                   Jest.failureMessages := Some [];
                   Jest.duration := Some 10%Z |};
                {| Jest.fullName := Some "math divides";
                   Jest.title := "divides";
                   Jest.status := "failed";
                   Jest.failureMessages := Some ["boom"];
                   Jest.duration := Some 5%Z |} ] |} ] |}.

(** A failed assertion whose only failure message is the empty string. *)
Definition blank_message_assertion : Jest.AssertionResult :=
  {| Jest.fullName := Some "math divides";
     Jest.title := "divides";
     Jest.status := "failed";
     Jest.failureMessages := Some [""];
     Jest.duration := Some 5%Z |}.

Definition blank_message_document : Jest.Results :=
  {| Jest.testResults :=
       [ {| Jest.assertionResults := [blank_message_assertion] |} ] |}.

(** Root suite A, child suite B, one spec t1 with one test of status
    expected. *)
Definition pw_document : Playwright.Report :=
  {| Playwright.report_suites :=
       Some [ Playwright.mkSuite "A" None
                (Some [ Playwright.mkSuite "B"
                          (Some [ {| Playwright.spec_title := "t1";
                                     Playwright.tests :=
                                       Some [ {| Playwright.status := "expected";
                                                 Playwright.errors := Some [];
                                                 Playwright.duration := Some 3%Z |} ]
                                  |} ])
                          None ]) ] |}.

(** One suite with one spec whose test failed with an attached error. *)
Definition pw_failing_document : Playwright.Report :=
  {| Playwright.report_suites :=
       Some [ Playwright.mkSuite "login"
                (Some [ {| Playwright.spec_title := "rejects a bad password";
                           Playwright.tests :=
                             Some [ {| Playwright.status := "unexpected";
                                       Playwright.errors :=
                                         Some [ [("message", JStr "boom")] ];
                                       Playwright.duration := Some 7%Z |} ]
                        |} ])
                (Some []) ] |}.

(** One suite with one spec whose test failed with an attached error
    whose message is an empty array. *)
Definition pw_empty_message_document : Playwright.Report :=
  {| Playwright.report_suites :=
       Some [ Playwright.mkSuite "login"
                (Some [ {| Playwright.spec_title := "rejects a bad password";
                           Playwright.tests :=
                             Some [ {| Playwright.status := "unexpected";
                                       Playwright.errors :=
                                         Some [ [("message", JArr [])] ];
                                       Playwright.duration := Some 7%Z |} ]
                        |} ])
                (Some []) ] |}.

(** The texts the runner processes print for these documents. *)
Definition jest_text : string :=
  Json.stringify
    (JObj [("testResults",
            JArr [JObj [("assertionResults",
                         JArr [JObj [("fullName", JStr "math adds");
                                     ("title", JStr "adds");
                                     ("status", JStr "passed");
                                     ("failureMessages", JArr []);
                                     ("duration", JNum 10)];
                               JObj [("fullName", JStr "math divides");
                                     ("title", JStr "divides");
                                     ("status", JStr "failed");
                                     ("failureMessages", JArr [JStr "boom"]);
                                     ("duration", JNum 5)]])]])]).

Definition pw_failing_text : string :=
  Json.stringify
    (JObj [("suites",
            JArr [JObj [("title", JStr "login");
                        ("specs",
                         JArr [JObj [("title", JStr "rejects a bad password");
                                     ("tests",
                                      JArr [JObj [("status", JStr "unexpected");
                                                  ("errors",
                                                   JArr [JObj [("message",
                                                                JStr "boom")]]);
                                                  ("duration", JNum 7)]])]]);
                        ("suites", JArr [])]])]).

Definition pw_text : string :=
  Json.stringify
    (JObj [("suites",
            JArr [JObj [("title", JStr "A");
                        ("suites",
                         JArr [JObj [("title", JStr "B");
                                     ("specs",
                                      JArr [JObj [("title", JStr "t1");
                                                  ("tests",
                                                   JArr [JObj [("status",
                                                                JStr "expected");
                                                               ("errors", JArr []);
                                                               ("duration",
                                                                JNum 3)]])]])]])]])]).

(** JSON.parse followed by the reading of the document. *)
Definition JSON_parse_jest (text : string) : string + Jest.Results :=
  match JsonText.parse text with
  | inl m => inl m
  | inr v =>
      match Decode.jest v with
      | Some doc => inr doc
      | None => inl "testResults is not iterable"
      end
  end.

Definition JSON_parse_pw (text : string) : string + Playwright.Report :=
  match JsonText.parse text with
  | inl m => inl m
  | inr v =>
      match Decode.playwright (String.length text) v with
      | Some doc => inr doc
      | None => inl "suites is not iterable"
      end
  end.

(** Process runners. The first one's process exits with status 0 having
    printed [out]. The second one's process exits with a non-zero status
    having printed [out] and, on its error stream, [err]: exec rejects
    with the message Command failed, the command line and [err], and
    attaches the output. The third cannot start a process at all. *)
Definition exec_resolving (out : string) : string -> string -> ExecResult :=
  fun _ _ => Resolved out "".

Definition exec_exiting (out err : string) : string -> string -> ExecResult :=
  fun command _ =>
    Rejected {| message := "Command failed: " ++ command ++ JS.LF ++ err;
                stdout := Some out |}.

Definition exec_not_spawned : string -> string -> ExecResult :=
  fun _ _ => Rejected {| message := "spawn /bin/sh ENOENT"; stdout := None |}.

(** What the shell prints when the tool is not installed. *)
Definition not_found : string := "/bin/sh: 1: npx: not found" ++ JS.LF.

Definition jest_options : JestTestRunner.Options :=
  {| JestTestRunner.coverage := false;
     JestTestRunner.watch := false;
     JestTestRunner.testNamePattern := None |}.

Definition pw_options : PlaywrightTestRunner.Options :=
  {| PlaywrightTestRunner.headed := false;
     PlaywrightTestRunner.workers := None;
     PlaywrightTestRunner.browser := None |}.

(** A disk: the directories and the files it holds. *)
Record Disk := mkDisk {
  dirs : list string;
  files : list (string * string)
}.

Definition empty_disk : Disk := {| dirs := []; files := [] |}.

Definition mkdir_recursive (path : string) (d : Disk) : Disk * option string :=
  if existsb (fun f => String.eqb (fst f) path) (files d)
  then (d, Some ("EEXIST: file already exists, mkdir '" ++ path ++ "'"))
  else if existsb (String.eqb path) (dirs d) then (d, None)
  else ({| dirs := path :: dirs d; files := files d |}, None).

Definition writeFile (path content : string) (d : Disk)
  : Disk * option string :=
  ({| dirs := dirs d;
      files := (path, content)
               :: filter (fun f => negb (String.eqb (fst f) path)) (files d) |},
   None).

Definition path_join (a b : string) : string := a ++ "/" ++ b.

(** A stand-in for the serializer of the structured report. *)
Definition JSON_stringify (r : TestReporter.JsonReport) : string :=
  Json.stringify
    (JObj [("timestamp", JStr (TestReporter.timestamp r));
           ("tests",
            JArr (map (fun t => JStr (TestReporter.JsonTest.id t))
                      (TestReporter.tests r)))]).

Definition html_options : TestReporter.ReportOptions :=
  {| TestReporter.format := "html";
     TestReporter.outputPath := "reports";
     TestReporter.filename := None;
     TestReporter.includeTimestamp := Some false |}.

(** A failed result without error text. *)
Definition failed_without_error : TestResult :=
  {| testId := "t"; passed := false; error := None; duration := 0%Z |}.

(** The result of the markup property: identifier [a & b], error [<bad>]. *)
Definition needs_escaping : TestResult :=
  {| testId := "a & b"; passed := false; error := Some "<bad>";
     duration := 0%Z |}.

End Sample.

(** ** Vocabulary of the statements *)

Module Markup.

(** What escapeXml writes for one character. *)
Definition escape_char (c : ascii) : string :=
  if Ascii.eqb c "&" then "&amp;"
  else if Ascii.eqb c "<" then "&lt;"
  else if Ascii.eqb c ">" then "&gt;"
  else if Ascii.eqb c JS.dq then "&quot;"
  else if Ascii.eqb c "'" then "&apos;"
  else String c "".

Fixpoint escape_each (s : string) : string :=
  match s with
  | EmptyString => EmptyString
  | String c rest => escape_char c ++ escape_each rest
  end.

(** The five characters with a meaning in markup. *)
Definition special (c : ascii) : bool :=
  Ascii.eqb c "&" || Ascii.eqb c "<" || Ascii.eqb c ">"
  || Ascii.eqb c JS.dq || Ascii.eqb c "'".

(** [s] starts with one of the five entity references. *)
Definition starts_with_entity (s : string) : bool :=
  JS.starts_with "&amp;" s || JS.starts_with "&lt;" s
  || JS.starts_with "&gt;" s || JS.starts_with "&quot;" s
  || JS.starts_with "&apos;" s.

(** Text that can stand in an attribute value or an element body: no
    angle bracket and no quote (double or single) occurs in it, and every
    ampersand starts an entity reference. *)
Fixpoint safe_text (s : string) : bool :=
  match s with
  | EmptyString => true
  | String c rest =>
      (if Ascii.eqb c "&" then starts_with_entity s else negb (special c))
      && safe_text rest
  end.

(** The text an entity-escaped string stands for. *)
Fixpoint unescape (s : string) : string :=
  match s with
  | String "&" (String "a" (String "m" (String "p" (String ";" rest)))) =>
      String "&" (unescape rest)
  | String "&" (String "l" (String "t" (String ";" rest))) =>
      String "<" (unescape rest)
  | String "&" (String "g" (String "t" (String ";" rest))) =>
      String ">" (unescape rest)
  | String "&" (String "q" (String "u" (String "o" (String "t"
                                                     (String ";" rest))))) =>
      String JS.dq (unescape rest)
  | String "&" (String "a" (String "p" (String "o" (String "s"
                                                     (String ";" rest))))) =>
      String "'" (unescape rest)
  | String c rest => String c (unescape rest)
  | EmptyString => EmptyString
  end.

(** The concatenation of a list of strings. *)
Definition concat_all (xs : list string) : string :=
  fold_right String.append "" xs.

End Markup.

Module Order.

(** The assertion records of a flat-suite document, suite by suite and,
    within a suite, in the order of its assertions. *)
Definition jest_assertions (doc : Jest.Results) : list Jest.AssertionResult :=
  flat_map Jest.assertionResults (Jest.testResults doc).

(** A leaf test run with what encloses it: the title of the innermost
    suite, and the spec. *)
Record Leaf := mkLeaf {
  suite_title : string;
  spec : Playwright.Spec;
  test : Playwright.TestRun
}.

Definition spec_leaves (title : string) (sp : Playwright.Spec) : list Leaf :=
  map (mkLeaf title sp) (JS.arr_or_empty (Playwright.tests sp)).

(** The leaves of a suite, depth first: its own specs in order, then its
    child suites in order. *)
Fixpoint suite_leaves (s : Playwright.Suite) : list Leaf :=
  match s with
  | Playwright.mkSuite title specs suites =>
      (flat_map (spec_leaves title) (JS.arr_or_empty specs)
       ++ match suites with
          | Some children => flat_map suite_leaves children
          | None => []
          end)%list
  end.

Definition report_leaves (doc : Playwright.Report) : list Leaf :=
  flat_map suite_leaves (JS.arr_or_empty (Playwright.report_suites doc)).

Definition leaf_result (l : Leaf) : TestResult :=
  PlaywrightTestRunner.test_result (suite_title l) (spec l) (test l).

(** [s] wrapped in [n] suites that hold nothing else. *)
Fixpoint nest (n : nat) (s : Playwright.Suite) : Playwright.Suite :=
  match n with
  | O => s
  | S k => Playwright.mkSuite "wrapper" None (Some [nest k s])
  end.

(** The attached errors carry text: a message member, when there is one,
    is a string. *)
Definition message_is_text (e : Playwright.ErrorObject) : bool :=
  match Json.get "message" e with
  | Some (JStr _) | None => true
  | Some _ => false
  end.

End Order.

(** The sum of a list of durations. *)
Definition sum_durations (results : list TestResult) : Z :=
  fold_right Z.add 0%Z (map duration results).

(** ** The wording of the specification, where it is compared with the code *)

Module Claimed.

(** "error = all failure messages joined by newlines (absent if none)". *)
Definition jest_error (a : Jest.AssertionResult) : option string :=
  match Jest.failureMessages a with
  | None => None
  | Some [] => None
  | Some (m :: ms) => Some (JS.join JS.LF (m :: ms))
  end.

(** "each assertion record maps to one TestResult, with identifier = the
    assertion's fully qualified name (fallback: its short title), passed =
    whether its status equals passed, error = ..., duration = the
    assertion's reported duration or 0 if absent". *)
Definition jest_result (a : Jest.AssertionResult) : TestResult :=
  {| testId := match Jest.fullName a with
               | Some name => if JS.truthy name then name else Jest.title a
               | None => Jest.title a
               end;
     passed := String.eqb (Jest.status a) "passed";
     error := jest_error a;
     duration := match Jest.duration a with Some d => d | None => 0%Z end |}.

(** "error = all attached error messages/objects stringified and
    newline-joined (absent when none)". *)
Definition playwright_error (test : Playwright.TestRun) : option string :=
  match Playwright.errors test with
  | None => None
  | Some [] => None
  | Some (e :: errs) =>
      Some (JS.join JS.LF (map PlaywrightTestRunner.error_text (e :: errs)))
  end.

(** "every leaf test run [becomes] one TestResult with identifier
    combining the innermost enclosing suite title and the spec title with
    a separator, passed = (status is passed or expected), error = ...,
    and duration = the test run's reported duration or 0". *)
Definition playwright_result (l : Order.Leaf) : TestResult :=
  {| testId := Order.suite_title l ++ PlaywrightTestRunner.separator
               ++ Playwright.spec_title (Order.spec l);
     passed := String.eqb (Playwright.status (Order.test l)) "passed"
               || String.eqb (Playwright.status (Order.test l)) "expected";
     error := playwright_error (Order.test l);
     duration := match Playwright.duration (Order.test l) with
                 | Some d => d
                 | None => 0%Z
                 end |}.

(** "a failure element whose message attribute and body both carry the
    error text (empty string if absent)". *)
Definition failure_as_claimed (result : TestResult) : string :=
  let text := match error result with Some e => e | None => "" end in
  "<failure message=" ++ TestReporter.q (TestReporter.escapeXml text) ++ ">"
  ++ TestReporter.escapeXml text ++ "</failure>".

(** The test case element and the document with that failure element. *)
Definition testcase_as_claimed (result : TestResult) : string :=
  "    <testcase name=" ++ TestReporter.q (TestReporter.escapeXml (testId result))
  ++ " time=" ++ TestReporter.q (JS.div1000_toFixed2 (duration result))
  ++ (if passed result then "/>" ++ JS.LF
      else ">" ++ JS.LF ++ "      " ++ failure_as_claimed result ++ JS.LF
           ++ "    </testcase>" ++ JS.LF).

Definition xml_document (timestamp : string) (results : list TestResult)
    (analysis : Analysis) : string :=
  TestReporter.xml_header timestamp analysis
  ++ Markup.concat_all (map testcase_as_claimed results)
  ++ TestReporter.xml_footer.

End Claimed.

(** The failure element generateXmlReport writes. *)
Definition failure_element (result : TestResult) : string :=
  "<failure message="
  ++ TestReporter.q (TestReporter.escapeXml
                       (match error result with
                        | Some e => if JS.truthy e then e else "Test failed"
                        | None => "Test failed"
                        end))
  ++ ">"
  ++ TestReporter.escapeXml (match error result with
                             | Some e => e
                             | None => ""
                             end)
  ++ "</failure>".

(** ** Further code of the pipeline *)

(** String.prototype.includes and the vocabulary of characters. *)
Module Text.

Fixpoint includes (needle haystack : string) : bool :=
  match haystack with
  | EmptyString => JS.starts_with needle EmptyString
  | String _ rest =>
      JS.starts_with needle haystack || includes needle rest
  end.

(** [c] occurs in [s]. *)
Fixpoint has_char (c : ascii) (s : string) : bool :=
  match s with
  | EmptyString => false
  | String a rest => Ascii.eqb a c || has_char c rest
  end.

(** The number of occurrences of [c] in [s]. *)
Fixpoint count_char (c : ascii) (s : string) : nat :=
  match s with
  | EmptyString => O
  | String a rest =>
      if Ascii.eqb a c then S (count_char c rest) else count_char c rest
  end.

(** No prefix of [s] closes more braces than it opens, [depth] braces
    being open at its start. *)
Fixpoint never_closes_more (s : string) (depth : nat) : bool :=
  match s with
  | EmptyString => true
  | String c rest =>
      if Ascii.eqb c "{" then never_closes_more rest (S depth)
      else if Ascii.eqb c "}" then
        match depth with
        | O => false
        | S d => never_closes_more rest d
        end
      else never_closes_more rest depth
  end.

(** [s] without its first [n] characters. *)
Fixpoint drop (n : nat) (s : string) : string :=
  match n, s with
  | O, _ => s
  | S k, String _ rest => drop k rest
  | S _, EmptyString => EmptyString
  end.

End Text.

(** ** The generateReport method of both runners

    JestTestRunner.generateReport and PlaywrightTestRunner.generateReport
    have the same text: one report per format, through the reporter, with
    includeTimestamp set and no file name. [clock n] is the n-th reading
    of [new Date().toISOString()] during the call; a report that is
    written takes two readings. *)

Module TestRunner.

Section Reports.

Variable FS : Type.
Variable mkdir_recursive : string -> FS -> FS * option string.
Variable writeFile : string -> string -> FS -> FS * option string.
Variable path_join : string -> string -> string.
Variable JSON_stringify : TestReporter.JsonReport -> string.
Variable clock : nat -> string.

Variable results : list TestResult.
Variable analysis : Analysis.
Variable outputPath : string.

(** The [for] loop, from the reading [tick] of the clock on, with the
    paths pushed so far. *)
Fixpoint report_loop (tick : nat) (formats : list string)
    (reportPaths : list string) (fs : FS) : Outcome (list string) * FS :=
  match formats with
  | [] => (Returned reportPaths, fs)
  | format :: rest =>
      match TestReporter.generateReport FS mkdir_recursive writeFile
              path_join JSON_stringify (clock tick) (clock (S tick))
              results analysis
              {| TestReporter.format := format;
                 TestReporter.outputPath := outputPath;
                 TestReporter.filename := None;
                 TestReporter.includeTimestamp := Some true |} fs with
      | (Returned reportPath, fs') =>
          report_loop (S (S tick)) rest (reportPaths ++ [reportPath])%list fs'
      | (Thrown e, fs') => (Thrown e, fs')
      end
  end.

Definition generateReport (formats : list string) (fs : FS)
  : Outcome (list string) * FS :=
  report_loop 0 formats [] fs.

End Reports.

End TestRunner.

(** The paths of the reports of a list of formats, the first of which
    is named after the reading [tick] of the clock. *)
Module ReportNames.

Definition report_name (reading format : string) : string :=
  "test-report-" ++ JS.replace_all ":" "-" reading ++ "." ++ format.

Fixpoint expected_paths (path_join : string -> string -> string)
    (clock : nat -> string) (outputPath : string) (tick : nat)
    (formats : list string) : list string :=
  match formats with
  | [] => []
  | format :: rest =>
      path_join outputPath (report_name (clock tick) format)
      :: expected_paths path_join clock outputPath (S (S tick)) rest
  end.

Definition supported (format : string) : bool :=
  String.eqb format "json" || String.eqb format "xml".

End ReportNames.

(** ** core/testManager

    The class TestManager is not modelled: generateAndRunTests declares
    the constant [analysis] twice in one block (the analysis of the code
    and the analysis of the results), which the language rejects for the
    module as a whole, so none of its methods can be called as the file
    stands. *)

(** ** utils/codeParser: the body of a function

    parseCode finds the body of a function by counting braces from the
    index that follows the opening brace of the declaration. *)

Module CodeParser.

(** The [for] loop over [code] from index [i], [s] being the text from
    that index on: the index at which the count of open braces reaches 0,
    if it does. *)
Fixpoint scan_braces (s : string) (braceCount : Z) (i : nat) : option nat :=
  match s with
  | EmptyString => None
  | String c rest =>
      let braceCount :=
        if Ascii.eqb c "{" then (braceCount + 1)%Z else braceCount in
      let braceCount :=
        if Ascii.eqb c "}" then (braceCount - 1)%Z else braceCount in
      if (braceCount =? 0)%Z then Some i
      else scan_braces rest braceCount (S i)
  end.

(** [endIndex] starts as [startIndex] and is set when the loop breaks;
    the body is [code.substring(startIndex, endIndex)]. *)
Definition function_body (code : string) (startIndex : nat) : string :=
  let endIndex :=
    match scan_braces (Text.drop startIndex code) 1 startIndex with
    | Some i => i
    | None => startIndex
    end in
  String.substring startIndex (endIndex - startIndex) code.

(** A directory as readdir with file types shows it: the outcome of
    listing it, each entry being a file (with the outcome of reading it),
    a directory, or something else. *)
Inductive Dir : Type :=
| mkDir (listing : Outcome (list Entry))
with Entry : Type :=
| FileEntry (name : string) (content : Outcome string)
| DirEntry (name : string) (dir : Dir)
| OtherEntry (name : string).

Definition default_extensions : list string := [".ts"; ".js"; ".tsx"; ".jsx"].

(** [fileExtensions.includes(ext)]. *)
Definition includes_ext (fileExtensions : list string) (ext : string) : bool :=
  existsb (String.eqb ext) fileExtensions.

Section Files.

(** parseCode (whose regular expressions are not embedded) and the two
    functions of path the directory walk uses. *)
Variable ParsedModule : Type.
Variable parseCode : string -> string -> ParsedModule.
Variable path_join : string -> string -> string.
Variable path_extname : string -> string.

(** parseFile, given the outcome of reading the file. *)
Definition parseFile (filePath : string) (content : Outcome string)
  : Outcome ParsedModule :=
  match content with
  | Returned code => Returned (parseCode code filePath)
  | Thrown m => Thrown ("Failed to parse file " ++ filePath ++ ": " ++ m)
  end.

(** The [for] loop of parseDirectory over the entries, with the modules
    pushed so far; [recurse] is the recursive call and [failed] the
    [catch] block. *)
Fixpoint parse_entries
    (recurse : string -> Dir -> Outcome (list ParsedModule))
    (failed : string -> Outcome (list ParsedModule))
    (dirPath : string) (fileExtensions : list string)
    (entries : list Entry) (modules : list ParsedModule)
  : Outcome (list ParsedModule) :=
  match entries with
  | [] => Returned modules
  | entry :: rest =>
      match entry with
      | DirEntry name sub =>
          match recurse (path_join dirPath name) sub with
          | Returned subModules =>
              parse_entries recurse failed dirPath fileExtensions rest
                (modules ++ subModules)%list
          | Thrown m => failed m
          end
      | FileEntry name content =>
          if includes_ext fileExtensions (path_extname name) then
            match parseFile (path_join dirPath name) content with
            | Returned module =>
                parse_entries recurse failed dirPath fileExtensions rest
                  (modules ++ [module])%list
            | Thrown m => failed m
            end
          else parse_entries recurse failed dirPath fileExtensions rest
                 modules
      | OtherEntry _ =>
          parse_entries recurse failed dirPath fileExtensions rest modules
      end
  end.

Fixpoint parseDirectory (dirPath : string) (d : Dir)
    (fileExtensions : list string) {struct d}
  : Outcome (list ParsedModule) :=
  let failed m : Outcome (list ParsedModule) :=
    Thrown ("Failed to parse directory " ++ dirPath ++ ": " ++ m) in
  match d with
  | mkDir (Thrown m) => failed m
  | mkDir (Returned entries) =>
      parse_entries
        (fun path sub => parseDirectory path sub fileExtensions)
        failed dirPath fileExtensions entries []
  end.

(** The files parseDirectory parses, with their paths, depth first in
    the order of the listings. *)
Fixpoint files_to_parse (dirPath : string) (d : Dir)
    (fileExtensions : list string) {struct d}
  : list (string * Outcome string) :=
  match d with
  | mkDir (Thrown _) => []
  | mkDir (Returned entries) =>
      flat_map
        (fun entry =>
           match entry with
           | DirEntry name sub =>
               files_to_parse (path_join dirPath name) sub fileExtensions
           | FileEntry name content =>
               if includes_ext fileExtensions (path_extname name)
               then [(path_join dirPath name, content)] else []
           | OtherEntry _ => []
           end) entries
  end.

(** Every directory of the tree can be listed. *)
Fixpoint listable (d : Dir) : bool :=
  match d with
  | mkDir (Thrown _) => false
  | mkDir (Returned entries) =>
      forallb (fun entry =>
                 match entry with
                 | DirEntry _ sub => listable sub
                 | FileEntry _ _ | OtherEntry _ => true
                 end) entries
  end.

Definition readable (file : string * Outcome string) : bool :=
  match snd file with Returned _ => true | Thrown _ => false end.

Definition module_of (file : string * Outcome string)
  : list ParsedModule :=
  match snd file with
  | Returned code => [parseCode code (fst file)]
  | Thrown _ => []
  end.

End Files.

End CodeParser.

(** ** agents/openaiAgent *)

Module OpenAIAgent.

(** The fields of an agent; [client] holds the API key the client was
    created with, once init has run. *)
Record t := mk {
  id : string;
  name : string;
  capabilities : list string;
  client : option string;
  model : string
}.

(** The constructor. *)
Definition new (id : string) : t :=
  {| id := id;
     name := "OpenAI Agent";
     capabilities := ["code-generation"; "test-generation"; "code-analysis"];
     client := None;
     model := "gpt-4" |}.

Record InitConfig := mkInitConfig {
  apiKey : option string;
  init_model : option string
}.

(** init: the agent it leaves, or the error it throws before changing
    anything. *)
Definition init (config : InitConfig) (agent : t) : Outcome t :=
  match apiKey config with
  | Some key =>
      if JS.truthy key then
        Returned {| id := id agent;
                    name := name agent;
                    capabilities := capabilities agent;
                    client := Some key;
                    model := JS.or_else (init_model config) (model agent) |}
      else Thrown "OpenAI API key is required"
  | None => Thrown "OpenAI API key is required"
  end.

Record CompletionOptions := mkCompletionOptions {
  option_model : option string;
  temperature : option Q;
  maxTokens : option Z
}.

Definition no_options : CompletionOptions :=
  {| option_model := None; temperature := None; maxTokens := None |}.

(** The request handed to [chat.completions.create]: one user message
    with the prompt. *)
Record ChatRequest := mkChatRequest {
  request_model : string;
  request_prompt : string;
  request_temperature : Q;
  max_tokens : Z
}.

(** A choice of the response: its message, if any, and the content of
    the message, if any. *)
Definition Choice : Type := option (option string).

Definition completion_request (agent : t) (prompt : string)
    (options : CompletionOptions) : ChatRequest :=
  {| request_model := JS.or_else (option_model options) (model agent);
     request_prompt := prompt;
     request_temperature :=
       match temperature options with
       | Some q => if Qeq_bool q 0 then 3 # 10 else q
       | None => 3 # 10
       end;
     max_tokens :=
       match maxTokens options with
       | Some n => if (n =? 0)%Z then 2000%Z else n
       | None => 2000%Z
       end |}.

(** [response.choices[0]?.message?.content || '']. *)
Definition first_content (choices : list Choice) : string :=
  match choices with
  | Some (Some content) :: _ => content
  | _ => ""
  end.

(** The results of executeTask. *)
Inductive TaskResult : Type :=
| TestCode (testCode : string)
| Parsed (value : json)
| Unparsed (error rawResponse : string).

Record TaskInputs := mkTaskInputs {
  code : string;
  testType : string;
  testResults : json
}.

Definition generate_test_prompt (code testType : string) : string :=
  JS.LF
    ++ "      Generate a comprehensive " ++ testType ++ " test for the following code:" ++ JS.LF
    ++ "      " ++ JS.LF
    ++ "      ```" ++ JS.LF
    ++ "      " ++ code ++ JS.LF
    ++ "      ```" ++ JS.LF
    ++ "      " ++ JS.LF
    ++ "      The test should:" ++ JS.LF
    ++ "      1. Cover all main functionality" ++ JS.LF
    ++ "      2. Include edge cases" ++ JS.LF
    ++ "      3. Follow best practices for testing" ++ JS.LF
    ++ "      4. Use jest as the testing framework" ++ JS.LF
    ++ "      " ++ JS.LF
    ++ "      Return the test code only, without explanations." ++ JS.LF
    ++ "    ".

Definition analyze_code_prompt (code : string) : string :=
  JS.LF
    ++ "      Analyze the following code for testability, potential bugs, and code quality issues:" ++ JS.LF
    ++ "      " ++ JS.LF
    ++ "      ```" ++ JS.LF
    ++ "      " ++ code ++ JS.LF
    ++ "      ```" ++ JS.LF
    ++ "      " ++ JS.LF
    ++ "      Provide a structured JSON output with the following sections:" ++ JS.LF
    ++ "      1. complexity (numeric score 1-10)" ++ JS.LF
    ++ "      2. testability (numeric score 1-10)" ++ JS.LF
    ++ "      3. potentialIssues (array of issues)" ++ JS.LF
    ++ "      4. testingRecommendations (array of recommendations)" ++ JS.LF
    ++ "    ".

Section Client.

(** The completion endpoint, [JSON.parse] and
    [JSON.stringify(value, null, 2)]. *)
Variable create : ChatRequest -> Outcome (list Choice).
Variable JSON_parse : string -> string + json.
Variable JSON_stringify_indented : json -> string.

Definition suggest_improvements_prompt (code : string) (testResults : json)
  : string :=
  JS.LF
    ++ "      Review the following code and its test results, then suggest improvements:" ++ JS.LF
    ++ "      " ++ JS.LF
    ++ "      Code:" ++ JS.LF
    ++ "      ```" ++ JS.LF
    ++ "      " ++ code ++ JS.LF
    ++ "      ```" ++ JS.LF
    ++ "      " ++ JS.LF
    ++ "      Test Results:" ++ JS.LF
    ++ "      ```" ++ JS.LF
    ++ "      " ++ JSON_stringify_indented testResults ++ JS.LF
    ++ "      ```" ++ JS.LF
    ++ "      " ++ JS.LF
    ++ "      Provide a structured JSON output with the following sections:" ++ JS.LF
    ++ "      1. codeImprovements (array of suggested code changes)" ++ JS.LF
    ++ "      2. testImprovements (array of suggested test improvements)" ++ JS.LF
    ++ "      3. priorityIssues (array of high-priority issues to address)" ++ JS.LF
    ++ "    ".

(** Without a client (init has not run) the read of [this.client.chat]
    raises the TypeError whose message is given here as V8 words it. *)
Definition generateCompletion (agent : t) (prompt : string)
    (options : CompletionOptions) : Outcome string :=
  match client agent with
  | None =>
      Thrown ("Failed to generate completion: "
              ++ "Cannot read properties of undefined (reading 'chat')")
  | Some _ =>
      match create (completion_request agent prompt options) with
      | Returned choices => Returned (first_content choices)
      | Thrown m => Thrown ("Failed to generate completion: " ++ m)
      end
  end.

Definition generateTest (agent : t) (code testType : string)
  : Outcome TaskResult :=
  match generateCompletion agent (generate_test_prompt code testType)
          no_options with
  | Returned testCode => Returned (TestCode testCode)
  | Thrown m => Thrown m
  end.

Definition analyzeCode (agent : t) (code : string) : Outcome TaskResult :=
  match generateCompletion agent (analyze_code_prompt code) no_options with
  | Returned analysisText =>
      match JSON_parse analysisText with
      | inr analysis => Returned (Parsed analysis)
      | inl _ => Returned (Unparsed "Failed to parse analysis" analysisText)
      end
  | Thrown m => Thrown m
  end.

Definition suggestImprovements (agent : t) (code : string)
    (testResults : json) : Outcome TaskResult :=
  match generateCompletion agent
          (suggest_improvements_prompt code testResults) no_options with
  | Returned suggestionsText =>
      match JSON_parse suggestionsText with
      | inr suggestions => Returned (Parsed suggestions)
      | inl _ =>
          Returned (Unparsed "Failed to parse suggestions" suggestionsText)
      end
  | Thrown m => Thrown m
  end.

Definition executeTask (agent : t) (task : string) (inputs : TaskInputs)
  : Outcome TaskResult :=
  if String.eqb task "generate-test"
  then generateTest agent (code inputs) (testType inputs)
  else if String.eqb task "analyze-code"
  then analyzeCode agent (code inputs)
  else if String.eqb task "suggest-improvements"
  then suggestImprovements agent (code inputs) (testResults inputs)
  else Thrown ("Unknown task: " ++ task).

End Client.

End OpenAIAgent.

(** ** utils/testGenerator: generateTestCases *)

Module AITestGenerator.

Section Generator.

(** The reading of the source file, the agent's generateCompletion with
    its default options, [JSON.parse] and path.basename. *)
Variable readFile : string -> Outcome string.
Variable generateCompletion : string -> Outcome string.
Variable JSON_parse : string -> string + json.
Variable path_basename : string -> string.

Definition test_cases_prompt (config_type filePath fileContent : string)
  : string :=
  JS.LF
    ++ "        Generate test cases for the following " ++ config_type ++ " test:" ++ JS.LF
    ++ "        " ++ JS.LF
    ++ "        File: " ++ path_basename filePath ++ JS.LF
    ++ "        " ++ JS.LF
    ++ "        Code:" ++ JS.LF
    ++ "        ```typescript" ++ JS.LF
    ++ "        " ++ fileContent ++ JS.LF
    ++ "        ```" ++ JS.LF
    ++ "        " ++ JS.LF
    ++ "        Return a JSON array of test cases, where each test case has:" ++ JS.LF
    ++ "        1. id: string" ++ JS.LF
    ++ "        2. description: string" ++ JS.LF
    ++ "        3. input: object with input parameters" ++ JS.LF
    ++ "        4. expectedOutput: expected results" ++ JS.LF
    ++ "        " ++ JS.LF
    ++ "        Focus on thorough coverage, edge cases, and negative testing." ++ JS.LF
    ++ "      ".

(** The outer [try] block. *)
Definition generate_try (filePath config_type : string) : Outcome json :=
  match readFile filePath with
  | Thrown m => Thrown m
  | Returned fileContent =>
      match generateCompletion
              (test_cases_prompt config_type filePath fileContent) with
      | Thrown m => Thrown m
      | Returned result =>
          match JSON_parse result with
          | inr testCases => Returned testCases
          | inl m => Thrown ("Failed to parse test cases: " ++ m)
          end
      end
  end.

Definition generateTestCases (filePath config_type : string) : Outcome json :=
  match generate_try filePath config_type with
  | Returned testCases => Returned testCases
  | Thrown m => Thrown ("Failed to generate test cases: " ++ m)
  end.

End Generator.

End AITestGenerator.

(** ** core/agentManager (src/unnamed/part_002) *)

Module AgentManager.

(** The Map of agents, in insertion order. *)
Definition Agents : Type := list (string * OpenAIAgent.t).

(** Map.prototype.set: a key already there keeps its place. *)
Fixpoint map_set (key : string) (value : OpenAIAgent.t) (agents : Agents)
  : Agents :=
  match agents with
  | [] => [(key, value)]
  | (k, v) :: rest =>
      if String.eqb k key then (k, value) :: rest
      else (k, v) :: map_set key value rest
  end.

Fixpoint map_get (key : string) (agents : Agents) : option OpenAIAgent.t :=
  match agents with
  | [] => None
  | (k, v) :: rest => if String.eqb k key then Some v else map_get key rest
  end.

(** Map.prototype.delete: whether the key was there, and the map left. *)
Fixpoint map_delete (key : string) (agents : Agents) : bool * Agents :=
  match agents with
  | [] => (false, [])
  | (k, v) :: rest =>
      if String.eqb k key then (true, rest)
      else let '(found, rest') := map_delete key rest in
           (found, (k, v) :: rest')
  end.

Definition registerAgent (agent : OpenAIAgent.t) (agents : Agents) : Agents :=
  map_set (OpenAIAgent.id agent) agent agents.

Definition getAgent (agentId : string) (agents : Agents)
  : option OpenAIAgent.t :=
  map_get agentId agents.

Definition getDefaultAgent (agents : Agents) : Outcome OpenAIAgent.t :=
  match agents with
  | [] => Thrown "No agents available"
  | (_, agent) :: _ => Returned agent
  end.

Definition getAllAgents (agents : Agents) : list OpenAIAgent.t :=
  map snd agents.

Definition unregisterAgent (agentId : string) (agents : Agents)
  : bool * Agents :=
  map_delete agentId agents.

(** The configuration of an agent and the part of the configuration
    initialize reads; [agents] lists the entries in the order of
    Object.entries. *)
Record AgentConfig := mkAgentConfig {
  type : option string;
  agent_model : option string
}.

Record Config := mkConfig {
  openai_key : option string;
  agents : list (string * AgentConfig);
  defaultModel : string
}.

(** One turn of the loop over the configured agents: an agent of type
    openai is created, initialised and registered; an error of init is
    caught. *)
Definition initialize_custom (config : Config) (registered : Agents)
    (entry : string * AgentConfig) : Agents :=
  let '(agentId, agentConfig) := entry in
  match type agentConfig with
  | Some t =>
      if String.eqb t "openai" then
        match OpenAIAgent.init
                {| OpenAIAgent.apiKey := openai_key config;
                   OpenAIAgent.init_model :=
                     Some (JS.or_else (agent_model agentConfig)
                                      (defaultModel config)) |}
                (OpenAIAgent.new agentId) with
        | Returned agent => registerAgent agent registered
        | Thrown _ => registered
        end
      else registered
  | None => registered
  end.

(** initialize: the error it throws, if any, and the map it leaves. *)
Definition initialize (config : Config) (registered : Agents)
  : option string * Agents :=
  let default :=
    match openai_key config with
    | Some key =>
        if JS.truthy key then
          match OpenAIAgent.init
                  {| OpenAIAgent.apiKey := openai_key config;
                     OpenAIAgent.init_model := Some (defaultModel config) |}
                  (OpenAIAgent.new "openai-default") with
          | Returned agent => inr (registerAgent agent registered)
          | Thrown m => inl m
          end
        else inr registered
    | None => inr registered
    end in
  match default with
  | inl m => (Some m, registered)
  | inr registered' =>
      (None, fold_left (initialize_custom config) (agents config) registered')
  end.

End AgentManager.

(** The agents of a manager are consistent when no identifier is stored
    twice (they are the keys of a Map) and every agent is stored under its
    own identifier. *)
Definition consistent_agents (agents : AgentManager.Agents) : Prop :=
  NoDup (map fst agents)
  /\ Forall (fun entry => fst entry = OpenAIAgent.id (snd entry)) agents.

(** The agent initialize builds for an identifier, a key and a model. *)
Definition initialised_agent (agentId key model : string) : OpenAIAgent.t :=
  {| OpenAIAgent.id := agentId;
     OpenAIAgent.name := "OpenAI Agent";
     OpenAIAgent.capabilities :=
       ["code-generation"; "test-generation"; "code-analysis"];
     OpenAIAgent.client := Some key;
     OpenAIAgent.model := JS.or_else (Some model) "gpt-4" |}.

(** Induction on a directory, with the property available on every
    directory it lists. *)
Section DirInduction.

Variable P : CodeParser.Dir -> Prop.

Hypothesis unlisted : forall m, P (CodeParser.mkDir (Thrown m)).

Hypothesis listed :
  forall entries,
    Forall (fun entry =>
              match entry with
              | CodeParser.DirEntry _ sub => P sub
              | _ => True
              end) entries ->
    P (CodeParser.mkDir (Returned entries)).

Fixpoint Dir_nested_ind (d : CodeParser.Dir) : P d :=
  match d with
  | CodeParser.mkDir (Thrown m) => unlisted m
  | CodeParser.mkDir (Returned entries) =>
      listed entries
        ((fix all (l : list CodeParser.Entry)
            : Forall (fun entry =>
                        match entry with
                        | CodeParser.DirEntry _ sub => P sub
                        | _ => True
                        end) l :=
            match l with
            | [] => Forall_nil _
            | entry :: rest =>
                Forall_cons entry
                  (match entry
                         return match entry with
                                | CodeParser.DirEntry _ sub => P sub
                                | _ => True
                                end with
                   | CodeParser.DirEntry _ sub => Dir_nested_ind sub
                   | _ => I
                   end)
                  (all rest)
            end) entries)
  end.

End DirInduction.

(** ** More concrete environments *)

Module Scenario.

(** Stand-ins for path.extname (the name from its last dot on, when that
    dot is not its first character) and for parseCode (the path and the
    code, kept as they are). *)
Fixpoint from_last_dot (s : string) : option string :=
  match s with
  | EmptyString => None
  | String c rest =>
      match from_last_dot rest with
      | Some ext => Some ext
      | None => if Ascii.eqb c "." then Some s else None
      end
  end.

Definition extname (name : string) : string :=
  match name with
  | EmptyString => ""
  | String _ rest =>
      match from_last_dot rest with Some ext => ext | None => "" end
  end.

Definition keep_code (code filePath : string) : string * string :=
  (filePath, code).

(** A source directory with a file to parse, a file to skip that cannot
    be read, and a directory that cannot be listed. *)
Definition unlistable : CodeParser.Dir :=
  CodeParser.mkDir
    (Thrown "EACCES: permission denied, scandir 'src/lib'").

Definition source_tree (lib : CodeParser.Dir) : CodeParser.Dir :=
  CodeParser.mkDir
    (Returned
       [ CodeParser.FileEntry "a.ts" (Returned "export const a = 1;");
         CodeParser.FileEntry "logo.png" (Thrown "EACCES: permission denied");
         CodeParser.DirEntry "lib" lib ]).

(** A function declaration whose body holds a nested block, and one
    whose last brace is missing. *)
Definition closed_function : string :=
  "function f(x) { if (x) { return 1; } return 0; } f(1);".

Definition unclosed_function : string :=
  "function f(x) { if (x) { return 1; } return 0; ".

(** A clock whose n-th reading is n seconds after midnight. *)
Definition clock (n : nat) : string :=
  "2024-01-01T00:00:0" ++ JS.nat_to_string n ++ ".000Z".

End Scenario.

(** ** Proof principles *)

Section SuiteInduction.

Variable P : Playwright.Suite -> Prop.

Hypothesis step :
  forall title specs suites,
    Forall P (JS.arr_or_empty suites) ->
    P (Playwright.mkSuite title specs suites).

(** Induction on a suite, with the property available on every child. *)
Fixpoint Suite_nested_ind (s : Playwright.Suite) : P s :=
  match s with
  | Playwright.mkSuite title specs suites =>
      step title specs suites
        (match suites return Forall P (JS.arr_or_empty suites) with
         | Some children =>
             (fix all (l : list Playwright.Suite) : Forall P l :=
                match l with
                | [] => Forall_nil P
                | c :: rest => Forall_cons c (Suite_nested_ind c) (all rest)
                end) children
         | None => Forall_nil P
         end)
  end.

End SuiteInduction.

(** Closes a case of an entity reference at the head of the text. *)
Ltac entity_case IH :=
  cbn; unfold Markup.starts_with_entity; cbn; exact IH.

(** * Properties *)

(** ** The model at work *)

(** Values of [(d / 1000).toFixed(2)]: halves of the last digit go up or
    down with the binary64 quotient. *)
Example toFixed2_values :
  map JS.div1000_toFixed2 [0; 5; 15; 25; 1005; 1234; 8345; 15000; -5]%Z
  = ["0.00"; "0.01"; "0.01"; "0.03"; "1.00"; "1.23"; "8.35"; "15.00";
     "-0.01"].
Proof. vm_compute. reflexivity. Qed.

Example stringify_escapes :
  Json.stringify (JObj [("message", JStr ("a\b" ++ JS.LF));
                        ("line", JNum (-3));
                        ("tags", JArr [JNull; JBool true])])
  = "{" ++ JS.DQ ++ "message" ++ JS.DQ ++ ":" ++ JS.DQ ++ "a\\b\n" ++ JS.DQ
    ++ "," ++ JS.DQ ++ "line" ++ JS.DQ ++ ":-3,"
    ++ JS.DQ ++ "tags" ++ JS.DQ ++ ":[null,true]}".
Proof. vm_compute. reflexivity. Qed.

(** The texts of the examples decode to the documents of the examples,
    and a text that is not JSON is refused. *)
Example sample_texts_decode :
  Sample.JSON_parse_jest Sample.jest_text = inr Sample.jest_document
  /\ Sample.JSON_parse_pw Sample.pw_text = inr Sample.pw_document
  /\ Sample.JSON_parse_pw Sample.pw_failing_text
     = inr Sample.pw_failing_document
  /\ Sample.JSON_parse_jest "not json" = inl "Unexpected token in JSON"
  /\ Sample.JSON_parse_pw "" = inl "Unexpected token in JSON".
Proof. vm_compute. repeat split; reflexivity. Qed.

Example command_lines :
  JestTestRunner.jestOptions
    {| JestTestRunner.coverage := true; JestTestRunner.watch := false;
       JestTestRunner.testNamePattern := Some "adds" |}
  = "--json --coverage --testNamePattern=" ++ JS.DQ ++ "adds" ++ JS.DQ
  /\ PlaywrightTestRunner.pwOptions
       {| PlaywrightTestRunner.headed := true;
          PlaywrightTestRunner.workers := Some 4%Z;
          PlaywrightTestRunner.browser := Some "firefox" |}
     = "--reporter=json --headed --workers=4 --browser=firefox"
  /\ JestTestRunner.jestOptions Sample.jest_options = "--json".
Proof. vm_compute. repeat split; reflexivity. Qed.

(** A successful run on the text of the first example, and the XML
    report of its results written to an empty disk. *)
Example jest_run_and_report :
  let results :=
    JestTestRunner.parseJestResults Sample.jest_document in
  JestTestRunner.runTests "/repo" (Sample.exec_resolving Sample.jest_text)
    Sample.JSON_parse_jest "sum.test.ts" Sample.jest_options
  = Returned results
  /\ TestReporter.generateReport Sample.Disk Sample.mkdir_recursive
       Sample.writeFile Sample.path_join Sample.JSON_stringify
       "2024-01-01T00:00:00.000Z" "2024-01-01T00:00:00.001Z"
       results (JestTestRunner.analyzeResults results)
       {| TestReporter.format := "xml";
          TestReporter.outputPath := "reports";
          TestReporter.filename := None;
          TestReporter.includeTimestamp := None |}
       Sample.empty_disk
     = (Returned "reports/test-report-2024-01-01T00-00-00.000Z.xml",
        {| Sample.dirs := ["reports"];
           Sample.files :=
             [("reports/test-report-2024-01-01T00-00-00.000Z.xml",
               TestReporter.generateXmlReport "2024-01-01T00:00:00.001Z"
                 results (JestTestRunner.analyzeResults results))] |}).
Proof. vm_compute. split; reflexivity. Qed.

(** ** Lists built by pushing *)

Section Pushing.

Context {A B : Type}.

(** A loop that pushes the image of every element appends their images. *)
Lemma fold_left_push (f : A -> B) (xs : list A) (acc : list B) :
  fold_left (fun results x => (results ++ [f x])%list) xs acc
  = (acc ++ map f xs)%list.
Proof.
  revert acc.
  induction xs as [|x xs IH]; intros acc; simpl.
  - now rewrite app_nil_r.
  - rewrite IH, <- app_assoc. reflexivity.
Qed.

(** A loop whose body appends a list that depends on the element only. *)
Lemma fold_left_append (g : A -> list B) (step : list B -> A -> list B)
    (xs : list A) (acc : list B) :
  (forall acc' x, step acc' x = (acc' ++ g x)%list) ->
  fold_left step xs acc = (acc ++ flat_map g xs)%list.
Proof.
  intros Hstep. revert acc.
  induction xs as [|x xs IH]; intros acc; simpl.
  - now rewrite app_nil_r.
  - rewrite IH, Hstep, <- app_assoc. reflexivity.
Qed.

(** The same when the body is known on the elements of the list only. *)
Lemma fold_left_append_in (g : A -> list B) (step : list B -> A -> list B)
    (xs : list A) (acc : list B) :
  Forall (fun x => forall acc', step acc' x = (acc' ++ g x)%list) xs ->
  fold_left step xs acc = (acc ++ flat_map g xs)%list.
Proof.
  intros Hstep. revert acc.
  induction Hstep as [|x xs Hx _ IH]; intros acc; simpl.
  - now rewrite app_nil_r.
  - rewrite IH, Hx, <- app_assoc. reflexivity.
Qed.

End Pushing.

(** ** Aggregation *)

Lemma filter_partition_length {A : Type} (p : A -> bool) (xs : list A) :
  (List.length (filter p xs)
   + List.length (filter (fun x => negb (p x)) xs))%nat
  = List.length xs.
Proof.
  induction xs as [|x xs IH]; simpl; [reflexivity|].
  destruct (p x); simpl; lia.
Qed.

Lemma filter_length_le {A : Type} (p : A -> bool) (xs : list A) :
  (List.length (filter p xs) <= List.length xs)%nat.
Proof.
  induction xs as [|x xs IH]; simpl; [lia|].
  destruct (p x); simpl; lia.
Qed.

Lemma reduce_durations (results : list TestResult) (acc : Z) :
  fold_left (fun acc r => (acc + duration r)%Z) results acc
  = (acc + sum_durations results)%Z.
Proof.
  unfold sum_durations. revert acc.
  induction results as [|r rs IH]; intros acc; simpl.
  - lia.
  - rewrite IH. lia.
Qed.

(** ** Binary64 rounding *)

Section Nearest.
Local Open Scope Z_scope.

Lemma scaled_den_pos (n d e : Z) : 0 < d -> 0 < snd (Binary64.scaled n d e).
Proof.
  intros Hd. unfold Binary64.scaled.
  destruct (0 <=? e) eqn:E; cbn [snd]; [|exact Hd].
  apply Z.leb_le in E. pose proof (Z.pow_pos_nonneg 2 e). nia.
Qed.

Lemma scaled_down (n d e : Z) :
  fst (Binary64.scaled n d (e - 1)) * snd (Binary64.scaled n d e)
  = 2 * fst (Binary64.scaled n d e) * snd (Binary64.scaled n d (e - 1)).
Proof.
  unfold Binary64.scaled.
  destruct (0 <=? e) eqn:E; destruct (0 <=? e - 1) eqn:E'; cbn [fst snd].
  - apply Z.leb_le in E'.
    assert (H : 2 ^ e = 2 * 2 ^ (e - 1)).
    { rewrite <- Z.pow_succ_r by lia. f_equal. lia. }
    rewrite H. ring.
  - apply Z.leb_le in E. apply Z.leb_gt in E'.
    assert (e = 0) as -> by lia.
    change (2 ^ (- (0 - 1))) with 2. change (2 ^ 0) with 1. ring.
  - apply Z.leb_gt in E. apply Z.leb_le in E'. lia.
  - apply Z.leb_gt in E.
    assert (H : 2 ^ (- (e - 1)) = 2 * 2 ^ (- e)).
    { rewrite <- Z.pow_succ_r by lia. f_equal. lia. }
    rewrite H. ring.
Qed.

Lemma scaled_log2 (n d : Z) :
  0 < n -> 0 < d ->
  let e0 := Z.log2 n - Z.log2 d - 52 in
  snd (Binary64.scaled n d e0) * 2 ^ 51 < fst (Binary64.scaled n d e0)
  /\ fst (Binary64.scaled n d e0) < snd (Binary64.scaled n d e0) * 2 ^ 53.
Proof.
  intros Hn Hd e0.
  destruct (Z.log2_spec n Hn) as [Hn1 Hn2].
  destruct (Z.log2_spec d Hd) as [Hd1 Hd2].
  pose proof (Z.log2_nonneg n) as Ha. pose proof (Z.log2_nonneg d) as Hb.
  rewrite Z.pow_succ_r in Hn2, Hd2 by assumption.
  set (A := 2 ^ Z.log2 n) in *. set (B := 2 ^ Z.log2 d) in *.
  unfold Binary64.scaled.
  destruct (0 <=? e0) eqn:E; cbn [fst snd].
  - apply Z.leb_le in E.
    assert (HA : A = B * 2 ^ e0 * 2 ^ 52).
    { subst A B. rewrite <- !Z.pow_add_r by lia. f_equal. lia. }
    pose proof (Z.pow_pos_nonneg 2 e0 ltac:(lia) E) as HP.
    set (P := 2 ^ e0) in *.
    change (2 ^ 51) with 2251799813685248.
    change (2 ^ 53) with 9007199254740992.
    change (2 ^ 52) with 4503599627370496 in HA. nia.
  - apply Z.leb_gt in E.
    assert (HA : A * 2 ^ (- e0) = B * 2 ^ 52).
    { subst A B. rewrite <- !Z.pow_add_r by lia. f_equal. lia. }
    pose proof (Z.pow_pos_nonneg 2 (- e0) ltac:(lia) ltac:(lia)) as HP.
    set (K := 2 ^ (- e0)) in *.
    change (2 ^ 51) with 2251799813685248.
    change (2 ^ 53) with 9007199254740992.
    change (2 ^ 52) with 4503599627370496 in HA. nia.
Qed.

Lemma nearest_spec (n d : Z) :
  0 < n -> 0 < d ->
  let m := fst (Binary64.nearest n d) in
  let e := snd (Binary64.nearest n d) in
  let num := fst (Binary64.scaled n d e) in
  let den := snd (Binary64.scaled n d e) in
  0 < den
  /\ den * 2 ^ 52 <= num < den * 2 ^ 53
  /\ 2 * Z.abs (m * den - num) <= den
  /\ (forall j, Z.abs (m * den - num) <= Z.abs (j * den - num))
  /\ (2 * Z.abs (m * den - num) = den -> Z.even m = true).
Proof.
  intros Hn Hd m e num den.
  assert (Hden : 0 < den) by now apply scaled_den_pos.
  split; [exact Hden|].
  assert (Hnorm : den * 2 ^ 52 <= num < den * 2 ^ 53).
  { subst num den e. unfold Binary64.nearest. cbn [snd].
    pose proof (scaled_log2 n d Hn Hd) as Hlog. cbv zeta in Hlog.
    set (e0 := Z.log2 n - Z.log2 d - 52) in *.
    pose proof (scaled_den_pos n d e0 Hd) as Hden0.
    destruct (fst (Binary64.scaled n d e0)
              <? snd (Binary64.scaled n d e0) * 2 ^ 52) eqn:E.
    - apply Z.ltb_lt in E.
      pose proof (scaled_down n d e0) as Hdown.
      pose proof (scaled_den_pos n d (e0 - 1) Hd) as Hden1.
      change (2 ^ 51) with 2251799813685248 in *.
      change (2 ^ 53) with 9007199254740992 in *.
      change (2 ^ 52) with 4503599627370496 in *. nia.
    - apply Z.ltb_ge in E. lia. }
  split; [exact Hnorm|].
  assert (Hm : m = let q := num / den in
                   let r := num mod den in
                   if 2 * r <? den then q
                   else if den <? 2 * r then q + 1
                   else if Z.even q then q else q + 1) by reflexivity.
  clearbody m. cbv zeta in Hm.
  pose proof (Z.div_mod num den ltac:(lia)) as Hdiv.
  pose proof (Z.mod_pos_bound num den Hden) as Hmod.
  set (q := num / den) in *. set (r := num mod den) in *.
  assert (Hcases : (m = q /\ 2 * r <= den /\ (2 * r = den -> Z.even q = true))
                   \/ (m = q + 1 /\ den <= 2 * r
                       /\ (2 * r = den -> Z.even q = false))).
  { destruct (2 * r <? den) eqn:E1.
    - apply Z.ltb_lt in E1. left. repeat split; try lia.
    - apply Z.ltb_ge in E1. destruct (den <? 2 * r) eqn:E2.
      + apply Z.ltb_lt in E2. right. repeat split; try lia.
      + apply Z.ltb_ge in E2. destruct (Z.even q) eqn:E3.
        * left. repeat split; try lia; auto.
        * right. repeat split; try lia; auto. }
  clear Hm.
  destruct Hcases as [(-> & Hr & Heven)|(-> & Hr & Heven)].
  - replace (q * den - num) with (- r) by lia.
    rewrite Z.abs_opp, (Z.abs_eq r) by lia.
    split; [lia|]. split; [|intros H; apply Heven; lia].
    intros j. destruct (Z_le_gt_dec j q); lia || nia.
  - replace ((q + 1) * den - num) with (den - r) by lia.
    rewrite (Z.abs_eq (den - r)) by lia.
    split; [lia|]. split.
    + intros j. destruct (Z_le_gt_dec j q); nia.
    + intros H. rewrite Z.even_add, Heven by lia. reflexivity.
Qed.

End Nearest.


Section Rounding.
Local Open Scope Q_scope.

Lemma inject_Z_nonzero (z : Z) : (0 < z)%Z -> ~ inject_Z z == 0.
Proof.
  intros Hz H. unfold Qeq in H. cbn in H. lia.
Qed.

Lemma inject_Z_pos (z : Z) : (0 < z)%Z -> 0 < inject_Z z.
Proof. intros Hz. change 0 with (inject_Z 0). now rewrite <- Zlt_Qlt. Qed.

Lemma pow2_pos (e : Z) : 0 < Binary64.pow2 e.
Proof.
  unfold Binary64.pow2. destruct (0 <=? e)%Z eqn:E; [|reflexivity].
  apply Z.leb_le in E. apply inject_Z_pos. now apply Z.pow_pos_nonneg.
Qed.

Lemma pow2_opp (e : Z) : Binary64.pow2 e * Binary64.pow2 (- e) == 1.
Proof.
  assert (Hinv : forall k, (0 < k)%Z ->
                   inject_Z (2 ^ k) * (1 # Z.to_pos (2 ^ k)) == 1).
  { intros k Hk. pose proof (Z.pow_pos_nonneg 2 k ltac:(lia) ltac:(lia)) as HK.
    destruct (2 ^ k)%Z as [|p|p]; try lia.
    unfold Qeq. cbn. lia. }
  unfold Binary64.pow2.
  destruct (0 <=? e)%Z eqn:E; destruct (0 <=? - e)%Z eqn:E'.
  - apply Z.leb_le in E, E'. assert (e = 0%Z) as -> by lia. reflexivity.
  - apply Z.leb_gt in E'. rewrite Z.opp_involutive. apply Hinv. lia.
  - apply Z.leb_gt in E. rewrite Qmult_comm. apply Hinv. lia.
  - apply Z.leb_gt in E, E'. lia.
Qed.

Lemma scaled_value (n d e : Z) :
  (0 < d)%Z ->
  inject_Z n / inject_Z d
  == inject_Z (fst (Binary64.scaled n d e))
     / inject_Z (snd (Binary64.scaled n d e)) * Binary64.pow2 e.
Proof.
  intros Hd. pose proof (inject_Z_nonzero d Hd) as Hd'.
  pose proof (pow2_opp e) as Hopp.
  unfold Binary64.scaled, Binary64.pow2 in *.
  destruct (0 <=? e)%Z eqn:E; cbn [fst snd].
  - apply Z.leb_le in E.
    pose proof (inject_Z_nonzero (2 ^ e)
                  (Z.pow_pos_nonneg 2 e ltac:(lia) E)) as HP.
    rewrite inject_Z_mult. field. now split.
  - apply Z.leb_gt in E.
    destruct (0 <=? - e)%Z eqn:E'; [|apply Z.leb_gt in E'; lia].
    rewrite inject_Z_mult.
    set (u := 1 # Z.to_pos (2 ^ (- e))) in *.
    set (U := inject_Z (2 ^ (- e))) in *.
    transitivity (inject_Z n / inject_Z d * (u * U)).
    + rewrite Hopp. field. exact Hd'.
    + field. exact Hd'.
Qed.

(** What round returns on a positive number: a significand and an
    exponent, with the number scaled to that exponent as a fraction. *)
Lemma round_positive (x : Q) :
  0 < x ->
  exists m e num den : Z,
    Binary64.round x = inject_Z m * Binary64.pow2 e
    /\ x == inject_Z num / inject_Z den * Binary64.pow2 e
    /\ (0 < den)%Z
    /\ (den * 2 ^ 52 <= num < den * 2 ^ 53)%Z
    /\ (2 * Z.abs (m * den - num) <= den)%Z.
Proof.
  intros Hx. pose proof (Qred_correct x) as Hred.
  unfold Binary64.round.
  destruct (Qred x) as [n d] eqn:Hq. cbn [Qnum Qden].
  assert (Hn : (0 < n)%Z).
  { rewrite <- Hred in Hx. unfold Qlt in Hx. cbn in Hx. lia. }
  destruct n as [|n|n]; try lia.
  pose proof (nearest_spec (Zpos n) (Zpos d) Hn ltac:(lia)) as Hspec.
  cbv zeta in Hspec.
  destruct (Binary64.nearest (Z.pos n) (Z.pos d)) as [m e].
  cbn [fst snd] in Hspec.
  destruct Hspec as (Hden & Hnorm & Hhalf & _).
  exists m, e, (fst (Binary64.scaled (Z.pos n) (Z.pos d) e)),
    (snd (Binary64.scaled (Z.pos n) (Z.pos d) e)).
  split; [reflexivity|]. split; [|auto].
  rewrite <- scaled_value by lia.
  rewrite <- Hred. apply Qmake_Qdiv.
Qed.

Lemma round_compat (x y : Q) : x == y -> Binary64.round x = Binary64.round y.
Proof.
  intros H. unfold Binary64.round. now rewrite (Qred_complete x y H).
Qed.

Lemma round_zero (x : Q) : x == 0 -> Binary64.round x = 0.
Proof. intros H. now rewrite (round_compat x 0 H). Qed.

Lemma half_Z (a b : Z) : (2 * a <= b)%Z -> inject_Z a <= (1 # 2) * inject_Z b.
Proof.
  intros H. unfold Qle, Qmult, inject_Z. cbn [Qnum Qden].
  change (Z.pos (2 * 1)) with 2%Z. lia.
Qed.

Lemma fraction_bounds (m num den : Z) :
  (0 < den)%Z ->
  (den * 2 ^ 52 <= num < den * 2 ^ 53)%Z ->
  (2 * Z.abs (m * den - num) <= den)%Z ->
  let t := inject_Z num / inject_Z den in
  inject_Z (2 ^ 52) <= t /\ t < inject_Z (2 ^ 53)
  /\ inject_Z m - t <= 1 # 2 /\ t - inject_Z m <= 1 # 2.
Proof.
  intros Hden Hnorm Hhalf t. subst t.
  pose proof (inject_Z_pos den Hden) as Hden'.
  split; [|split; [|split]].
  - apply Qle_shift_div_l; [exact Hden'|].
    rewrite <- inject_Z_mult, <- Zle_Qle. lia.
  - apply Qlt_shift_div_r; [exact Hden'|].
    rewrite <- inject_Z_mult, <- Zlt_Qlt. lia.
  - assert (H : inject_Z m - (1 # 2) <= inject_Z num / inject_Z den).
    { apply Qle_shift_div_l; [exact Hden'|].
      pose proof (half_Z (m * den - num) den ltac:(lia)) as H.
      unfold Z.sub in H.
      rewrite inject_Z_plus, inject_Z_opp, ?inject_Z_mult in H. lra. }
    lra.
  - assert (H : inject_Z num / inject_Z den <= inject_Z m + (1 # 2)).
    { apply Qle_shift_div_r; [exact Hden'|].
      pose proof (half_Z (num - m * den) den ltac:(lia)) as H.
      unfold Z.sub in H.
      rewrite inject_Z_plus, inject_Z_opp, ?inject_Z_mult in H. lra. }
    lra.
Qed.

(** round returns a positive number on a positive number. *)
Lemma round_pos (x : Q) : 0 < x -> 0 < Binary64.round x.
Proof.
  intros Hx.
  destruct (round_positive x Hx) as (m & e & num & den & -> & _ & Hden
                                     & Hnorm & Hhalf).
  apply Qmult_lt_0_compat; [|apply pow2_pos].
  apply inject_Z_pos. nia.
Qed.

(** The relative error of round is at most 2^-53. *)
Lemma round_error (x : Q) :
  0 < x ->
  Binary64.round x - x <= x * (1 # 2 ^ 53)
  /\ x - Binary64.round x <= x * (1 # 2 ^ 53).
Proof.
  intros Hx.
  destruct (round_positive x Hx) as (m & e & num & den & -> & Hval & Hden
                                     & Hnorm & Hhalf).
  destruct (fraction_bounds m num den Hden Hnorm Hhalf)
    as (Hlow & _ & Hup & Hdown).
  cbv zeta in *. set (t := inject_Z num / inject_Z den) in *.
  pose proof (pow2_pos e) as Hu. set (u := Binary64.pow2 e) in *.
  change (inject_Z (2 ^ 52)) with (4503599627370496 # 1) in Hlow.
  change (1 # 2 ^ 53) with (1 # 9007199254740992).
  rewrite Hval. split.
  - assert (H : (inject_Z m - t) * u <= t * (1 # 9007199254740992) * u).
    { apply Qmult_le_compat_r; [lra|lra]. }
    lra.
  - assert (H : (t - inject_Z m) * u <= t * (1 # 9007199254740992) * u).
    { apply Qmult_le_compat_r; [lra|lra]. }
    lra.
Qed.

(** round does not cross an integer: below 2^53 the integers are
    binary64 numbers. *)
Lemma round_le_integer (x : Q) (j : Z) :
  0 < x -> x <= inject_Z j -> x < inject_Z (2 ^ 53) ->
  Binary64.round x <= inject_Z j.
Proof.
  intros Hx Hj Hbig.
  destruct (round_positive x Hx) as (m & e & num & den & -> & Hval & Hden
                                     & Hnorm & Hhalf).
  destruct (fraction_bounds m num den Hden Hnorm Hhalf)
    as (Hlow & _ & _ & _).
  cbv zeta in *.
  pose proof (pow2_pos e) as Hu. pose proof (pow2_opp e) as Hopp.
  assert (He : (e <= 0)%Z).
  { destruct (Z_le_gt_dec e 0) as [|He]; [assumption|exfalso].
    assert (Htwo : 2 <= Binary64.pow2 e).
    { unfold Binary64.pow2.
      destruct (0 <=? e)%Z eqn:E; [|apply Z.leb_gt in E; lia].
      change 2 with (inject_Z 2). rewrite <- Zle_Qle.
      change 2%Z with (2 ^ 1)%Z at 1. apply Z.pow_le_mono_r; lia. }
    assert (H : inject_Z (2 ^ 52) * 2
                <= inject_Z num / inject_Z den * Binary64.pow2 e).
    { apply Qmult_le_compat_nonneg; split; try lra.
      change (inject_Z (2 ^ 52)) with (4503599627370496 # 1). lra. }
    rewrite <- Hval in H.
    change (inject_Z (2 ^ 52)) with (4503599627370496 # 1) in H.
    change (inject_Z (2 ^ 53)) with (9007199254740992 # 1) in Hbig. lra. }
  assert (HU : Binary64.pow2 (- e) = inject_Z (2 ^ (- e))).
  { unfold Binary64.pow2.
    destruct (0 <=? - e)%Z eqn:E; [reflexivity|apply Z.leb_gt in E; lia]. }
  rewrite HU in Hopp.
  pose proof (Z.pow_pos_nonneg 2 (- e) ltac:(lia) ltac:(lia)) as HUpos.
  set (U := (2 ^ (- e))%Z) in *. set (u := Binary64.pow2 e) in *.
  pose proof (inject_Z_pos U HUpos) as HU'.
  pose proof (inject_Z_pos den Hden) as Hden'.
  (* num <= j * U * den *)
  assert (Hnum : (num <= j * U * den)%Z).
  { rewrite Zle_Qle, !inject_Z_mult.
    assert (H : inject_Z num / inject_Z den <= inject_Z j * inject_Z U).
    { rewrite Hval in Hj.
      assert (H : inject_Z num / inject_Z den * u * inject_Z U
                  <= inject_Z j * inject_Z U).
      { apply Qmult_le_compat_r; lra. }
      assert (H' : inject_Z num / inject_Z den * u * inject_Z U
                   == inject_Z num / inject_Z den).
      { rewrite <- Qmult_assoc, Hopp. ring. }
      now rewrite H' in H. }
    assert (H2 : inject_Z num / inject_Z den * inject_Z den
                 <= inject_Z j * inject_Z U * inject_Z den).
    { apply Qmult_le_compat_r; lra. }
    assert (H3 : inject_Z num / inject_Z den * inject_Z den
                 == inject_Z num).
    { field. now apply inject_Z_nonzero. }
    now rewrite H3 in H2. }
  assert (Hm : (m <= j * U)%Z) by nia.
  rewrite Zle_Qle, inject_Z_mult in Hm.
  assert (H : inject_Z m * u <= inject_Z j * inject_Z U * u).
  { apply Qmult_le_compat_r; lra. }
  assert (H' : inject_Z j * inject_Z U * u == inject_Z j).
  { rewrite <- Qmult_assoc, (Qmult_comm (inject_Z U)), Hopp. ring. }
  now rewrite H' in H.
Qed.

End Rounding.


Section PassRate.
Local Open Scope Q_scope.

Let rate (p n : nat) : Q :=
  Binary64.mul
    (Binary64.div (inject_Z (Z.of_nat p)) (inject_Z (Z.of_nat n))) 100.

Lemma quotient_bounds (p n : nat) :
  (0 < p <= n)%nat ->
  0 < inject_Z (Z.of_nat p) / inject_Z (Z.of_nat n)
  /\ inject_Z (Z.of_nat p) / inject_Z (Z.of_nat n) <= 1.
Proof.
  intros Hp.
  pose proof (inject_Z_pos (Z.of_nat n) ltac:(lia)) as Hn.
  pose proof (inject_Z_pos (Z.of_nat p) ltac:(lia)) as Hp'.
  split.
  - apply Qlt_shift_div_l; [exact Hn|]. lra.
  - apply Qle_shift_div_r; [exact Hn|].
    rewrite Qmult_1_l, <- Zle_Qle. lia.
Qed.

Lemma pass_rate_none (n : nat) : rate 0 n = 0.
Proof.
  unfold rate, Binary64.mul, Binary64.div.
  rewrite (round_zero (inject_Z (Z.of_nat 0) / inject_Z (Z.of_nat n))).
  - now apply round_zero.
  - unfold Qdiv. cbn [Z.of_nat]. change (inject_Z 0) with 0. ring.
Qed.

Lemma pass_rate_bounds (p n : nat) :
  (0 < p <= n)%nat -> 0 < rate p n /\ rate p n <= 100.
Proof.
  intros Hp. destruct (quotient_bounds p n Hp) as [Hpos Hone].
  unfold rate, Binary64.mul, Binary64.div.
  set (x := inject_Z (Z.of_nat p) / inject_Z (Z.of_nat n)) in *.
  pose proof (round_pos x Hpos) as Ha.
  pose proof (round_le_integer x 1 Hpos Hone) as Ha'.
  change (inject_Z 1) with 1 in Ha'.
  change (inject_Z (2 ^ 53)) with (9007199254740992 # 1) in Ha'.
  specialize (Ha' ltac:(lra)).
  set (a := Binary64.round x) in *.
  split.
  - apply round_pos. lra.
  - change 100 with (inject_Z 100) at 2.
    apply round_le_integer.
    + lra.
    + change (inject_Z 100) with 100. lra.
    + change (inject_Z (2 ^ 53)) with (9007199254740992 # 1). lra.
Qed.

Lemma pass_rate_accuracy (p n : nat) :
  (0 < p <= n)%nat ->
  let exact := inject_Z (Z.of_nat p) / inject_Z (Z.of_nat n) * 100 in
  exact * (1 - (1 # 2 ^ 52)) <= rate p n
  /\ rate p n <= exact * (1 + (1 # 2 ^ 51)).
Proof.
  intros Hp exact. subst exact.
  destruct (quotient_bounds p n Hp) as [Hpos Hone].
  unfold rate, Binary64.mul, Binary64.div.
  set (x := inject_Z (Z.of_nat p) / inject_Z (Z.of_nat n)) in *.
  pose proof (round_pos x Hpos) as Ha.
  destruct (round_error x Hpos) as [Hup Hdown].
  set (a := Binary64.round x) in *.
  destruct (round_error (a * 100) ltac:(lra)) as [Hup' Hdown'].
  set (b := Binary64.round (a * 100)) in *.
  change (1 # 2 ^ 53) with (1 # 9007199254740992) in *.
  change (1 # 2 ^ 52) with (1 # 4503599627370496).
  change (1 # 2 ^ 51) with (1 # 2251799813685248).
  split; lra.
Qed.

Lemma pass_rate_all (n : nat) : (0 < n)%nat -> rate n n == 100.
Proof.
  intros Hn. unfold rate, Binary64.mul, Binary64.div.
  assert (Hx : inject_Z (Z.of_nat n) / inject_Z (Z.of_nat n) == 1).
  { field. apply inject_Z_nonzero. lia. }
  rewrite (round_compat _ 1 Hx).
  assert (Hy : Binary64.round 1 * 100 == 100) by reflexivity.
  rewrite (round_compat _ 100 Hy). reflexivity.
Qed.

Lemma pass_rate_below (p n : nat) :
  (p < n)%nat -> (Z.of_nat n <= 2 ^ 32)%Z -> rate p n < 100.
Proof.
  intros Hp Hn. destruct p as [|p].
  - rewrite pass_rate_none. reflexivity.
  - destruct (quotient_bounds (S p) n ltac:(lia)) as [Hpos _].
    assert (Hx : inject_Z (Z.of_nat (S p)) / inject_Z (Z.of_nat n)
                 <= 1 - (1 # 2 ^ 32)).
    { apply Qle_shift_div_r; [apply inject_Z_pos; lia|].
      assert (H : (Z.of_nat (S p) * 2 ^ 32
                   <= (2 ^ 32 - 1) * Z.of_nat n)%Z) by lia.
      rewrite Zle_Qle, !inject_Z_mult in H.
      change (inject_Z (2 ^ 32 - 1)) with (4294967295 # 1) in H.
      change (inject_Z (2 ^ 32)) with (4294967296 # 1) in H.
      change (1 # 2 ^ 32) with (1 # 4294967296). lra. }
    unfold rate, Binary64.mul, Binary64.div.
    set (x := inject_Z (Z.of_nat (S p)) / inject_Z (Z.of_nat n)) in *.
    pose proof (round_pos x Hpos) as Ha.
    destruct (round_error x Hpos) as [Hup _].
    set (a := Binary64.round x) in *.
    destruct (round_error (a * 100) ltac:(lra)) as [Hup' _].
    set (b := Binary64.round (a * 100)) in *.
    change (1 # 2 ^ 53) with (1 # 9007199254740992) in *.
    change (1 # 2 ^ 32) with (1 # 4294967296) in *.
    lra.
Qed.

Lemma pass_rate_within (p n : nat) :
  (p <= n)%nat -> (0 < n)%nat ->
  let exact := inject_Z (Z.of_nat p) / inject_Z (Z.of_nat n) * 100 in
  0 <= rate p n /\ rate p n <= 100
  /\ exact * (1 - (1 # 2 ^ 52)) <= rate p n
  /\ rate p n <= exact * (1 + (1 # 2 ^ 51)).
Proof.
  intros Hp Hn exact. destruct p as [|p].
  - rewrite pass_rate_none.
    assert (Hexact : exact == 0).
    { subst exact. unfold Qdiv. cbn [Z.of_nat].
      change (inject_Z 0) with 0. ring. }
    rewrite Hexact. repeat split; try lra; discriminate.
  - destruct (pass_rate_bounds (S p) n ltac:(lia)) as [Hpos Hmax].
    destruct (pass_rate_accuracy (S p) n ltac:(lia)) as [Hlow Hup].
    repeat split; try assumption. lra.
Qed.

End PassRate.

(** The rounding agrees with the Standard Library's IEEE 754 division
    and multiplication on every pass rate of up to 64 results, and on
    some of long sequences. *)
Example percent_agrees_with_IEEE :
  forallb
    (fun t =>
       forallb
         (fun p =>
            Qeq_bool
              (Binary64.mul (Binary64.div (inject_Z p) (inject_Z t)) 100)
              (Binary64.percent_IEEE p t))
         (map Z.of_nat (seq 0 (S (Z.to_nat t)))))
    (map Z.of_nat (seq 1 64))
  = true
  /\ forallb
       (fun t =>
          forallb
            (fun p =>
               Qeq_bool
                 (Binary64.mul (Binary64.div (inject_Z p) (inject_Z t)) 100)
                 (Binary64.percent_IEEE p t))
            [1; 2; 3; t / 3; t / 2; t - 1; t]%Z)
       [100; 1000; 65537; 99999; 1000000007; 2147483647; 4294967295]%Z
     = true.
Proof. split; vm_compute; reflexivity. Qed.

(** 29 of 100 is not 29: the quotient 0.29 is rounded, and so is its
    product with 100. *)
Example percent_29_of_100 :
  (Binary64.mul (Binary64.div (inject_Z 29) (inject_Z 100)) 100
   == 8162774324609023 # 2 ^ 48)%Q
  /\ ~ (Binary64.mul (Binary64.div (inject_Z 29) (inject_Z 100)) 100
        == 29)%Q.
Proof. split; [reflexivity|]. intros H. vm_compute in H. discriminate H. Qed.

Lemma failed_refs_membership (R : list TestResult) (ft : FailedTest.t) :
  In ft (failedTests (JestTestRunner.analyzeResults R))
  <-> exists r, In r R /\ passed r = false
                /\ ft = {| FailedTest.testId := testId r;
                           FailedTest.error := error r |}.
Proof.
  unfold JestTestRunner.analyzeResults. cbn [failedTests].
  rewrite in_map_iff. split.
  - intros (r & Hft & Hin). apply filter_In in Hin as [Hin Hflag].
    exists r. repeat split; auto.
    now apply negb_true_iff in Hflag.
  - intros (r & Hin & Hflag & ->). exists r. split; [reflexivity|].
    apply filter_In. split; [assumption|]. now rewrite Hflag.
Qed.

(** C6. For every sequence of results, analyzeResults (the same function
    in both runners, with no effect) returns: total = the length of the
    sequence; passed + failed = total, passed counting the entries whose
    flag is set; passRate = (passed / total) * 100 as JavaScript computes
    it when the sequence is not empty (the quotient of the two counts
    rounded to the nearest binary64 number, times 100, rounded again: the
    exact percentage up to a relative error of 2^-51) and 0 when it is
    empty, hence within 0..100; totalDuration = the sum of the durations;
    failedTests = the failed entries, in order, each with its identifier
    and its error, and nothing else. *)
Theorem analyzeResults_aggregates (R : list TestResult) :
  let a := JestTestRunner.analyzeResults R in
  let s := summary a in
  Summary.total s = List.length R
  /\ (Summary.passed s + Summary.failed s)%nat = Summary.total s
  /\ Summary.passed s = List.length (filter (fun r => passed r) R)
  /\ match Summary.total s with
     | O => Summary.passRate s = 0%Q
     | S _ =>
         let exact :=
           (inject_Z (Z.of_nat (Summary.passed s))
            / inject_Z (Z.of_nat (Summary.total s)) * 100)%Q in
         Summary.passRate s
         = Binary64.mul
             (Binary64.div (inject_Z (Z.of_nat (Summary.passed s)))
                           (inject_Z (Z.of_nat (Summary.total s))))
             100
         /\ (exact * (1 - (1 # 2 ^ 52)) <= Summary.passRate s)%Q
         /\ (Summary.passRate s <= exact * (1 + (1 # 2 ^ 51)))%Q
     end
  /\ (0 <= Summary.passRate s)%Q /\ (Summary.passRate s <= 100)%Q
  /\ Summary.totalDuration s = sum_durations R
  /\ failedTests a
     = map (fun r => {| FailedTest.testId := testId r;
                        FailedTest.error := error r |})
           (filter (fun r => negb (passed r)) R)
  /\ List.length (failedTests a) = Summary.failed s
  /\ (forall ft, In ft (failedTests a)
                 <-> exists r, In r R /\ passed r = false
                               /\ ft = {| FailedTest.testId := testId r;
                                          FailedTest.error := error r |})
  /\ PlaywrightTestRunner.analyzeResults R = a.
Proof.
  intros a s.
  assert (Hle : (List.length (filter (fun r => passed r) R)
                 <= List.length R)%nat) by apply filter_length_le.
  assert (Hrate : match List.length R with
                  | O => Summary.passRate s = 0%Q
                  | S _ =>
                      let exact :=
                        (inject_Z (Z.of_nat (Summary.passed s))
                         / inject_Z (Z.of_nat (List.length R)) * 100)%Q in
                      Summary.passRate s
                      = Binary64.mul
                          (Binary64.div
                             (inject_Z (Z.of_nat (Summary.passed s)))
                             (inject_Z (Z.of_nat (List.length R))))
                          100
                      /\ (exact * (1 - (1 # 2 ^ 52)) <= Summary.passRate s)%Q
                      /\ (Summary.passRate s
                          <= exact * (1 + (1 # 2 ^ 51)))%Q
                  end
                  /\ (0 <= Summary.passRate s)%Q
                  /\ (Summary.passRate s <= 100)%Q).
  { subst s a. unfold JestTestRunner.analyzeResults.
    cbn [summary Summary.passRate Summary.passed].
    pose proof (pass_rate_within
                  (List.length (filter (fun r => passed r) R))
                  (List.length R) Hle) as Hwithin.
    destruct (List.length R) as [|n].
    - repeat split; discriminate.
    - destruct (Hwithin ltac:(lia)) as (H0 & H100 & Hlow & Hup).
      cbv zeta. repeat split; assumption. }
  split; [reflexivity|].
  split; [apply filter_partition_length|].
  split; [reflexivity|].
  split; [exact (proj1 Hrate)|].
  split; [apply Hrate|]. split; [apply Hrate|].
  split.
  { subst s a. unfold JestTestRunner.analyzeResults.
    cbn [summary Summary.totalDuration].
    rewrite reduce_durations. lia. }
  split; [reflexivity|].
  split.
  { subst s a. unfold JestTestRunner.analyzeResults.
    cbn [summary failedTests Summary.failed]. apply length_map. }
  split; [intros ft; apply failed_refs_membership|].
  reflexivity.
Qed.

(** ** Strings *)

Lemma append_empty_r (s : string) : s ++ "" = s.
Proof. induction s as [|c s IH]; simpl; [reflexivity | now rewrite IH]. Qed.

Lemma append_assoc (a b c : string) : (a ++ b) ++ c = a ++ (b ++ c).
Proof. induction a as [|x a IH]; simpl; [reflexivity | now rewrite IH]. Qed.

Lemma append_eq_empty (a b : string) : a ++ b = "" -> a = "" /\ b = "".
Proof. destruct a; simpl; [auto | discriminate]. Qed.

Lemma truthy_iff (s : string) : JS.truthy s = true <-> s <> "".
Proof. destruct s; simpl; split; congruence. Qed.

Lemma or_undefined_some (s : string) :
  s <> "" -> JS.or_undefined s = Some s.
Proof.
  intros H. unfold JS.or_undefined. now destruct s.
Qed.

(** join gives the empty string on no element and on one empty element
    only (the separator being non-empty). *)
Lemma join_eq_empty (sep : string) (xs : list string) :
  sep <> "" -> JS.join sep xs = "" -> xs = [] \/ xs = [""].
Proof.
  intros Hsep. destruct xs as [|x [|y rest]]; simpl; intros H.
  - now left.
  - right. now subst.
  - apply append_eq_empty in H as [_ H].
    apply append_eq_empty in H as [H _]. contradiction.
Qed.

Lemma join_nonempty (sep : string) (xs : list string) :
  xs <> [] -> Forall (fun x => x <> "") xs -> JS.join sep xs <> "".
Proof.
  intros Hne Hall Hjoin. destruct xs as [|x [|y rest]]; simpl in Hjoin.
  - contradiction.
  - inversion Hall; subst. contradiction.
  - apply append_eq_empty in Hjoin as [Hx _].
    inversion Hall; subst. contradiction.
Qed.

Lemma LF_nonempty : JS.LF <> "".
Proof. discriminate. Qed.

(** ** Flat-suite normalization *)

Lemma parseJestResults_flat_map (doc : Jest.Results) :
  JestTestRunner.parseJestResults doc
  = flat_map (fun suite => map JestTestRunner.assertion_result
                               (Jest.assertionResults suite))
             (Jest.testResults doc).
Proof.
  unfold JestTestRunner.parseJestResults.
  rewrite (fold_left_append
             (fun suite => map JestTestRunner.assertion_result
                               (Jest.assertionResults suite))).
  - reflexivity.
  - intros acc suite. apply fold_left_push.
Qed.

Lemma flat_map_map_inner {A B C : Type} (g : A -> list B) (f : B -> C)
    (xs : list A) :
  flat_map (fun x => map f (g x)) xs = map f (flat_map g xs).
Proof.
  induction xs as [|x xs IH]; simpl; [reflexivity|].
  now rewrite IH, map_app.
Qed.

Lemma parseJestResults_assertions (doc : Jest.Results) :
  JestTestRunner.parseJestResults doc
  = map JestTestRunner.assertion_result (Order.jest_assertions doc).
Proof.
  rewrite parseJestResults_flat_map. apply flat_map_map_inner.
Qed.

Lemma jest_error_cases (a : Jest.AssertionResult) :
  error (JestTestRunner.assertion_result a)
  = match Jest.failureMessages a with
    | None => None
    | Some messages =>
        if String.eqb (JS.join JS.LF messages) "" then None
        else Some (JS.join JS.LF messages)
    end.
Proof.
  unfold JestTestRunner.assertion_result. cbn [error].
  destruct (Jest.failureMessages a) as [messages|]; [|reflexivity].
  unfold JS.or_undefined. now destruct (JS.join JS.LF messages).
Qed.

Lemma jest_error_as_claimed (a : Jest.AssertionResult) :
  Jest.failureMessages a <> Some [""] ->
  error (JestTestRunner.assertion_result a) = Claimed.jest_error a.
Proof.
  intros Hblank. unfold JestTestRunner.assertion_result, Claimed.jest_error.
  cbn [error]. destruct (Jest.failureMessages a) as [[|m ms]|];
    try reflexivity.
  apply or_undefined_some. intros Hjoin.
  apply join_eq_empty in Hjoin as [Hnil | Hone];
    [discriminate | congruence | apply LF_nonempty].
Qed.

(** C7, the claim as stated fails: a failed assertion whose only failure
    message is the empty string gets no error at all, where the claim
    gives it the joined messages (the empty text). *)
Lemma blank_failure_message_dropped :
  JestTestRunner.parseJestResults Sample.blank_message_document
  <> map Claimed.jest_result
         (Order.jest_assertions Sample.blank_message_document).
Proof.
  vm_compute. intros H. inversion H.
Qed.

(** C7, amended. parseJestResults maps each assertion record of each suite
    record to exactly one TestResult: identifier = the full name, or the
    title when the full name is missing or empty; passed = (status equals
    passed); error = the failure messages joined by line feeds, and absent
    when that text is empty (no messages, or a single empty one); duration
    = the reported duration, or 0 when absent. It agrees with the claimed
    mapping on every assertion whose messages are not the single empty
    string. The document of one suite with a passed assertion (10 ms) and
    an assertion failed with boom (5 ms) yields two results that aggregate
    to total 2, passed 1, failed 1, pass rate 50, total duration 15. *)
Theorem parseJestResults_maps_assertions :
  (forall doc,
      JestTestRunner.parseJestResults doc
      = map JestTestRunner.assertion_result (Order.jest_assertions doc))
  /\ (forall doc,
         List.length (JestTestRunner.parseJestResults doc)
         = List.length (Order.jest_assertions doc))
  /\ (forall a,
         let r := JestTestRunner.assertion_result a in
         testId r = match Jest.fullName a with
                    | Some name =>
                        if String.eqb name "" then Jest.title a else name
                    | None => Jest.title a
                    end
         /\ passed r = String.eqb (Jest.status a) "passed"
         /\ error r = match Jest.failureMessages a with
                      | None => None
                      | Some messages =>
                          if String.eqb (JS.join JS.LF messages) "" then None
                          else Some (JS.join JS.LF messages)
                      end
         /\ (Jest.failureMessages a <> Some [""] ->
             r = Claimed.jest_result a)
         /\ duration r = match Jest.duration a with
                         | Some d => d
                         | None => 0%Z
                         end)
  /\ (let R := JestTestRunner.parseJestResults Sample.jest_document in
      let s := summary (JestTestRunner.analyzeResults R) in
      R = [ {| testId := "math adds"; passed := true; error := None;
               duration := 10%Z |};
            {| testId := "math divides"; passed := false;
               error := Some "boom"; duration := 5%Z |} ]
      /\ Summary.total s = 2%nat /\ Summary.passed s = 1%nat
      /\ Summary.failed s = 1%nat /\ (Summary.passRate s == 50)%Q
      /\ Summary.totalDuration s = 15%Z).
Proof.
  split; [exact parseJestResults_assertions|].
  split.
  { intros doc. now rewrite parseJestResults_assertions, length_map. }
  split.
  { intros a r. subst r.
    split.
    { unfold JestTestRunner.assertion_result. cbn [testId].
      unfold JS.or_else. destruct (Jest.fullName a) as [[|c name]|];
        reflexivity. }
    split; [reflexivity|].
    split; [apply jest_error_cases|].
    split; [|reflexivity].
    intros Hblank.
    pose proof (jest_error_as_claimed a Hblank) as Herr.
    unfold JestTestRunner.assertion_result, Claimed.jest_result in *.
    cbn [error] in Herr. rewrite Herr. reflexivity. }
  vm_compute. repeat split; reflexivity.
Qed.

(** ** Nested-suite normalization *)


Lemma push_specs_leaves (title : string) (specs : list Playwright.Spec)
    (acc : list TestResult) :
  PlaywrightTestRunner.push_specs title specs acc
  = (acc ++ map Order.leaf_result
                (flat_map (Order.spec_leaves title) specs))%list.
Proof.
  unfold PlaywrightTestRunner.push_specs.
  rewrite (fold_left_append
             (fun sp => map Order.leaf_result (Order.spec_leaves title sp))).
  - now rewrite flat_map_map_inner.
  - intros acc' sp. rewrite fold_left_push.
    unfold Order.spec_leaves. rewrite map_map. reflexivity.
Qed.

Lemma extract_leaves (s : Playwright.Suite) :
  forall acc,
    PlaywrightTestRunner.extractPlaywrightTestResults s acc
    = (acc ++ map Order.leaf_result (Order.suite_leaves s))%list.
Proof.
  induction s as [title specs suites IH] using Suite_nested_ind.
  intros acc. cbn [PlaywrightTestRunner.extractPlaywrightTestResults
                   Order.suite_leaves].
  rewrite push_specs_leaves, map_app.
  destruct suites as [children|]; cbn [JS.arr_or_empty] in IH.
  - rewrite (fold_left_append_in
               (fun c => map Order.leaf_result (Order.suite_leaves c))).
    + now rewrite flat_map_map_inner, app_assoc.
    + exact IH.
  - cbn [map]. now rewrite app_nil_r.
Qed.

Lemma parsePlaywrightResults_leaves (doc : Playwright.Report) :
  PlaywrightTestRunner.parsePlaywrightResults doc
  = map Order.leaf_result (Order.report_leaves doc).
Proof.
  unfold PlaywrightTestRunner.parsePlaywrightResults, Order.report_leaves.
  rewrite (fold_left_append
             (fun s => map Order.leaf_result (Order.suite_leaves s))).
  - now rewrite flat_map_map_inner.
  - intros acc s. apply extract_leaves.
Qed.

Lemma nest_leaves (n : nat) (s : Playwright.Suite) :
  Order.suite_leaves (Order.nest n s) = Order.suite_leaves s.
Proof.
  induction n as [|n IH]; [reflexivity|].
  cbn [Order.nest Order.suite_leaves JS.arr_or_empty flat_map].
  now rewrite IH, app_nil_r.
Qed.

(** JSON.stringify never gives the empty string. *)
Lemma Z_to_string_nonempty (z : Z) : JS.Z_to_string z <> "".
Proof.
  unfold JS.Z_to_string.
  destruct z as [|p|p]; cbn; try discriminate.
  - pose proof (DecimalPos.Unsigned.to_uint_nonnil p) as Hnil.
    destruct (Pos.to_uint p); try discriminate. contradiction.
Qed.

Lemma stringify_nonempty (v : json) : Json.stringify v <> "".
Proof.
  destruct v as [|[|]|n|s|items|members]; cbn; try discriminate.
  apply Z_to_string_nonempty.
Qed.

Lemma error_text_nonempty (e : Playwright.ErrorObject) :
  Order.message_is_text e = true -> PlaywrightTestRunner.error_text e <> "".
Proof.
  unfold Order.message_is_text, PlaywrightTestRunner.error_text.
  destruct (Json.get "message" e) as [[|b|n|s|items|members]|];
    intros Htext; try discriminate Htext; try apply stringify_nonempty.
  cbn [Json.truthy Json.to_string].
  destruct (JS.truthy s) eqn:Hs.
  - now apply truthy_iff.
  - apply stringify_nonempty.
Qed.

Lemma pw_error_present (l : Order.Leaf) (e : Playwright.ErrorObject)
    (errs : list Playwright.ErrorObject) :
  Playwright.errors (Order.test l) = Some (e :: errs) ->
  forallb Order.message_is_text (e :: errs) = true ->
  error (Order.leaf_result l)
  = Some (JS.join JS.LF (map PlaywrightTestRunner.error_text (e :: errs))).
Proof.
  intros Herrs Htext. unfold Order.leaf_result, PlaywrightTestRunner.test_result.
  cbn [error]. rewrite Herrs. apply or_undefined_some.
  apply join_nonempty; [discriminate|].
  apply Forall_forall. intros x Hx. apply in_map_iff in Hx as (e' & <- & Hin).
  apply error_text_nonempty.
  rewrite forallb_forall in Htext. now apply Htext.
Qed.

(** The separator of the identifier is the seven bytes the source file
    holds between the two spaces. *)
Example separator_bytes :
  map nat_of_ascii (list_ascii_of_string PlaywrightTestRunner.separator)
  = [32; 195; 162; 226; 130; 172; 194; 186; 32]%nat.
Proof. reflexivity. Qed.

(** C8, the claim as stated fails: a test run whose only attached error
    has an empty array as its message gets no error at all, where the
    claim gives it the joined texts (the empty text): the array is
    truthy, so it is taken as the message, and join renders it as the
    empty text, which [|| undefined] drops. *)
Lemma empty_error_text_dropped :
  PlaywrightTestRunner.parsePlaywrightResults Sample.pw_empty_message_document
  = [ {| testId := "login" ++ " â€º " ++ "rejects a bad password";
         passed := false; error := None; duration := 7%Z |} ]
  /\ map Claimed.playwright_result
         (Order.report_leaves Sample.pw_empty_message_document)
     = [ {| testId := "login" ++ " â€º " ++ "rejects a bad password";
            passed := false; error := Some ""; duration := 7%Z |} ]
  /\ PlaywrightTestRunner.parsePlaywrightResults
       Sample.pw_empty_message_document
     <> map Claimed.playwright_result
            (Order.report_leaves Sample.pw_empty_message_document).
Proof.
  split; [reflexivity|]. split; [reflexivity|].
  vm_compute. intros H. inversion H.
Qed.

(** C8. parsePlaywrightResults walks the whole tree, however deep, and
    turns every leaf test run into exactly one TestResult: identifier =
    title of the innermost enclosing suite, the separator (a space, the
    bytes of the source between the two titles, a space), title of the
    spec; passed = (status is passed or expected); error = the attached
    errors, each as its message or else as its JSON text, joined by line
    feeds, and absent exactly when that joined text is empty: when no
    error is attached, and never when every message that is there is a
    string; duration = the reported duration or 0. On such documents the
    result is the one the claim describes. Root suite A holding suite B
    holding spec t1 with one test of status expected yields exactly one
    result, passed, identified from B and t1. *)
Theorem parsePlaywrightResults_flattens_leaves :
  (forall doc,
      PlaywrightTestRunner.parsePlaywrightResults doc
      = map Order.leaf_result (Order.report_leaves doc))
  /\ (forall doc,
         List.length (PlaywrightTestRunner.parsePlaywrightResults doc)
         = List.length (Order.report_leaves doc))
  /\ (forall n s acc,
         PlaywrightTestRunner.extractPlaywrightTestResults (Order.nest n s) acc
         = PlaywrightTestRunner.extractPlaywrightTestResults s acc)
  /\ (forall l,
         let r := Order.leaf_result l in
         testId r = Order.suite_title l ++ " â€º "
                    ++ Playwright.spec_title (Order.spec l)
         /\ passed r = (String.eqb (Playwright.status (Order.test l)) "passed"
                        || String.eqb (Playwright.status (Order.test l))
                                      "expected")
         /\ duration r = match Playwright.duration (Order.test l) with
                         | Some d => d
                         | None => 0%Z
                         end
         /\ match Playwright.errors (Order.test l) with
            | None | Some [] => error r = None
            | Some (e :: errs) =>
                error r
                = JS.or_undefined
                    (JS.join JS.LF
                       (map PlaywrightTestRunner.error_text (e :: errs)))
                /\ (error r = None
                    <-> JS.join JS.LF
                          (map PlaywrightTestRunner.error_text (e :: errs))
                        = "")
                /\ (forallb Order.message_is_text (e :: errs) = true ->
                    error r
                    = Some (JS.join JS.LF
                              (map PlaywrightTestRunner.error_text
                                   (e :: errs))))
            end
         /\ (match Playwright.errors (Order.test l) with
             | Some errs => forallb Order.message_is_text errs
             | None => true
             end = true ->
             r = Claimed.playwright_result l))
  /\ (forall e,
         match Json.get "message" e with
         | Some (JStr m) =>
             PlaywrightTestRunner.error_text e
             = if String.eqb m "" then Json.stringify (JObj e) else m
         | Some m =>
             PlaywrightTestRunner.error_text e
             = if Json.truthy m then Json.to_string m
               else Json.stringify (JObj e)
         | None =>
             PlaywrightTestRunner.error_text e = Json.stringify (JObj e)
         end)
  /\ PlaywrightTestRunner.parsePlaywrightResults Sample.pw_document
     = [ {| testId := "B" ++ " â€º " ++ "t1";
            passed := true; error := None; duration := 3%Z |} ].
Proof.
  split; [exact parsePlaywrightResults_leaves|].
  split.
  { intros doc. now rewrite parsePlaywrightResults_leaves, length_map. }
  split.
  { intros n s acc. now rewrite !extract_leaves, nest_leaves. }
  split.
  { intros l r. subst r.
    split; [reflexivity|]. split; [reflexivity|]. split; [reflexivity|].
    unfold Claimed.playwright_result, Claimed.playwright_error.
    unfold Order.leaf_result, PlaywrightTestRunner.test_result.
    cbn [error].
    destruct (Playwright.errors (Order.test l)) as [[|e errs]|] eqn:Herrs.
    - split; [reflexivity|]. intros _. reflexivity.
    - assert (Hpresent :
                forallb Order.message_is_text (e :: errs) = true ->
                JS.or_undefined
                  (JS.join JS.LF
                     (map PlaywrightTestRunner.error_text (e :: errs)))
                = Some (JS.join JS.LF
                          (map PlaywrightTestRunner.error_text (e :: errs)))).
      { intros Htext.
        pose proof (pw_error_present l e errs Herrs Htext) as Hp.
        unfold Order.leaf_result, PlaywrightTestRunner.test_result in Hp.
        cbn [error] in Hp. now rewrite Herrs in Hp. }
      split; [split; [reflexivity|split; [|exact Hpresent]]|].
      + unfold JS.or_undefined.
        destruct (JS.join JS.LF _) as [|c rest]; cbn [JS.truthy];
          split; congruence.
      + intros Htext. now rewrite (Hpresent Htext).
    - split; [reflexivity|]. intros _. reflexivity. }
  split.
  { intros e. unfold PlaywrightTestRunner.error_text.
    destruct (Json.get "message" e) as [[|b|n|m|items|members]|]; auto.
    cbn [Json.truthy Json.to_string]. now destruct m. }
  reflexivity.
Qed.

(** C10. Both normalizers keep the order of the document. The flat-suite
    results are the suites in order, each giving its assertions in order.
    The nested-suite results of a suite are appended after what was
    collected before it: first the results of its own specs (specs in
    order, the tests of a spec in order), then the results of its child
    suites, child after child in document order; the results of a document
    are those of its top-level suites in order. *)
Theorem normalizers_keep_document_order :
  (forall doc,
      JestTestRunner.parseJestResults doc
      = flat_map (fun suite => map JestTestRunner.assertion_result
                                   (Jest.assertionResults suite))
                 (Jest.testResults doc))
  /\ (forall title specs suites acc,
         PlaywrightTestRunner.extractPlaywrightTestResults
           (Playwright.mkSuite title specs suites) acc
         = (acc
            ++ flat_map
                 (fun spec =>
                    map (PlaywrightTestRunner.test_result title spec)
                        (JS.arr_or_empty (Playwright.tests spec)))
                 (JS.arr_or_empty specs)
            ++ flat_map
                 (fun child =>
                    PlaywrightTestRunner.extractPlaywrightTestResults child [])
                 (JS.arr_or_empty suites))%list)
  /\ (forall doc,
         PlaywrightTestRunner.parsePlaywrightResults doc
         = flat_map
             (fun suite =>
                PlaywrightTestRunner.extractPlaywrightTestResults suite [])
             (JS.arr_or_empty (Playwright.report_suites doc))).
Proof.
  assert (Hext : forall l,
             flat_map (fun s =>
                 PlaywrightTestRunner.extractPlaywrightTestResults s []) l
             = map Order.leaf_result (flat_map Order.suite_leaves l)).
  { intros l. rewrite <- flat_map_map_inner. apply flat_map_ext.
    intros s. now rewrite extract_leaves. }
  split; [exact parseJestResults_flat_map|].
  split.
  - intros title specs suites acc.
    rewrite extract_leaves, Hext. cbn [Order.suite_leaves].
    rewrite map_app. f_equal. f_equal.
    + rewrite <- flat_map_map_inner. apply flat_map_ext.
      intros sp. unfold Order.spec_leaves. now rewrite map_map.
    + now destruct suites.
  - intros doc. rewrite parsePlaywrightResults_leaves, Hext. reflexivity.
Qed.

(** ** Markup rendering *)

Lemma replace_all_app (c : ascii) (by_ a b : string) :
  JS.replace_all c by_ (a ++ b)
  = JS.replace_all c by_ a ++ JS.replace_all c by_ b.
Proof.
  induction a as [|x a IH]; simpl; [reflexivity|].
  destruct (Ascii.eqb x c); rewrite IH; [|reflexivity].
  now rewrite append_assoc.
Qed.

(** The five passes of escapeXml amount to one pass that rewrites each
    character on its own. *)
Lemma escapeXml_cons (c : ascii) (s : string) :
  TestReporter.escapeXml (String c s)
  = Markup.escape_char c ++ TestReporter.escapeXml s.
Proof.
  unfold TestReporter.escapeXml, Markup.escape_char.
  cbn [JS.replace_all].
  destruct (Ascii.eqb_spec c "&") as [->|Hamp].
  { now rewrite !replace_all_app. }
  cbn [JS.replace_all].
  destruct (Ascii.eqb_spec c "<") as [->|Hlt].
  { now rewrite !replace_all_app. }
  cbn [JS.replace_all].
  destruct (Ascii.eqb_spec c ">") as [->|Hgt].
  { now rewrite !replace_all_app. }
  cbn [JS.replace_all].
  destruct (Ascii.eqb_spec c JS.dq) as [->|Hdq].
  { now rewrite !replace_all_app. }
  cbn [JS.replace_all].
  destruct (Ascii.eqb_spec c "'") as [->|Hapos]; reflexivity.
Qed.

Lemma escapeXml_each (s : string) :
  TestReporter.escapeXml s = Markup.escape_each s.
Proof.
  induction s as [|c s IH]; [reflexivity|].
  now rewrite escapeXml_cons, IH.
Qed.

Lemma escape_each_safe (s : string) :
  Markup.safe_text (Markup.escape_each s) = true.
Proof.
  induction s as [|c s IH]; [reflexivity|].
  cbn [Markup.escape_each]. unfold Markup.escape_char.
  destruct (Ascii.eqb_spec c "&") as [->|Hamp]; [entity_case IH|].
  destruct (Ascii.eqb_spec c "<") as [->|Hlt]; [entity_case IH|].
  destruct (Ascii.eqb_spec c ">") as [->|Hgt]; [entity_case IH|].
  destruct (Ascii.eqb_spec c JS.dq) as [->|Hdq]; [entity_case IH|].
  destruct (Ascii.eqb_spec c "'") as [->|Hapos]; [entity_case IH|].
  cbn [String.append Markup.safe_text]. unfold Markup.special.
  apply Ascii.eqb_neq in Hamp, Hlt, Hgt, Hdq, Hapos.
  now rewrite Hamp, Hlt, Hgt, Hdq, Hapos, IH.
Qed.

Lemma unescape_escape_each (s : string) :
  Markup.unescape (Markup.escape_each s) = s.
Proof.
  induction s as [|c s IH]; [reflexivity|].
  cbn [Markup.escape_each]. unfold Markup.escape_char.
  destruct (Ascii.eqb_spec c "&") as [->|Hamp];
    [cbn; now rewrite IH|].
  destruct (Ascii.eqb_spec c "<") as [->|Hlt];
    [cbn; now rewrite IH|].
  destruct (Ascii.eqb_spec c ">") as [->|Hgt];
    [cbn; now rewrite IH|].
  destruct (Ascii.eqb_spec c JS.dq) as [->|Hdq];
    [cbn; now rewrite IH|].
  destruct (Ascii.eqb_spec c "'") as [->|Hapos];
    [cbn; now rewrite IH|].
  cbn [String.append].
  destruct c as [[|] [|] [|] [|] [|] [|] [|] [|]];
    try (cbn [Markup.unescape]; now rewrite IH);
    exfalso; apply Hamp; reflexivity.
Qed.

Lemma fold_left_concat (f : TestResult -> string) (results : list TestResult)
    (xml : string) :
  fold_left (fun xml result => xml ++ f result) results xml
  = xml ++ Markup.concat_all (map f results).
Proof.
  revert xml. induction results as [|r rs IH]; intros xml; simpl.
  - now rewrite append_empty_r.
  - now rewrite IH, append_assoc.
Qed.

Lemma generateXmlReport_structure (timestamp : string)
    (results : list TestResult) (analysis : Analysis) :
  TestReporter.generateXmlReport timestamp results analysis
  = TestReporter.xml_header timestamp analysis
    ++ Markup.concat_all (map TestReporter.testcase_xml results)
    ++ TestReporter.xml_footer.
Proof.
  unfold TestReporter.generateXmlReport.
  now rewrite fold_left_concat, append_assoc.
Qed.

Lemma or_else_cases (x : option string) (y : string) :
  JS.or_else x y
  = match x with
    | Some e => if JS.truthy e then e else y
    | None => y
    end.
Proof. reflexivity. Qed.

Lemma or_else_empty (x : option string) :
  JS.or_else x "" = match x with Some e => e | None => "" end.
Proof. destruct x as [[|c e]|]; reflexivity. Qed.

Lemma testcase_xml_shape (r : TestResult) :
  TestReporter.testcase_xml r
  = "    <testcase name=" ++ TestReporter.q (TestReporter.escapeXml (testId r))
    ++ " time=" ++ TestReporter.q (JS.div1000_toFixed2 (duration r))
    ++ (if passed r then "/>" ++ JS.LF
        else ">" ++ JS.LF ++ "      " ++ failure_element r ++ JS.LF
             ++ "    </testcase>" ++ JS.LF).
Proof.
  unfold TestReporter.testcase_xml, failure_element.
  rewrite or_else_empty, or_else_cases.
  destruct (passed r); cbn [negb]; rewrite !append_assoc; reflexivity.
Qed.

Lemma concat_all_in (f : TestResult -> string) (r : TestResult)
    (results : list TestResult) :
  In r results ->
  exists before after,
    Markup.concat_all (map f results) = before ++ f r ++ after.
Proof.
  induction results as [|x xs IH]; intros Hin; [contradiction|].
  destruct Hin as [-> | Hin].
  - exists "", (Markup.concat_all (map f xs)). reflexivity.
  - destruct (IH Hin) as (before & after & Heq).
    exists (f x ++ before), after. cbn [map Markup.concat_all fold_right].
    fold (Markup.concat_all (map f xs)).
    now rewrite Heq, append_assoc.
Qed.

(** C9. escapeXml replaces every occurrence of each of the five characters
    ampersand, less-than, greater-than, double quote and apostrophe by its
    entity reference and leaves every other character alone; its output
    holds none of the last four and holds an ampersand only at the start of
    an entity reference, and the original text can be read back from it.
    The rendered document is fixed markup around, for each result, its
    identifier passed through escapeXml and, when it failed, its error
    text passed through escapeXml in the message attribute and in the
    body. The identifier [a & b] and the error [<bad>] render as
    [a &amp; b] and [&lt;bad&gt;]. *)
Theorem escapeXml_escapes_markup_characters :
  (forall s, TestReporter.escapeXml s = Markup.escape_each s)
  /\ (forall s, Markup.safe_text (TestReporter.escapeXml s) = true)
  /\ (forall s, Markup.unescape (TestReporter.escapeXml s) = s)
  /\ (forall timestamp results analysis,
         TestReporter.generateXmlReport timestamp results analysis
         = TestReporter.xml_header timestamp analysis
           ++ Markup.concat_all (map TestReporter.testcase_xml results)
           ++ TestReporter.xml_footer)
  /\ (forall r,
         TestReporter.testcase_xml r
         = "    <testcase name="
           ++ TestReporter.q (TestReporter.escapeXml (testId r))
           ++ " time=" ++ TestReporter.q (JS.div1000_toFixed2 (duration r))
           ++ (if passed r then "/>" ++ JS.LF
               else ">" ++ JS.LF ++ "      <failure message="
                    ++ TestReporter.q
                         (TestReporter.escapeXml
                            (JS.or_else (error r) "Test failed"))
                    ++ ">"
                    ++ TestReporter.escapeXml (JS.or_else (error r) "")
                    ++ "</failure>" ++ JS.LF
                    ++ "    </testcase>" ++ JS.LF))
  /\ TestReporter.escapeXml "a & b" = "a &amp; b"
  /\ TestReporter.escapeXml "<bad>" = "&lt;bad&gt;"
  /\ TestReporter.testcase_xml Sample.needs_escaping
     = "    <testcase name=" ++ TestReporter.q "a &amp; b"
       ++ " time=" ++ TestReporter.q "0.00" ++ ">" ++ JS.LF
       ++ "      <failure message=" ++ TestReporter.q "&lt;bad&gt;" ++ ">"
       ++ "&lt;bad&gt;" ++ "</failure>" ++ JS.LF
       ++ "    </testcase>" ++ JS.LF.
Proof.
  split; [exact escapeXml_each|].
  split; [intros s; rewrite escapeXml_each; apply escape_each_safe|].
  split; [intros s; rewrite escapeXml_each; apply unescape_escape_each|].
  split; [exact generateXmlReport_structure|].
  split.
  { intros r. unfold TestReporter.testcase_xml.
    destruct (passed r); cbn [negb]; rewrite !append_assoc; reflexivity. }
  repeat split; reflexivity.
Qed.

(** C4, the claim as stated fails: for a failed result without error text
    the message attribute of the failure element reads Test failed, not
    the empty string, so the document is not the one the claim
    describes. *)
Lemma absent_error_message_attribute :
  TestReporter.generateXmlReport "2024-01-01T00:00:00.000Z"
    [Sample.failed_without_error]
    (JestTestRunner.analyzeResults [Sample.failed_without_error])
  <> Claimed.xml_document "2024-01-01T00:00:00.000Z"
       [Sample.failed_without_error]
       (JestTestRunner.analyzeResults [Sample.failed_without_error]).
Proof.
  apply String.eqb_neq. vm_compute. reflexivity.
Qed.

(** C4, amended. For every failed result of the sequence, the rendered
    document holds its test case element with a failure element nested in
    it. When the result has a non-empty error text, the message attribute
    and the body of that element both carry it, escaped. When the error
    text is absent (or empty), the body is empty and the message attribute
    reads Test failed. *)
Theorem failed_result_nests_failure_element
    (timestamp : string) (results : list TestResult) (analysis : Analysis)
    (r : TestResult) :
  In r results ->
  passed r = false ->
  (exists before after,
      TestReporter.generateXmlReport timestamp results analysis
      = before
        ++ ("    <testcase name="
            ++ TestReporter.q (TestReporter.escapeXml (testId r))
            ++ " time=" ++ TestReporter.q (JS.div1000_toFixed2 (duration r))
            ++ ">" ++ JS.LF ++ "      " ++ failure_element r ++ JS.LF
            ++ "    </testcase>" ++ JS.LF)
        ++ after)
  /\ match error r with
     | Some (String c e) =>
         failure_element r
         = "<failure message="
           ++ TestReporter.q (TestReporter.escapeXml (String c e)) ++ ">"
           ++ TestReporter.escapeXml (String c e) ++ "</failure>"
     | Some EmptyString | None =>
         failure_element r
         = "<failure message=" ++ TestReporter.q "Test failed" ++ ">"
           ++ "</failure>"
     end.
Proof.
  intros Hin Hfailed. split.
  - destruct (concat_all_in TestReporter.testcase_xml r results Hin)
      as (before & after & Heq).
    exists (TestReporter.xml_header timestamp analysis ++ before),
           (after ++ TestReporter.xml_footer).
    rewrite generateXmlReport_structure, Heq, (testcase_xml_shape r), Hfailed.
    now rewrite !append_assoc.
  - unfold failure_element. destruct (error r) as [[|c e]|]; reflexivity.
Qed.

Lemma failed_result_nests_failure_element_witness :
  In Sample.needs_escaping [Sample.needs_escaping]
  /\ passed Sample.needs_escaping = false
  /\ (exists before after,
         TestReporter.generateXmlReport "2024-01-01T00:00:00.000Z"
           [Sample.needs_escaping]
           (JestTestRunner.analyzeResults [Sample.needs_escaping])
         = before
           ++ ("    <testcase name="
               ++ TestReporter.q
                    (TestReporter.escapeXml (testId Sample.needs_escaping))
               ++ " time="
               ++ TestReporter.q
                    (JS.div1000_toFixed2 (duration Sample.needs_escaping))
               ++ ">" ++ JS.LF ++ "      "
               ++ failure_element Sample.needs_escaping ++ JS.LF
               ++ "    </testcase>" ++ JS.LF)
           ++ after).
Proof.
  split; [left; reflexivity|]. split; [reflexivity|].
  apply (failed_result_nests_failure_element
           "2024-01-01T00:00:00.000Z" [Sample.needs_escaping]
           (JestTestRunner.analyzeResults [Sample.needs_escaping])
           Sample.needs_escaping).
  - left; reflexivity.
  - reflexivity.
Defined.

(** ** Running the external tool *)

Section JestRun.

Variable projectRoot : string.
Variable execPromise : string -> string -> ExecResult.
Variable JSON_parse : string -> string + Jest.Results.
Variable testPath : string.
Variable options : JestTestRunner.Options.

(** The error thrown by the inner [catch] is caught by the outer one. *)
Lemma jest_parse_failure_caught (out err m : string) :
  execPromise ("npx jest " ++ testPath ++ " "
               ++ JestTestRunner.jestOptions options) projectRoot = Resolved out err ->
  JSON_parse out = inl m ->
  JestTestRunner.runTests projectRoot execPromise JSON_parse testPath options
  = Returned (execution_error
                (new_Error ("Failed to parse Jest results: " ++ m))).
Proof.
  intros Hexec Hparse.
  unfold JestTestRunner.runTests, JestTestRunner.run_try.
  now rewrite Hexec, Hparse.
Qed.

Lemma jest_success (out err : string) (doc : Jest.Results) :
  execPromise ("npx jest " ++ testPath ++ " "
               ++ JestTestRunner.jestOptions options) projectRoot = Resolved out err ->
  JSON_parse out = inr doc ->
  JestTestRunner.runTests projectRoot execPromise JSON_parse testPath options
  = Returned (JestTestRunner.parseJestResults doc).
Proof.
  intros Hexec Hparse.
  unfold JestTestRunner.runTests, JestTestRunner.run_try.
  now rewrite Hexec, Hparse.
Qed.

(** A rejected process whose output decodes: the decoded results. *)
Lemma jest_failure_with_report (e : JsError) (out : string)
    (doc : Jest.Results) :
  execPromise ("npx jest " ++ testPath ++ " "
               ++ JestTestRunner.jestOptions options) projectRoot = Rejected e ->
  stdout e = Some out -> out <> "" ->
  JSON_parse out = inr doc ->
  JestTestRunner.runTests projectRoot execPromise JSON_parse testPath options
  = Returned (JestTestRunner.parseJestResults doc).
Proof.
  intros Hexec Hout Hne Hparse.
  unfold JestTestRunner.runTests, JestTestRunner.run_try,
    JestTestRunner.run_catch.
  rewrite Hexec, Hout, Hparse.
  apply truthy_iff in Hne. now rewrite Hne.
Qed.

(** A rejected process without output, or whose output does not decode:
    the one synthetic result. *)
Lemma jest_failure_without_report (e : JsError) :
  execPromise ("npx jest " ++ testPath ++ " "
               ++ JestTestRunner.jestOptions options) projectRoot = Rejected e ->
  (stdout e = None \/ stdout e = Some ""
   \/ exists out m, stdout e = Some out /\ JSON_parse out = inl m) ->
  JestTestRunner.runTests projectRoot execPromise JSON_parse testPath options
  = Returned (execution_error e).
Proof.
  intros Hexec Hout.
  unfold JestTestRunner.runTests, JestTestRunner.run_try,
    JestTestRunner.run_catch.
  rewrite Hexec.
  destruct Hout as [-> | [-> | (out & m & -> & Hparse)]]; try reflexivity.
  rewrite Hparse. now destruct (JS.truthy out).
Qed.

Lemma jest_never_throws : exists results,
    JestTestRunner.runTests projectRoot execPromise JSON_parse testPath options
    = Returned results.
Proof.
  unfold JestTestRunner.runTests, JestTestRunner.run_try,
    JestTestRunner.run_catch.
  destruct (execPromise _ projectRoot) as [out err|e].
  - destruct (JSON_parse out) as [m|doc]; cbn; eauto.
  - destruct (stdout e) as [out|]; [|eauto].
    destruct (JS.truthy out); [|eauto].
    destruct (JSON_parse out); eauto.
Qed.

End JestRun.

Section PlaywrightRun.

Variable projectRoot : string.
Variable execPromise : string -> string -> ExecResult.
Variable JSON_parse : string -> string + Playwright.Report.
Variable testPath : string.
Variable options : PlaywrightTestRunner.Options.

Lemma pw_parse_failure_caught (out err m : string) :
  execPromise ("npx playwright test " ++ testPath ++ " "
               ++ PlaywrightTestRunner.pwOptions options) projectRoot = Resolved out err ->
  JSON_parse out = inl m ->
  PlaywrightTestRunner.runTests projectRoot execPromise JSON_parse testPath
    options
  = Returned (execution_error
                (new_Error ("Failed to parse Playwright results: " ++ m))).
Proof.
  intros Hexec Hparse.
  unfold PlaywrightTestRunner.runTests, PlaywrightTestRunner.run_try.
  now rewrite Hexec, Hparse.
Qed.

Lemma pw_success (out err : string) (doc : Playwright.Report) :
  execPromise ("npx playwright test " ++ testPath ++ " "
               ++ PlaywrightTestRunner.pwOptions options) projectRoot = Resolved out err ->
  JSON_parse out = inr doc ->
  PlaywrightTestRunner.runTests projectRoot execPromise JSON_parse testPath
    options
  = Returned (PlaywrightTestRunner.parsePlaywrightResults doc).
Proof.
  intros Hexec Hparse.
  unfold PlaywrightTestRunner.runTests, PlaywrightTestRunner.run_try.
  now rewrite Hexec, Hparse.
Qed.

(** A rejected process: the one synthetic result, whatever it printed. *)
Lemma pw_failure (e : JsError) :
  execPromise ("npx playwright test " ++ testPath ++ " "
               ++ PlaywrightTestRunner.pwOptions options) projectRoot = Rejected e ->
  PlaywrightTestRunner.runTests projectRoot execPromise JSON_parse testPath
    options
  = Returned (execution_error e).
Proof.
  intros Hexec.
  unfold PlaywrightTestRunner.runTests, PlaywrightTestRunner.run_try.
  now rewrite Hexec.
Qed.

Lemma pw_never_throws : exists results,
    PlaywrightTestRunner.runTests projectRoot execPromise JSON_parse testPath
    options
    = Returned results.
Proof.
  unfold PlaywrightTestRunner.runTests,
    PlaywrightTestRunner.run_try, PlaywrightTestRunner.run_catch.
  destruct (execPromise _ projectRoot) as [out err|e]; [|eauto].
  destruct (JSON_parse out) as [m|doc]; cbn; eauto.
Qed.

End PlaywrightRun.

(** C1, evaluated on the code. The process exits successfully having
    printed [not json]. The claim says runTests fails with an error
    prefixed Failed to parse ... results. Both runners return instead the
    one synthetic result, whose error text is that message: the error
    thrown by the inner catch is caught by the outer catch of the same
    method. It is so for every output that does not decode, and runTests
    never fails at all. *)
Theorem parse_failure_becomes_synthetic_result :
  JestTestRunner.runTests "/repo" (Sample.exec_resolving "not json")
    Sample.JSON_parse_jest "sum.test.ts" Sample.jest_options
  = Returned
      [ {| testId := "test-execution-error"; passed := false;
           error := Some "Failed to parse Jest results: Unexpected token in JSON";
           duration := 0%Z |} ]
  /\ PlaywrightTestRunner.runTests "/repo" (Sample.exec_resolving "not json")
       Sample.JSON_parse_pw "login.spec.ts" Sample.pw_options
     = Returned
         [ {| testId := "test-execution-error"; passed := false;
              error := Some "Failed to parse Playwright results: Unexpected token in JSON";
              duration := 0%Z |} ]
  /\ (forall root exec parse path options out err m,
         exec ("npx jest " ++ path ++ " " ++ JestTestRunner.jestOptions options)
              root = Resolved out err ->
         parse out = inl m ->
         JestTestRunner.runTests root exec parse path options
         = Returned
             [ {| testId := "test-execution-error"; passed := false;
                  error := Some ("Failed to parse Jest results: " ++ m);
                  duration := 0%Z |} ])
  /\ (forall root exec parse path options out err m,
         exec ("npx playwright test " ++ path ++ " "
               ++ PlaywrightTestRunner.pwOptions options)
              root = Resolved out err ->
         parse out = inl m ->
         PlaywrightTestRunner.runTests root exec parse path options
         = Returned
             [ {| testId := "test-execution-error"; passed := false;
                  error := Some ("Failed to parse Playwright results: " ++ m);
                  duration := 0%Z |} ])
  /\ (forall root exec parse path options,
         exists results,
           JestTestRunner.runTests root exec parse path options
           = Returned results)
  /\ (forall root exec parse path options,
         exists results,
           PlaywrightTestRunner.runTests root exec parse path options
           = Returned results).
Proof.
  split; [reflexivity|]. split; [reflexivity|].
  split.
  { intros root exec parse path options out err m Hexec Hparse.
    now rewrite (jest_parse_failure_caught _ _ _ _ _ out err m). }
  split.
  { intros root exec parse path options out err m Hexec Hparse.
    now rewrite (pw_parse_failure_caught _ _ _ _ _ out err m). }
  split.
  - intros. apply jest_never_throws.
  - intros. apply pw_never_throws.
Qed.

(** C3, evaluated on the code. The Playwright process exits with status
    1 having printed a report that decodes to one failed test. The claim
    says runTests returns the results normalized from that report. The
    Playwright runner returns the one synthetic result instead, as it does
    for every rejected process; the Jest runner, in the same situation,
    returns the normalized results. *)
Theorem playwright_failure_ignores_report :
  Sample.JSON_parse_pw Sample.pw_failing_text = inr Sample.pw_failing_document
  /\ PlaywrightTestRunner.parsePlaywrightResults Sample.pw_failing_document
     = [ {| testId := "login" ++ PlaywrightTestRunner.separator
                      ++ "rejects a bad password";
            passed := false; error := Some "boom"; duration := 7%Z |} ]
  /\ PlaywrightTestRunner.runTests "/repo"
       (Sample.exec_exiting Sample.pw_failing_text "")
       Sample.JSON_parse_pw "login.spec.ts" Sample.pw_options
     = Returned
         [ {| testId := "test-execution-error"; passed := false;
              error :=
                Some ("Command failed: npx playwright test login.spec.ts "
                      ++ "--reporter=json" ++ JS.LF);
              duration := 0%Z |} ]
  /\ (forall root exec parse path options e,
         exec ("npx playwright test " ++ path ++ " "
               ++ PlaywrightTestRunner.pwOptions options)
              root = Rejected e ->
         PlaywrightTestRunner.runTests root exec parse path options
         = Returned (execution_error e))
  /\ JestTestRunner.runTests "/repo"
       (Sample.exec_exiting Sample.jest_text "")
       Sample.JSON_parse_jest "sum.test.ts" Sample.jest_options
     = Returned (JestTestRunner.parseJestResults Sample.jest_document)
  /\ (forall root exec parse path options e out doc,
         exec ("npx jest " ++ path ++ " " ++ JestTestRunner.jestOptions options)
              root = Rejected e ->
         stdout e = Some out -> out <> "" ->
         parse out = inr doc ->
         JestTestRunner.runTests root exec parse path options
         = Returned (JestTestRunner.parseJestResults doc)).
Proof.
  split; [reflexivity|]. split; [reflexivity|]. split; [reflexivity|].
  split.
  { intros root exec parse path options e Hexec. now apply pw_failure. }
  split; [vm_compute; reflexivity|].
  intros root exec parse path options e out doc Hexec Hout Hne Hparse.
  now apply (jest_failure_with_report _ _ _ _ _ e out doc).
Qed.

(** C5. When the process cannot be started, or exits with a non-zero
    status and its output is absent, empty or does not decode, runTests of
    either runner returns, without failing, exactly one result: identifier
    test-execution-error, passed false, duration 0, error text = the
    message of the failure, hence non-empty whenever that message is. So
    it is when the tool is not installed, when the output of a failed
    process is not JSON, and when no process can be started. *)
Theorem process_failure_yields_one_synthetic_result :
  (forall root exec parse path options e,
      exec ("npx jest " ++ path ++ " " ++ JestTestRunner.jestOptions options)
           root = Rejected e ->
      (stdout e = None \/ stdout e = Some ""
       \/ exists out m, stdout e = Some out /\ parse out = inl m) ->
      JestTestRunner.runTests root exec parse path options
      = Returned
          [ {| testId := "test-execution-error"; passed := false;
               error := Some (message e); duration := 0%Z |} ])
  /\ (forall root exec parse path options e,
         exec ("npx playwright test " ++ path ++ " "
               ++ PlaywrightTestRunner.pwOptions options)
              root = Rejected e ->
         PlaywrightTestRunner.runTests root exec parse path options
         = Returned
             [ {| testId := "test-execution-error"; passed := false;
                  error := Some (message e); duration := 0%Z |} ])
  /\ (forall e r,
         In r (execution_error e) ->
         message e <> "" ->
         exists text, error r = Some text /\ text = message e /\ text <> "")
  /\ JestTestRunner.runTests "/repo" (Sample.exec_exiting "" Sample.not_found)
       Sample.JSON_parse_jest "sum.test.ts" Sample.jest_options
     = Returned
         [ {| testId := "test-execution-error"; passed := false;
              error := Some ("Command failed: npx jest sum.test.ts --json"
                             ++ JS.LF ++ Sample.not_found);
              duration := 0%Z |} ]
  /\ JestTestRunner.runTests "/repo" (Sample.exec_exiting "not json" "")
       Sample.JSON_parse_jest "sum.test.ts" Sample.jest_options
     = Returned
         [ {| testId := "test-execution-error"; passed := false;
              error := Some ("Command failed: npx jest sum.test.ts --json"
                             ++ JS.LF);
              duration := 0%Z |} ]
  /\ JestTestRunner.runTests "/repo" Sample.exec_not_spawned
       Sample.JSON_parse_jest "sum.test.ts" Sample.jest_options
     = Returned
         [ {| testId := "test-execution-error"; passed := false;
              error := Some "spawn /bin/sh ENOENT"; duration := 0%Z |} ]
  /\ PlaywrightTestRunner.runTests "/repo"
       (Sample.exec_exiting "" Sample.not_found)
       Sample.JSON_parse_pw "login.spec.ts" Sample.pw_options
     = Returned
         [ {| testId := "test-execution-error"; passed := false;
              error :=
                Some ("Command failed: npx playwright test login.spec.ts "
                      ++ "--reporter=json" ++ JS.LF ++ Sample.not_found);
              duration := 0%Z |} ].
Proof.
  split.
  { intros root exec parse path options e Hexec Hout.
    now apply jest_failure_without_report. }
  split.
  { intros root exec parse path options e Hexec. now apply pw_failure. }
  split.
  { intros e r [<- | []] Hne. exists (message e). auto. }
  repeat split; reflexivity.
Qed.

(** ** Writing the report *)

(** C2, the claim as stated fails: asked for the format html on an empty
    disk, generateReport fails reporting the format, but by then the
    output directory has been created. *)
Lemma unsupported_format_creates_directory :
  TestReporter.generateReport Sample.Disk Sample.mkdir_recursive
    Sample.writeFile Sample.path_join Sample.JSON_stringify
    "2024-01-01T00:00:00.000Z" "2024-01-01T00:00:00.001Z"
    [] (JestTestRunner.analyzeResults []) Sample.html_options
    Sample.empty_disk
  = (Thrown "Unsupported report format: html",
     {| Sample.dirs := ["reports"]; Sample.files := [] |})
  /\ {| Sample.dirs := ["reports"]; Sample.files := [] |}
     <> Sample.empty_disk.
Proof.
  split; [reflexivity | discriminate].
Qed.

(** C2, amended. For every format other than json and xml, generateReport
    first creates the output directory; if that fails it fails with the
    error of the creation, otherwise it fails reporting the unrecognized
    format. Either way no file is written: the file system is left as the
    creation of the directory left it, so whatever that creation preserves
    (the files, for one) is as it was before the call. *)
Theorem unsupported_format_fails_after_mkdir
    (FS : Type)
    (mkdir_recursive : string -> FS -> FS * option string)
    (writeFile : string -> string -> FS -> FS * option string)
    (path_join : string -> string -> string)
    (JSON_stringify : TestReporter.JsonReport -> string)
    (now_name now_body : string)
    (results : list TestResult) (analysis : Analysis)
    (options : TestReporter.ReportOptions) (fs : FS) :
  TestReporter.format options <> "json" ->
  TestReporter.format options <> "xml" ->
  let run :=
    TestReporter.generateReport FS mkdir_recursive writeFile path_join
      JSON_stringify now_name now_body results analysis options fs in
  let created := mkdir_recursive (TestReporter.outputPath options) fs in
  fst run
  = match snd created with
    | Some e => Thrown e
    | None =>
        Thrown ("Unsupported report format: " ++ TestReporter.format options)
    end
  /\ snd run = fst created
  /\ (forall (X : Type) (observe : FS -> X),
         (forall path d, observe (fst (mkdir_recursive path d)) = observe d) ->
         observe (snd run) = observe fs).
Proof.
  intros Hjson Hxml run created.
  assert (Hrun : run = (match snd created with
                        | Some e => Thrown e
                        | None =>
                            Thrown ("Unsupported report format: "
                                    ++ TestReporter.format options)
                        end, fst created)).
  { subst run created. unfold TestReporter.generateReport.
    destruct (mkdir_recursive (TestReporter.outputPath options) fs)
      as [fs1 [e|]]; [reflexivity|].
    apply String.eqb_neq in Hjson, Hxml. now rewrite Hjson, Hxml. }
  rewrite Hrun. cbn [fst snd]. repeat split.
  intros X observe Hkeep. subst created. apply Hkeep.
Qed.

Lemma mkdir_keeps_files (path : string) (d : Sample.Disk) :
  Sample.files (fst (Sample.mkdir_recursive path d)) = Sample.files d.
Proof.
  unfold Sample.mkdir_recursive.
  destruct (existsb _ (Sample.files d)); [reflexivity|].
  destruct (existsb _ (Sample.dirs d)); reflexivity.
Defined.

Lemma unsupported_format_fails_after_mkdir_witness :
  TestReporter.format Sample.html_options <> "json"
  /\ TestReporter.format Sample.html_options <> "xml"
  /\ fst (TestReporter.generateReport Sample.Disk Sample.mkdir_recursive
            Sample.writeFile Sample.path_join Sample.JSON_stringify
            "2024-01-01T00:00:00.000Z" "2024-01-01T00:00:00.001Z"
            [] (JestTestRunner.analyzeResults []) Sample.html_options
            Sample.empty_disk)
     = Thrown "Unsupported report format: html"
  /\ Sample.files
       (snd (TestReporter.generateReport Sample.Disk Sample.mkdir_recursive
               Sample.writeFile Sample.path_join Sample.JSON_stringify
               "2024-01-01T00:00:00.000Z" "2024-01-01T00:00:00.001Z"
               [] (JestTestRunner.analyzeResults []) Sample.html_options
               Sample.empty_disk))
     = Sample.files Sample.empty_disk.
Proof.
  split; [discriminate|]. split; [discriminate|].
  destruct (unsupported_format_fails_after_mkdir Sample.Disk
              Sample.mkdir_recursive Sample.writeFile Sample.path_join
              Sample.JSON_stringify
              "2024-01-01T00:00:00.000Z" "2024-01-01T00:00:00.001Z"
              [] (JestTestRunner.analyzeResults []) Sample.html_options
              Sample.empty_disk) as (Hthrown & _ & Hkept);
    [discriminate | discriminate |].
  split; [exact Hthrown|].
  apply (Hkept _ Sample.files). exact mkdir_keeps_files.
Defined.

(** * Further properties of the code *)

(** ** Substrings and characters *)

Lemma starts_with_spec (p s : string) :
  JS.starts_with p s = true <-> exists post, s = p ++ post.
Proof.
  revert s. induction p as [|a p IH]; intros s; simpl.
  - split; [intros _; now exists s | reflexivity].
  - destruct s as [|b s].
    + split; [discriminate | intros [post H]; discriminate].
    + rewrite andb_true_iff, IH. split.
      * intros [Hab [post ->]]. apply Ascii.eqb_eq in Hab as ->.
        now exists post.
      * intros [post H]. injection H as -> ->.
        split; [apply Ascii.eqb_refl | now exists post].
Qed.

Lemma includes_spec (needle haystack : string) :
  Text.includes needle haystack = true
  <-> exists pre post, haystack = pre ++ needle ++ post.
Proof.
  induction haystack as [|c h IH]; cbn [Text.includes].
  - rewrite starts_with_spec. split.
    + intros [post H]. exists "", post. exact H.
    + intros (pre & post & H). destruct pre; [|discriminate].
      now exists post.
  - rewrite orb_true_iff, starts_with_spec, IH. split.
    + intros [[post H] | (pre & post & H)].
      * exists "", post. exact H.
      * exists (String c pre), post. cbn. now rewrite H.
    + intros (pre & post & H). destruct pre as [|x pre].
      * left. now exists post.
      * right. injection H as _ H. now exists pre, post.
Qed.

(** A text that includes a string includes every part of that string. *)
Lemma includes_part (a b c haystack : string) :
  Text.includes (a ++ b ++ c) haystack = true ->
  Text.includes b haystack = true.
Proof.
  rewrite !includes_spec. intros (pre & post & ->).
  exists (pre ++ a), (c ++ post). now rewrite !append_assoc.
Qed.

Lemma has_char_app (c : ascii) (a b : string) :
  Text.has_char c (a ++ b) = Text.has_char c a || Text.has_char c b.
Proof.
  induction a as [|x a IH]; simpl; [reflexivity|].
  now rewrite IH, orb_assoc.
Qed.

Lemma replace_all_removes (c : ascii) (by_ s : string) :
  Text.has_char c by_ = false ->
  Text.has_char c (JS.replace_all c by_ s) = false.
Proof.
  intros Hby. induction s as [|a s IH]; simpl; [reflexivity|].
  destruct (Ascii.eqb a c) eqn:Hac.
  - now rewrite has_char_app, Hby, IH.
  - simpl. now rewrite Hac, IH.
Qed.

Lemma replace_all_absent (c : ascii) (by_ s : string) :
  Text.has_char c s = false -> JS.replace_all c by_ s = s.
Proof.
  induction s as [|a s IH]; simpl; [reflexivity|].
  intros H. apply orb_false_iff in H as [Hac Hs].
  now rewrite Hac, IH.
Qed.

(** ** The report file *)

Section ReportFile.

Variable FS : Type.
Variable mkdir_recursive : string -> FS -> FS * option string.
Variable writeFile : string -> string -> FS -> FS * option string.
Variable path_join : string -> string -> string.
Variable JSON_stringify : TestReporter.JsonReport -> string.

(** X1. A file name given in the options and not empty is used as it is:
    the report is written under exactly that name in the output
    directory, without timestamp and without extension. When the
    directory can be created, the format is json or xml and the file can
    be written, the document of that format (with the clock reading taken
    for the document) is written at that path and the path is returned;
    whenever a path is returned, the file system is the one that write
    left. The clock reading taken for the name and includeTimestamp have
    no influence on the outcome. *)
Theorem explicit_filename_is_used_as_is
    (now_name now_body : string) (results : list TestResult)
    (analysis : Analysis) (options : TestReporter.ReportOptions) (fs : FS)
    (name : string) :
  TestReporter.filename options = Some name ->
  name <> "" ->
  let filePath := path_join (TestReporter.outputPath options) name in
  let document format :=
    if String.eqb format "json"
    then TestReporter.generateJsonReport JSON_stringify now_body results
           analysis
    else TestReporter.generateXmlReport now_body results analysis in
  (forall now_name' flag,
      TestReporter.generateReport FS mkdir_recursive writeFile path_join
        JSON_stringify now_name now_body results analysis options fs
      = TestReporter.generateReport FS mkdir_recursive writeFile path_join
          JSON_stringify now_name' now_body results analysis
          {| TestReporter.format := TestReporter.format options;
             TestReporter.outputPath := TestReporter.outputPath options;
             TestReporter.filename := TestReporter.filename options;
             TestReporter.includeTimestamp := flag |} fs)
  /\ (forall path fs',
         TestReporter.generateReport FS mkdir_recursive writeFile path_join
           JSON_stringify now_name now_body results analysis options fs
         = (Returned path, fs') ->
         path = filePath
         /\ ReportNames.supported (TestReporter.format options) = true
         /\ exists fs1,
             mkdir_recursive (TestReporter.outputPath options) fs
             = (fs1, None)
             /\ writeFile filePath (document (TestReporter.format options))
                  fs1
                = (fs', None))
  /\ (forall fs1 fs',
         mkdir_recursive (TestReporter.outputPath options) fs = (fs1, None) ->
         ReportNames.supported (TestReporter.format options) = true ->
         writeFile filePath (document (TestReporter.format options)) fs1
         = (fs', None) ->
         TestReporter.generateReport FS mkdir_recursive writeFile path_join
           JSON_stringify now_name now_body results analysis options fs
         = (Returned filePath, fs')).
Proof.
  intros Hname Hne filePath document.
  assert (Hor : forall y, JS.or_else (Some name) y = name).
  { intros y. unfold JS.or_else. destruct name; [contradiction | reflexivity]. }
  split; [|split].
  - intros now_name' flag. unfold TestReporter.generateReport.
    cbn [TestReporter.format TestReporter.outputPath TestReporter.filename
         TestReporter.includeTimestamp].
    rewrite Hname, !Hor. reflexivity.
  - intros path fs'. unfold TestReporter.generateReport.
    rewrite Hname, Hor. subst document filePath.
    unfold ReportNames.supported. cbv beta.
    destruct (mkdir_recursive _ fs) as [fs1 [e|]]; [discriminate|].
    destruct (String.eqb (TestReporter.format options) "json").
    + destruct (writeFile _ _ fs1) as [fs2 [e|]] eqn:Hwrite; [discriminate|].
      intros [= <- <-]. split; [reflexivity|]. split; [reflexivity|].
      now exists fs1.
    + destruct (String.eqb (TestReporter.format options) "xml");
        [|discriminate].
      destruct (writeFile _ _ fs1) as [fs2 [e|]] eqn:Hwrite; [discriminate|].
      intros [= <- <-]. split; [reflexivity|]. split; [reflexivity|].
      now exists fs1.
  - intros fs1 fs' Hmkdir Hformat Hwrite.
    unfold TestReporter.generateReport.
    rewrite Hname, Hor, Hmkdir. subst document filePath.
    unfold ReportNames.supported in Hformat. cbv beta in Hwrite.
    destruct (String.eqb (TestReporter.format options) "json").
    + now rewrite Hwrite.
    + cbn [orb] in Hformat. rewrite Hformat. now rewrite Hwrite.
Qed.

(** X2. When no file name is given (or an empty one), a report that is
    written gets the name test-report, then a hyphen and the clock reading
    with every colon replaced by a hyphen unless includeTimestamp is
    false, then a dot and the format; no colon occurs in that name. *)
Theorem generated_filename_has_no_colon
    (now_name now_body : string) (results : list TestResult)
    (analysis : Analysis) (options : TestReporter.ReportOptions) (fs : FS)
    (path : string) (fs' : FS) :
  (TestReporter.filename options = None
   \/ TestReporter.filename options = Some "") ->
  TestReporter.generateReport FS mkdir_recursive writeFile path_join
    JSON_stringify now_name now_body results analysis options fs
  = (Returned path, fs') ->
  exists name,
    path = path_join (TestReporter.outputPath options) name
    /\ name
       = "test-report"
         ++ match TestReporter.includeTimestamp options with
            | Some false => ""
            | Some true | None => "-" ++ JS.replace_all ":" "-" now_name
            end
         ++ "." ++ TestReporter.format options
    /\ Text.has_char ":" name = false.
Proof.
  intros Hname. unfold TestReporter.generateReport.
  set (stamp := if match TestReporter.includeTimestamp options with
                   | Some b => b
                   | None => true
                   end
                then "-" ++ JS.replace_all ":" "-" now_name else "").
  assert (Hstamp : stamp = match TestReporter.includeTimestamp options with
                           | Some false => ""
                           | Some true | None =>
                               "-" ++ JS.replace_all ":" "-" now_name
                           end).
  { subst stamp. now destruct (TestReporter.includeTimestamp options) as [[|]|]. }
  assert (Hclean : Text.has_char ":" stamp = false).
  { rewrite Hstamp.
    destruct (TestReporter.includeTimestamp options) as [[|]|];
      try reflexivity;
      change ("-" ++ JS.replace_all ":" "-" now_name)
        with (String "-" (JS.replace_all ":" "-" now_name));
      cbn [Text.has_char]; now rewrite replace_all_removes. }
  assert (Hor : JS.or_else (TestReporter.filename options)
                  ("test-report" ++ stamp ++ "." ++ TestReporter.format options)
                = "test-report" ++ stamp ++ "." ++ TestReporter.format options).
  { destruct Hname as [-> | ->]; reflexivity. }
  rewrite Hor.
  destruct (mkdir_recursive _ fs) as [fs1 [e|]]; [discriminate|].
  destruct (String.eqb_spec (TestReporter.format options) "json") as [Hj|Hj].
  - destruct (writeFile _ _ fs1) as [fs2 [e|]]; [discriminate|].
    intros [= <- _].
    exists ("test-report" ++ stamp ++ "." ++ TestReporter.format options).
    split; [reflexivity|].
    split; [now rewrite Hstamp|].
    rewrite !has_char_app, Hclean, Hj. reflexivity.
  - destruct (String.eqb_spec (TestReporter.format options) "xml") as [Hx|Hx];
      [|discriminate].
    destruct (writeFile _ _ fs1) as [fs2 [e|]]; [discriminate|].
    intros [= <- _].
    exists ("test-report" ++ stamp ++ "." ++ TestReporter.format options).
    split; [reflexivity|].
    split; [now rewrite Hstamp|].
    rewrite !has_char_app, Hclean, Hx. reflexivity.
Qed.

End ReportFile.

Lemma explicit_filename_is_used_as_is_witness :
  TestReporter.generateReport Sample.Disk Sample.mkdir_recursive
    Sample.writeFile Sample.path_join Sample.JSON_stringify
    "2024-01-01T00:00:00.000Z" "2024-01-01T00:00:00.001Z"
    [Sample.needs_escaping]
    (JestTestRunner.analyzeResults [Sample.needs_escaping])
    {| TestReporter.format := "xml"; TestReporter.outputPath := "reports";
       TestReporter.filename := Some "latest";
       TestReporter.includeTimestamp := Some true |}
    Sample.empty_disk
  = (Returned "reports/latest",
     {| Sample.dirs := ["reports"];
        Sample.files :=
          [("reports/latest",
            TestReporter.generateXmlReport "2024-01-01T00:00:00.001Z"
              [Sample.needs_escaping]
              (JestTestRunner.analyzeResults [Sample.needs_escaping]))] |}).
Proof.
  destruct (explicit_filename_is_used_as_is Sample.Disk
              Sample.mkdir_recursive Sample.writeFile Sample.path_join
              Sample.JSON_stringify
              "2024-01-01T00:00:00.000Z" "2024-01-01T00:00:00.001Z"
              [Sample.needs_escaping]
              (JestTestRunner.analyzeResults [Sample.needs_escaping])
              {| TestReporter.format := "xml";
                 TestReporter.outputPath := "reports";
                 TestReporter.filename := Some "latest";
                 TestReporter.includeTimestamp := Some true |}
              Sample.empty_disk "latest" eq_refl ltac:(discriminate))
    as (_ & _ & Hwritten).
  apply (Hwritten {| Sample.dirs := ["reports"]; Sample.files := [] |});
    reflexivity.
Defined.

Lemma generated_filename_has_no_colon_witness :
  exists name,
    "reports/test-report-2024-01-01T00-00-00.000Z.xml"
    = Sample.path_join "reports" name
    /\ name = "test-report" ++ "-"
              ++ JS.replace_all ":" "-" "2024-01-01T00:00:00.000Z"
              ++ "." ++ "xml"
    /\ Text.has_char ":" name = false.
Proof.
  apply (generated_filename_has_no_colon Sample.Disk Sample.mkdir_recursive
           Sample.writeFile Sample.path_join Sample.JSON_stringify
           "2024-01-01T00:00:00.000Z" "2024-01-01T00:00:00.001Z"
           [] (JestTestRunner.analyzeResults [])
           {| TestReporter.format := "xml";
              TestReporter.outputPath := "reports";
              TestReporter.filename := None;
              TestReporter.includeTimestamp := None |}
           Sample.empty_disk
           "reports/test-report-2024-01-01T00-00-00.000Z.xml"
           {| Sample.dirs := ["reports"];
              Sample.files :=
                [("reports/test-report-2024-01-01T00-00-00.000Z.xml",
                  TestReporter.generateXmlReport "2024-01-01T00:00:00.001Z"
                    [] (JestTestRunner.analyzeResults []))] |});
    [left; reflexivity | vm_compute; reflexivity].
Defined.


(** X4. escapeXml returns its argument unchanged exactly when none of
    the five characters occurs in it. *)
Theorem escapeXml_fixed_points (s : string) :
  TestReporter.escapeXml s = s
  <-> Text.has_char "&" s = false /\ Text.has_char "<" s = false
      /\ Text.has_char ">" s = false /\ Text.has_char JS.dq s = false
      /\ Text.has_char "'" s = false.
Proof.
  split.
  - intros Hfix.
    assert (Hlen : String.length (Markup.escape_each s) = String.length s)
      by now rewrite <- escapeXml_each, Hfix.
    clear Hfix.
    assert (Happ : forall a b,
               String.length (a ++ b) = (String.length a + String.length b)%nat).
    { intros a b. induction a as [|x a IHa]; simpl; [reflexivity|].
      now rewrite IHa. }
    assert (Hge : forall t,
               (String.length t <= String.length (Markup.escape_each t))%nat).
    { induction t as [|c t IHt]; [reflexivity|].
      cbn [Markup.escape_each]. rewrite Happ. unfold Markup.escape_char.
      destruct (Ascii.eqb c "&"); [simpl; lia|].
      destruct (Ascii.eqb c "<"); [simpl; lia|].
      destruct (Ascii.eqb c ">"); [simpl; lia|].
      destruct (Ascii.eqb c JS.dq); [simpl; lia|].
      destruct (Ascii.eqb c "'"); simpl; lia. }
    induction s as [|c s IH]; [repeat split|].
    cbn [Markup.escape_each] in Hlen. rewrite Happ in Hlen.
    pose proof (Hge s) as Hs. unfold Markup.escape_char in Hlen.
    cbn [Text.has_char].
    destruct (Ascii.eqb c "&") eqn:H1; [simpl in Hlen; lia|].
    destruct (Ascii.eqb c "<") eqn:H2; [simpl in Hlen; lia|].
    destruct (Ascii.eqb c ">") eqn:H3; [simpl in Hlen; lia|].
    destruct (Ascii.eqb c JS.dq) eqn:H4; [simpl in Hlen; lia|].
    destruct (Ascii.eqb c "'") eqn:H5; [simpl in Hlen; lia|].
    simpl in Hlen. apply IH. lia.
  - intros (H1 & H2 & H3 & H4 & H5). unfold TestReporter.escapeXml.
    now rewrite (replace_all_absent _ _ _ H1), (replace_all_absent _ _ _ H2),
      (replace_all_absent _ _ _ H3), (replace_all_absent _ _ _ H4),
      (replace_all_absent _ _ _ H5).
Qed.

(** ** More on aggregation *)

Lemma filter_all_length {A : Type} (p : A -> bool) (xs : list A) :
  List.length (filter p xs) = List.length xs <-> forallb p xs = true.
Proof.
  induction xs as [|x xs IH]; simpl; [tauto|].
  pose proof (filter_length_le p xs) as Hle.
  destruct (p x); simpl.
  - rewrite <- IH. lia.
  - split; [lia | discriminate].
Qed.

Lemma filter_none_length {A : Type} (p : A -> bool) (xs : list A) :
  List.length (filter p xs) = O <-> forallb (fun x => negb (p x)) xs = true.
Proof.
  induction xs as [|x xs IH]; simpl; [tauto|].
  destruct (p x); simpl; [split; [lia | discriminate] | exact IH].
Qed.

(** X5. The analysis of two sequences put end to end: the counts and the
    total duration add up, and the failed tests of the first precede
    those of the second. *)
Theorem analyzeResults_of_concatenation (R1 R2 : list TestResult) :
  let a := JestTestRunner.analyzeResults (R1 ++ R2)%list in
  let a1 := JestTestRunner.analyzeResults R1 in
  let a2 := JestTestRunner.analyzeResults R2 in
  Summary.total (summary a)
  = (Summary.total (summary a1) + Summary.total (summary a2))%nat
  /\ Summary.passed (summary a)
     = (Summary.passed (summary a1) + Summary.passed (summary a2))%nat
  /\ Summary.failed (summary a)
     = (Summary.failed (summary a1) + Summary.failed (summary a2))%nat
  /\ Summary.totalDuration (summary a)
     = (Summary.totalDuration (summary a1)
        + Summary.totalDuration (summary a2))%Z
  /\ failedTests a = (failedTests a1 ++ failedTests a2)%list.
Proof.
  intros a a1 a2. subst a a1 a2. unfold JestTestRunner.analyzeResults.
  cbn [summary failedTests Summary.total Summary.passed Summary.failed
       Summary.totalDuration].
  rewrite !filter_app, !length_app, map_app, !reduce_durations.
  unfold sum_durations. rewrite map_app, fold_right_app.
  repeat split.
  induction (map duration R1) as [|d ds IH]; simpl; lia.
Qed.

(** X6. For a sequence that is not empty, the pass rate is 100 when no
    test failed (the list of failed tests is empty) and, the sequence
    being an array (fewer than 2^32 entries), only then: the two
    roundings never take the rate of a sequence with a failure up to 100.
    It is 0 exactly when no test passed. For the empty sequence the pass
    rate is 0 although no test failed. *)
Theorem pass_rate_extremes (R : list TestResult) :
  let a := JestTestRunner.analyzeResults R in
  (failedTests a = [] <-> forallb (fun r => passed r) R = true)
  /\ match R with
     | [] => Summary.passRate (summary a) = 0%Q /\ failedTests a = []
     | _ :: _ =>
         (failedTests a = [] -> (Summary.passRate (summary a) == 100)%Q)
         /\ ((Z.of_nat (List.length R) < 2 ^ 32)%Z ->
             (Summary.passRate (summary a) == 100)%Q ->
             failedTests a = [])
         /\ ((Summary.passRate (summary a) == 0)%Q
             <-> forallb (fun r => negb (passed r)) R = true)
     end.
Proof.
  intros a.
  assert (Hfailed : failedTests a = []
                    <-> forallb (fun r => passed r) R = true).
  { subst a. unfold JestTestRunner.analyzeResults. cbn [failedTests].
    rewrite <- filter_all_length.
    pose proof (filter_partition_length (fun r => passed r) R) as Hpart.
    cbv beta in Hpart.
    split.
    - intros Hnil. apply map_eq_nil in Hnil. rewrite Hnil in Hpart.
      simpl in Hpart. lia.
    - intros Hall.
      destruct (filter (fun r => negb (passed r)) R) as [|x xs];
        [reflexivity | simpl in Hpart; lia]. }
  split; [exact Hfailed|].
  destruct R as [|r R']; [split; reflexivity|].
  set (R := r :: R') in *.
  pose proof (filter_length_le (fun r => passed r) R) as Hle.
  assert (Hlen : List.length R = S (List.length R')) by reflexivity.
  assert (Hrate : Summary.passRate (summary a)
                  = Binary64.mul
                      (Binary64.div
                         (inject_Z
                            (Z.of_nat
                               (List.length (filter (fun r => passed r) R))))
                         (inject_Z (Z.of_nat (List.length R))))
                      100).
  { subst a. unfold JestTestRunner.analyzeResults.
    cbn [summary Summary.passRate]. now rewrite Hlen. }
  rewrite Hrate, Hfailed, <- filter_all_length, <- filter_none_length.
  set (p := List.length (filter (fun r => passed r) R)) in *.
  split; [|split].
  - intros ->. apply pass_rate_all. lia.
  - intros Hbound Hfull.
    destruct (Nat.eq_dec p (List.length R)) as [|Hne]; [assumption|].
    pose proof (pass_rate_below p (List.length R) ltac:(lia) ltac:(lia))
      as Hbelow.
    rewrite Hfull in Hbelow. discriminate Hbelow.
  - split.
    + intros Hzero. destruct p as [|p]; [reflexivity|].
      destruct (pass_rate_bounds (S p) (List.length R) ltac:(lia))
        as [Hpos _].
      rewrite Hzero in Hpos. discriminate Hpos.
    + intros ->. now rewrite pass_rate_none.
Qed.

Lemma filter_length_perm {A : Type} (p : A -> bool) (xs ys : list A) :
  Permutation xs ys ->
  List.length (filter p xs) = List.length (filter p ys).
Proof.
  induction 1 as [|x xs ys _ IH|x y xs|xs ys zs _ IH1 _ IH2]; simpl.
  - reflexivity.
  - destruct (p x); simpl; congruence.
  - destruct (p x), (p y); reflexivity.
  - congruence.
Qed.

Lemma sum_durations_perm (xs ys : list TestResult) :
  Permutation xs ys -> sum_durations xs = sum_durations ys.
Proof.
  unfold sum_durations.
  induction 1 as [|x xs ys _ IH|x y xs|xs ys zs _ IH1 _ IH2]; simpl; lia.
Qed.

(** X7. The summary does not depend on the order of the results: two
    sequences with the same results in another order have the same
    summary, and their failed tests are the same up to order. *)
Theorem summary_ignores_order (R R' : list TestResult) :
  Permutation R R' ->
  summary (JestTestRunner.analyzeResults R)
  = summary (JestTestRunner.analyzeResults R')
  /\ Permutation (failedTests (JestTestRunner.analyzeResults R))
                 (failedTests (JestTestRunner.analyzeResults R')).
Proof.
  intros Hperm. unfold JestTestRunner.analyzeResults.
  cbn [summary failedTests]. split.
  - rewrite !reduce_durations, (sum_durations_perm R R' Hperm).
    rewrite (Permutation_length Hperm).
    rewrite (filter_length_perm (fun r => passed r) R R' Hperm).
    rewrite (filter_length_perm (fun r => negb (passed r)) R R' Hperm).
    reflexivity.
  - apply Permutation_map.
    clear - Hperm.
    induction Hperm as [|x xs ys _ IH|x y xs|xs ys zs _ IH1 _ IH2]; simpl.
    + constructor.
    + destruct (negb (passed x)); [now constructor | exact IH].
    + destruct (negb (passed x)), (negb (passed y));
        try apply Permutation_refl. apply perm_swap.
    + eapply Permutation_trans; eassumption.
Qed.

Lemma summary_ignores_order_witness :
  summary (JestTestRunner.analyzeResults
             [Sample.needs_escaping; Sample.failed_without_error])
  = summary (JestTestRunner.analyzeResults
               [Sample.failed_without_error; Sample.needs_escaping]).
Proof.
  apply (summary_ignores_order
           [Sample.needs_escaping; Sample.failed_without_error]
           [Sample.failed_without_error; Sample.needs_escaping]).
  apply perm_swap.
Defined.

(** ** Normalization followed by aggregation *)

Lemma filter_map_length {A B : Type} (f : A -> B) (p : B -> bool)
    (xs : list A) :
  List.length (filter p (map f xs))
  = List.length (filter (fun x => p (f x)) xs).
Proof.
  induction xs as [|x xs IH]; simpl; [reflexivity|].
  destruct (p (f x)); simpl; now rewrite IH.
Qed.

(** X8. Every status other than passed (for Playwright: other than
    passed and expected) counts as a failure: in the analysis of a
    normalized document, total is the number of assertion records (of leaf
    test runs) and failed is the number of those whose status is anything
    else, skipped and pending ones included. *)
Theorem other_statuses_count_as_failed :
  (forall doc,
      let s := summary (JestTestRunner.analyzeResults
                          (JestTestRunner.parseJestResults doc)) in
      Summary.total s = List.length (Order.jest_assertions doc)
      /\ Summary.failed s
         = List.length
             (filter (fun a => negb (String.eqb (Jest.status a) "passed"))
                     (Order.jest_assertions doc)))
  /\ (forall doc,
         let s := summary (PlaywrightTestRunner.analyzeResults
                             (PlaywrightTestRunner.parsePlaywrightResults doc)) in
         Summary.total s = List.length (Order.report_leaves doc)
         /\ Summary.failed s
            = List.length
                (filter
                   (fun l =>
                      negb (String.eqb (Playwright.status (Order.test l))
                                       "passed"
                            || String.eqb (Playwright.status (Order.test l))
                                          "expected"))
                   (Order.report_leaves doc))).
Proof.
  split; intros doc s; subst s.
  - rewrite parseJestResults_assertions.
    unfold JestTestRunner.analyzeResults.
    cbn [summary Summary.total Summary.failed].
    rewrite length_map, filter_map_length. split; reflexivity.
  - rewrite parsePlaywrightResults_leaves.
    unfold PlaywrightTestRunner.analyzeResults.
    cbn [summary Summary.total Summary.failed].
    rewrite length_map, filter_map_length. split; reflexivity.
Qed.

(** X9. A run whose process is rejected and leaves no usable report is
    analysed as one failed test: total 1, passed 0, failed 1, pass rate 0,
    total duration 0, and one failed test named test-execution-error
    carrying the message of the failure. For the Playwright runner this
    holds for every rejected process. *)
Theorem failed_run_is_one_failed_test :
  (forall root exec parse path options e,
      exec ("npx jest " ++ path ++ " " ++ JestTestRunner.jestOptions options)
           root = Rejected e ->
      (stdout e = None \/ stdout e = Some ""
       \/ exists out m, stdout e = Some out /\ parse out = inl m) ->
      exists results,
        JestTestRunner.runTests root exec parse path options
        = Returned results
        /\ (let a := JestTestRunner.analyzeResults results in
            Summary.total (summary a) = 1%nat
            /\ Summary.passed (summary a) = 0%nat
            /\ Summary.failed (summary a) = 1%nat
            /\ (Summary.passRate (summary a) == 0)%Q
            /\ Summary.totalDuration (summary a) = 0%Z
            /\ failedTests a
               = [ {| FailedTest.testId := "test-execution-error";
                      FailedTest.error := Some (message e) |} ]))
  /\ (forall root exec parse path options e,
         exec ("npx playwright test " ++ path ++ " "
               ++ PlaywrightTestRunner.pwOptions options)
              root = Rejected e ->
         exists results,
           PlaywrightTestRunner.runTests root exec parse path options
           = Returned results
           /\ (let a := PlaywrightTestRunner.analyzeResults results in
               Summary.total (summary a) = 1%nat
               /\ Summary.passed (summary a) = 0%nat
               /\ Summary.failed (summary a) = 1%nat
               /\ (Summary.passRate (summary a) == 0)%Q
               /\ Summary.totalDuration (summary a) = 0%Z
               /\ failedTests a
                  = [ {| FailedTest.testId := "test-execution-error";
                         FailedTest.error := Some (message e) |} ])).
Proof.
  split.
  - intros root exec parse path options e Hexec Hout.
    exists (execution_error e).
    split; [now apply jest_failure_without_report|].
    repeat split; reflexivity.
  - intros root exec parse path options e Hexec.
    exists (execution_error e).
    split; [now apply pw_failure|].
    repeat split; reflexivity.
Qed.

(** ** The command lines *)

(** X10. The options string of either runner is the mandatory flag
    followed, in a fixed order, by one space and one flag for each option
    that is set: no empty entry, no double space. A false flag, an empty
    pattern or browser and a worker count of 0 add nothing. *)
Theorem option_strings_list_enabled_flags :
  (forall options,
      JestTestRunner.jestOptions options
      = "--json"
        ++ (if JestTestRunner.coverage options then " --coverage" else "")
        ++ (if JestTestRunner.watch options then " --watch" else "")
        ++ match JestTestRunner.testNamePattern options with
           | Some (String c p) =>
               " --testNamePattern=" ++ JS.DQ ++ String c p ++ JS.DQ
           | Some EmptyString | None => ""
           end)
  /\ (forall options,
         PlaywrightTestRunner.pwOptions options
         = "--reporter=json"
           ++ (if PlaywrightTestRunner.headed options then " --headed" else "")
           ++ match PlaywrightTestRunner.workers options with
              | Some 0%Z | None => ""
              | Some w => " --workers=" ++ JS.Z_to_string w
              end
           ++ match PlaywrightTestRunner.browser options with
              | Some (String c b) => " --browser=" ++ String c b
              | Some EmptyString | None => ""
              end).
Proof.
  split.
  - intros [[|] [|] [[|c p]|]]; reflexivity.
  - intros [[|] [[|w|w]|] [[|c b]|]];
      cbn -[JS.Z_to_string]; rewrite ?append_empty_r; reflexivity.
Qed.

(** ** One report per format *)

Section ReportLoop.

Variable FS : Type.
Variable mkdir_recursive : string -> FS -> FS * option string.
Variable writeFile : string -> string -> FS -> FS * option string.
Variable path_join : string -> string -> string.
Variable JSON_stringify : TestReporter.JsonReport -> string.
Variable clock : nat -> string.
Variable results : list TestResult.
Variable analysis : Analysis.
Variable outputPath : string.

(** The report of one format, as the loop asks for it. *)
Lemma report_of_format (tick : nat) (format : string) (fs : FS) :
  TestReporter.generateReport FS mkdir_recursive writeFile path_join
    JSON_stringify (clock tick) (clock (S tick)) results analysis
    {| TestReporter.format := format;
       TestReporter.outputPath := outputPath;
       TestReporter.filename := None;
       TestReporter.includeTimestamp := Some true |} fs
  = match mkdir_recursive outputPath fs with
    | (fs1, Some e) => (Thrown e, fs1)
    | (fs1, None) =>
        if ReportNames.supported format then
          match writeFile
                  (path_join outputPath
                     (ReportNames.report_name (clock tick) format))
                  (if String.eqb format "json"
                   then JSON_stringify
                          (TestReporter.json_report (clock (S tick))
                             results analysis)
                   else TestReporter.generateXmlReport (clock (S tick))
                          results analysis)
                  fs1 with
          | (fs2, Some e) => (Thrown e, fs2)
          | (fs2, None) =>
              (Returned (path_join outputPath
                           (ReportNames.report_name (clock tick) format)),
               fs2)
          end
        else (Thrown ("Unsupported report format: " ++ format), fs1)
    end.
Proof.
  unfold TestReporter.generateReport, ReportNames.supported,
    ReportNames.report_name, TestReporter.generateJsonReport.
  cbn [TestReporter.format TestReporter.outputPath TestReporter.filename
       TestReporter.includeTimestamp JS.or_else].
  destruct (mkdir_recursive outputPath fs) as [fs1 [e|]]; [reflexivity|].
  destruct (String.eqb format "json"); [reflexivity|].
  destruct (String.eqb format "xml"); reflexivity.
Qed.

Lemma report_loop_paths (formats : list string) :
  forall tick acc fs paths fs',
    TestRunner.report_loop FS mkdir_recursive writeFile path_join
      JSON_stringify clock results analysis outputPath tick formats acc fs
    = (Returned paths, fs') ->
    paths = (acc ++ ReportNames.expected_paths path_join clock outputPath
                      tick formats)%list
    /\ forallb ReportNames.supported formats = true.
Proof.
  induction formats as [|format rest IH]; intros tick acc fs paths fs'.
  - cbn. intros [= <- _]. now rewrite app_nil_r.
  - cbn [TestRunner.report_loop ReportNames.expected_paths forallb].
    rewrite report_of_format.
    destruct (mkdir_recursive outputPath fs) as [fs1 [e|]]; [discriminate|].
    destruct (ReportNames.supported format); [|discriminate].
    destruct (writeFile _ _ fs1) as [fs2 [e|]]; [discriminate|].
    intros Hloop. apply IH in Hloop as [-> ->].
    now rewrite <- app_assoc.
Qed.

Lemma report_loop_app (done rest : list string) :
  forall tick acc fs,
    TestRunner.report_loop FS mkdir_recursive writeFile path_join
      JSON_stringify clock results analysis outputPath tick
      (done ++ rest)%list acc fs
    = match TestRunner.report_loop FS mkdir_recursive writeFile path_join
              JSON_stringify clock results analysis outputPath tick done
              acc fs with
      | (Returned paths, fs1) =>
          TestRunner.report_loop FS mkdir_recursive writeFile path_join
            JSON_stringify clock results analysis outputPath
            (tick + 2 * List.length done) rest paths fs1
      | (Thrown e, fs1) => (Thrown e, fs1)
      end.
Proof.
  induction done as [|format done IH]; intros tick acc fs.
  - cbn. now rewrite Nat.add_0_r.
  - cbn [app TestRunner.report_loop List.length].
    destruct (TestReporter.generateReport _ _ _ _ _ _ _ _ _ _ fs)
      as [[path|e] fs1]; [|reflexivity].
    rewrite IH.
    replace (S (S tick) + 2 * List.length done)%nat
      with (tick + 2 * S (List.length done))%nat by lia.
    reflexivity.
Qed.

(** X11. When generateReport of a runner succeeds, it returns one path
    per format, in the order of the formats; every format is json or xml;
    the report of the i-th format is named test-report, hyphen, the clock
    reading taken for it with colons replaced, dot, format, in the output
    directory: the name always carries a timestamp. *)
Theorem runner_reports_one_path_per_format
    (formats : list string) (fs : FS) (paths : list string) (fs' : FS) :
  TestRunner.generateReport FS mkdir_recursive writeFile path_join
    JSON_stringify clock results analysis outputPath formats fs
  = (Returned paths, fs') ->
  paths = ReportNames.expected_paths path_join clock outputPath 0 formats
  /\ List.length paths = List.length formats
  /\ forallb ReportNames.supported formats = true.
Proof.
  intros Hrun. unfold TestRunner.generateReport in Hrun.
  apply report_loop_paths in Hrun as [-> Hall]. cbn [app].
  split; [reflexivity|]. split; [|exact Hall].
  generalize 0%nat. induction formats as [|f rest IH]; intros tick;
    cbn [ReportNames.expected_paths List.length forallb] in *;
    [reflexivity|].
  apply andb_true_iff in Hall as [_ Hall]. now rewrite IH.
Qed.

(** X12. Reports are not rolled back: when the reports of the first
    formats have been written and the next format is neither json nor xml,
    generateReport of a runner fails reporting that format, the formats
    after it are not looked at, and the file system is the one the earlier
    reports left, with the output directory created once more. *)
Theorem runner_reports_stop_at_unsupported_format
    (done rest : list string) (format : string) (fs fs1 : FS)
    (paths : list string) :
  TestRunner.generateReport FS mkdir_recursive writeFile path_join
    JSON_stringify clock results analysis outputPath done fs
  = (Returned paths, fs1) ->
  ReportNames.supported format = false ->
  snd (mkdir_recursive outputPath fs1) = None ->
  TestRunner.generateReport FS mkdir_recursive writeFile path_join
    JSON_stringify clock results analysis outputPath
    (done ++ format :: rest)%list fs
  = (Thrown ("Unsupported report format: " ++ format),
     fst (mkdir_recursive outputPath fs1)).
Proof.
  unfold TestRunner.generateReport. intros Hdone Hbad Hmkdir.
  rewrite report_loop_app, Hdone.
  cbn [TestRunner.report_loop]. rewrite report_of_format, Hbad.
  destruct (mkdir_recursive outputPath fs1) as [fs2 [e|]];
    [discriminate | reflexivity].
Qed.

End ReportLoop.

Lemma runner_reports_one_path_per_format_witness :
  [ "reports/test-report-2024-01-01T00-00-00.000Z.json";
    "reports/test-report-2024-01-01T00-00-02.000Z.xml" ]
  = ReportNames.expected_paths Sample.path_join Scenario.clock "reports" 0
      ["json"; "xml"].
Proof.
  apply (runner_reports_one_path_per_format Sample.Disk
           Sample.mkdir_recursive Sample.writeFile Sample.path_join
           Sample.JSON_stringify Scenario.clock
           [Sample.needs_escaping]
           (JestTestRunner.analyzeResults [Sample.needs_escaping])
           "reports" ["json"; "xml"] Sample.empty_disk
           [ "reports/test-report-2024-01-01T00-00-00.000Z.json";
             "reports/test-report-2024-01-01T00-00-02.000Z.xml" ]
           (snd (TestRunner.generateReport Sample.Disk
                   Sample.mkdir_recursive Sample.writeFile Sample.path_join
                   Sample.JSON_stringify Scenario.clock
                   [Sample.needs_escaping]
                   (JestTestRunner.analyzeResults [Sample.needs_escaping])
                   "reports" ["json"; "xml"] Sample.empty_disk))).
  vm_compute. reflexivity.
Defined.

Lemma runner_reports_stop_at_unsupported_format_witness :
  TestRunner.generateReport Sample.Disk Sample.mkdir_recursive
    Sample.writeFile Sample.path_join Sample.JSON_stringify Scenario.clock
    [Sample.needs_escaping]
    (JestTestRunner.analyzeResults [Sample.needs_escaping])
    "reports" (["xml"] ++ "html" :: ["json"])%list Sample.empty_disk
  = (Thrown "Unsupported report format: html",
     {| Sample.dirs := ["reports"];
        Sample.files :=
          [("reports/test-report-2024-01-01T00-00-00.000Z.xml",
            TestReporter.generateXmlReport (Scenario.clock 1)
              [Sample.needs_escaping]
              (JestTestRunner.analyzeResults [Sample.needs_escaping]))] |}).
Proof.
  apply (runner_reports_stop_at_unsupported_format Sample.Disk
           Sample.mkdir_recursive Sample.writeFile Sample.path_join
           Sample.JSON_stringify Scenario.clock
           [Sample.needs_escaping]
           (JestTestRunner.analyzeResults [Sample.needs_escaping])
           "reports" ["xml"] ["json"] "html" Sample.empty_disk
           {| Sample.dirs := ["reports"];
              Sample.files :=
                [("reports/test-report-2024-01-01T00-00-00.000Z.xml",
                  TestReporter.generateXmlReport (Scenario.clock 1)
                    [Sample.needs_escaping]
                    (JestTestRunner.analyzeResults [Sample.needs_escaping]))]
           |}
           ["reports/test-report-2024-01-01T00-00-00.000Z.xml"]);
    vm_compute; reflexivity.
Defined.

(** ** The body of a function *)

Lemma count_char_app (c : ascii) (a b : string) :
  Text.count_char c (a ++ b)
  = (Text.count_char c a + Text.count_char c b)%nat.
Proof.
  induction a as [|x a IH]; simpl; [reflexivity|].
  destruct (Ascii.eqb x c); simpl; now rewrite IH.
Qed.

Lemma substring_of_drop (n : nat) (code body rest : string) :
  Text.drop n code = body ++ rest ->
  (n <= String.length code)%nat ->
  String.substring n (String.length body) code = body.
Proof.
  revert code. induction n as [|n IH]; intros code Hdrop Hlen.
  - cbn in Hdrop. subst code. clear Hlen.
    induction body as [|c body IHb]; cbn.
    + now destruct rest.
    + now rewrite IHb.
  - destruct code as [|c code]; [cbn in Hlen; lia|].
    cbn in *. apply IH; [assumption | lia].
Qed.

Lemma substring_empty (n : nat) (code : string) :
  String.substring n 0 code = "".
Proof.
  revert code. induction n as [|n IH]; intros [|c code]; cbn; auto.
Qed.

(** While every prefix leaves the count above 0, the loop does not
    break. *)
Lemma scan_braces_none (s : string) :
  forall k i,
    (forall p q, s = p ++ q ->
                 (Z.of_nat (Text.count_char "}" p)
                  < k + Z.of_nat (Text.count_char "{" p))%Z) ->
    CodeParser.scan_braces s k i = None.
Proof.
  induction s as [|c s IH]; intros k i Hopen; [reflexivity|].
  cbn [CodeParser.scan_braces].
  pose proof (Hopen (String c "") s eq_refl) as Hfirst.
  cbn [Text.count_char] in Hfirst.
  assert (Hnext : forall p q, s = p ++ q ->
             (Z.of_nat (Text.count_char "}" p)
              < (k + (if Ascii.eqb c "{" then 1 else 0)
                 - (if Ascii.eqb c "}" then 1 else 0))
                + Z.of_nat (Text.count_char "{" p))%Z).
  { intros p q ->. pose proof (Hopen (String c p) q eq_refl) as Hp.
    cbn [Text.count_char] in Hp.
    destruct (Ascii.eqb c "{"), (Ascii.eqb c "}"); lia. }
  destruct (Ascii.eqb c "{") eqn:Ho, (Ascii.eqb c "}") eqn:Hc;
    cbn [Text.count_char] in Hfirst.
  - apply Ascii.eqb_eq in Ho, Hc. congruence.
  - destruct (k + 1 =? 0)%Z eqn:Hz; [lia|].
    apply IH. intros p q Hpq. specialize (Hnext p q Hpq). lia.
  - destruct (k - 1 =? 0)%Z eqn:Hz; [lia|].
    apply IH. intros p q Hpq. specialize (Hnext p q Hpq). lia.
  - destruct (k =? 0)%Z eqn:Hz; [lia|].
    apply IH. intros p q Hpq. specialize (Hnext p q Hpq). lia.
Qed.

(** The loop breaks at the brace that closes a balanced text. *)
Lemma scan_braces_some (body : string) :
  forall rest k i,
    (forall p q, body = p ++ q ->
                 (Z.of_nat (Text.count_char "}" p)
                  < k + Z.of_nat (Text.count_char "{" p))%Z) ->
    (Z.of_nat (Text.count_char "}" body) + 1
     = k + Z.of_nat (Text.count_char "{" body))%Z ->
    CodeParser.scan_braces (body ++ String "}" rest) k i
    = Some (i + String.length body)%nat.
Proof.
  induction body as [|c body IH]; intros rest k i Hopen Hbal.
  - cbn in *. replace (k - 1 =? 0)%Z with true by lia.
    now rewrite Nat.add_0_r.
  - cbn [String.append CodeParser.scan_braces String.length].
    pose proof (Hopen (String c "") body eq_refl) as Hfirst.
    assert (Hnext : forall p q, body = p ++ q ->
               (Z.of_nat (Text.count_char "}" p)
                < (k + (if Ascii.eqb c "{" then 1 else 0)
                   - (if Ascii.eqb c "}" then 1 else 0))
                  + Z.of_nat (Text.count_char "{" p))%Z).
    { intros p q ->. pose proof (Hopen (String c p) q eq_refl) as Hp.
      cbn [Text.count_char] in Hp.
      destruct (Ascii.eqb c "{"), (Ascii.eqb c "}"); lia. }
    cbn [Text.count_char] in Hfirst, Hbal.
    replace (i + S (String.length body))%nat
      with (S i + String.length body)%nat by lia.
    destruct (Ascii.eqb c "{") eqn:Ho, (Ascii.eqb c "}") eqn:Hc;
      cbn [Text.count_char] in Hfirst.
    + apply Ascii.eqb_eq in Ho, Hc. congruence.
    + destruct (k + 1 =? 0)%Z eqn:Hz; [lia|].
      apply IH; [|lia]. intros p q Hpq. specialize (Hnext p q Hpq). lia.
    + destruct (k - 1 =? 0)%Z eqn:Hz; [lia|].
      apply IH; [|lia]. intros p q Hpq. specialize (Hnext p q Hpq). lia.
    + destruct (k =? 0)%Z eqn:Hz; [lia|].
      apply IH; [|lia]. intros p q Hpq. specialize (Hnext p q Hpq). lia.
Qed.

(** X17. The body of a function is the text up to the brace that closes
    the declaration: if, from the start index, the code reads a text whose
    braces are balanced (no prefix closes more than it opens, and the whole
    opens as many as it closes) followed by a closing brace, that text is
    the body. Braces count wherever they stand, in strings and comments
    too. *)
Theorem function_body_is_the_balanced_text
    (code : string) (startIndex : nat) (body rest : string) :
  (startIndex <= String.length code)%nat ->
  Text.drop startIndex code = body ++ String "}" rest ->
  (forall p q, body = p ++ q ->
               (Text.count_char "}" p <= Text.count_char "{" p)%nat) ->
  Text.count_char "}" body = Text.count_char "{" body ->
  CodeParser.function_body code startIndex = body.
Proof.
  intros Hstart Hdrop Hprefix Hbal. unfold CodeParser.function_body.
  rewrite Hdrop, scan_braces_some.
  - replace (startIndex + String.length body - startIndex)%nat
      with (String.length body) by lia.
    now apply (substring_of_drop _ _ _ (String "}" rest)).
  - intros p q Hpq. specialize (Hprefix p q Hpq). lia.
  - lia.
Qed.

(** X18. A function whose braces never close gets the empty body: if no
    prefix of the code after the start index closes more braces than it
    opens, the body is the empty string, not the rest of the file. *)
Theorem unclosed_function_has_empty_body (code : string) (startIndex : nat) :
  (forall p q, Text.drop startIndex code = p ++ q ->
               (Text.count_char "}" p <= Text.count_char "{" p)%nat) ->
  CodeParser.function_body code startIndex = "".
Proof.
  intros Hopen. unfold CodeParser.function_body.
  rewrite scan_braces_none.
  - rewrite Nat.sub_diag. apply substring_empty.
  - intros p q Hpq. specialize (Hopen p q Hpq). lia.
Qed.

Lemma never_closes_more_spec (s : string) :
  forall depth,
    Text.never_closes_more s depth = true ->
    forall p q, s = p ++ q ->
                (Text.count_char "}" p <= depth + Text.count_char "{" p)%nat.
Proof.
  induction s as [|c s IH]; intros depth Hcheck p q Hpq.
  - destruct p; [cbn; lia | discriminate].
  - destruct p as [|x p]; [cbn; lia|].
    injection Hpq as <- Hpq. cbn [Text.never_closes_more] in Hcheck.
    cbn [Text.count_char].
    destruct (Ascii.eqb c "{") eqn:Ho.
    + assert (Hc : Ascii.eqb c "}" = false).
      { apply Ascii.eqb_eq in Ho. now subst c. }
      rewrite Hc. specialize (IH _ Hcheck p q Hpq). lia.
    + destruct (Ascii.eqb c "}") eqn:Hc.
      * destruct depth as [|d]; [discriminate|].
        specialize (IH _ Hcheck p q Hpq). lia.
      * specialize (IH _ Hcheck p q Hpq). lia.
Qed.

Lemma function_body_is_the_balanced_text_witness :
  CodeParser.function_body Scenario.closed_function 15
  = " if (x) { return 1; } return 0; ".
Proof.
  apply (function_body_is_the_balanced_text Scenario.closed_function 15
           " if (x) { return 1; } return 0; " " f(1);").
  - cbn. lia.
  - reflexivity.
  - intros p q Hpq.
    apply (never_closes_more_spec " if (x) { return 1; } return 0; " 0
             eq_refl p q Hpq).
  - reflexivity.
Defined.

Lemma unclosed_function_has_empty_body_witness :
  CodeParser.function_body Scenario.unclosed_function 15 = "".
Proof.
  apply (unclosed_function_has_empty_body Scenario.unclosed_function 15).
  intros p q Hpq.
  apply (never_closes_more_spec
           (Text.drop 15 Scenario.unclosed_function) 0 eq_refl p q Hpq).
Defined.

(** ** Walking a directory *)

Section DirectoryWalk.

Variable ParsedModule : Type.
Variable parseCode : string -> string -> ParsedModule.
Variable path_join : string -> string -> string.
Variable path_extname : string -> string.
Variable fileExtensions : list string.

Let files (dirPath : string) (d : CodeParser.Dir) :=
  CodeParser.files_to_parse path_join path_extname dirPath d fileExtensions.

Let walk (dirPath : string) (d : CodeParser.Dir) :=
  CodeParser.parseDirectory ParsedModule parseCode path_join path_extname
    dirPath d fileExtensions.

Let walkable (dirPath : string) (d : CodeParser.Dir) : bool :=
  CodeParser.listable d && forallb CodeParser.readable (files dirPath d).

Let walk_spec (d : CodeParser.Dir) : Prop :=
  forall dirPath,
    if walkable dirPath d
    then walk dirPath d
         = Returned (flat_map (CodeParser.module_of ParsedModule parseCode)
                              (files dirPath d))
    else exists m,
        walk dirPath d
        = Thrown ("Failed to parse directory " ++ dirPath ++ ": " ++ m).

Lemma parseDirectory_spec (d : CodeParser.Dir) : walk_spec d.
Proof.
  induction d as [m|entries IH] using Dir_nested_ind; intros dirPath;
    unfold walk_spec, walk, walkable, files in *.
  - cbn. now exists m.
  - cbn beta.
    cbn [CodeParser.parseDirectory CodeParser.listable
         CodeParser.files_to_parse].
    set (failed := fun m : string =>
           @Thrown (list ParsedModule)
             ("Failed to parse directory " ++ dirPath ++ ": " ++ m)).
    set (recurse := fun path sub =>
           CodeParser.parseDirectory ParsedModule parseCode path_join
             path_extname path sub fileExtensions).
    set (entry_files := fun entry =>
           match entry with
           | CodeParser.DirEntry name sub =>
               CodeParser.files_to_parse path_join path_extname
                 (path_join dirPath name) sub fileExtensions
           | CodeParser.FileEntry name content =>
               if CodeParser.includes_ext fileExtensions (path_extname name)
               then [(path_join dirPath name, content)] else []
           | CodeParser.OtherEntry _ => []
           end).
    set (entry_ok := fun entry =>
           match entry with
           | CodeParser.DirEntry _ sub => CodeParser.listable sub
           | _ => true
           end).
    assert (Hloop : forall modules,
               if forallb entry_ok entries
                  && forallb CodeParser.readable (flat_map entry_files entries)
               then CodeParser.parse_entries ParsedModule parseCode path_join
                      path_extname recurse failed dirPath fileExtensions
                      entries modules
                    = Returned
                        (modules
                         ++ flat_map
                              (CodeParser.module_of ParsedModule parseCode)
                              (flat_map entry_files entries))%list
               else exists m,
                   CodeParser.parse_entries ParsedModule parseCode path_join
                     path_extname recurse failed dirPath fileExtensions
                     entries modules
                   = failed m).
    { induction IH as [|entry rest Hentry _ IHrest]; intros modules.
      - cbn. now rewrite app_nil_r.
      - cbn [forallb flat_map CodeParser.parse_entries].
        rewrite forallb_app, flat_map_app.
        destruct entry as [name content|name sub|name].
        + cbn [entry_ok entry_files].
          destruct (CodeParser.includes_ext fileExtensions (path_extname name)).
          * destruct content as [code|m];
              cbn [forallb CodeParser.readable snd CodeParser.parseFile
                   flat_map CodeParser.module_of fst andb app].
            -- specialize (IHrest (modules ++ [parseCode code
                                                 (path_join dirPath name)])%list).
               destruct (forallb entry_ok rest
                         && forallb CodeParser.readable
                              (flat_map entry_files rest)).
               ++ rewrite IHrest, <- app_assoc. reflexivity.
               ++ exact IHrest.
            -- rewrite andb_false_r. eexists. reflexivity.
          * cbn [forallb andb flat_map app]. apply IHrest.
        + cbn [entry_ok entry_files].
          specialize (Hentry (path_join dirPath name)).
          cbn beta in Hentry.
          fold (recurse (path_join dirPath name) sub) in Hentry.
          destruct (CodeParser.listable sub) eqn:Hsub; cbn [andb] in *.
          * destruct (forallb CodeParser.readable
                        (CodeParser.files_to_parse path_join path_extname
                           (path_join dirPath name) sub fileExtensions))
              eqn:Hfiles; cbn [andb] in *.
            -- rewrite Hentry.
               specialize (IHrest
                             (modules
                              ++ flat_map
                                   (CodeParser.module_of ParsedModule parseCode)
                                   (CodeParser.files_to_parse path_join
                                      path_extname (path_join dirPath name)
                                      sub fileExtensions))%list).
               destruct (forallb entry_ok rest
                         && forallb CodeParser.readable
                              (flat_map entry_files rest)).
               ++ rewrite IHrest, <- app_assoc. reflexivity.
               ++ exact IHrest.
            -- rewrite andb_false_r. destruct Hentry as [m ->].
               eexists. reflexivity.
          * destruct Hentry as [m ->]. eexists. reflexivity.
        + cbn [entry_ok entry_files andb app]. apply IHrest. }
    specialize (Hloop []).
    destruct (forallb entry_ok entries
              && forallb CodeParser.readable (flat_map entry_files entries));
      exact Hloop.
Qed.

(** X19. parseDirectory succeeds exactly when every directory of the
    tree can be listed and every file whose extension is among the given
    ones can be read; it then returns the modules of exactly those files,
    depth first in the order of the listings. Files with another extension
    and entries that are neither file nor directory are not read: whether
    they can be read makes no difference. *)
Theorem parseDirectory_parses_the_listed_extensions
    (dirPath : string) (d : CodeParser.Dir) :
  ((exists modules,
       CodeParser.parseDirectory ParsedModule parseCode path_join
         path_extname dirPath d fileExtensions
       = Returned modules)
   <-> CodeParser.listable d
       && forallb CodeParser.readable
            (CodeParser.files_to_parse path_join path_extname dirPath d
               fileExtensions) = true)
  /\ (forall modules,
         CodeParser.parseDirectory ParsedModule parseCode path_join
           path_extname dirPath d fileExtensions
         = Returned modules ->
         modules
         = flat_map (CodeParser.module_of ParsedModule parseCode)
             (CodeParser.files_to_parse path_join path_extname dirPath d
                fileExtensions)).
Proof.
  pose proof (parseDirectory_spec d dirPath) as Hspec.
  unfold walk_spec, walk, walkable, files in Hspec. cbn beta in Hspec.
  destruct (CodeParser.listable d
            && forallb CodeParser.readable
                 (CodeParser.files_to_parse path_join path_extname dirPath d
                    fileExtensions)).
  - rewrite Hspec. split.
    + split; [reflexivity | intros _; eexists; reflexivity].
    + now intros modules [= <-].
  - destruct Hspec as [m ->]. split.
    + split; [intros [modules H]; discriminate | discriminate].
    + discriminate.
Qed.

Lemma parse_entries_failure (dirPath message : string)
    (entries : list CodeParser.Entry) (modules : list ParsedModule) :
  CodeParser.parse_entries ParsedModule parseCode path_join path_extname
    (fun path sub => walk path sub)
    (fun m => Thrown ("Failed to parse directory " ++ dirPath ++ ": " ++ m))
    dirPath fileExtensions entries modules
  = Thrown message ->
  exists name m,
    (In (CodeParser.FileEntry name (Thrown m)) entries
     /\ message
        = "Failed to parse directory " ++ dirPath ++ ": "
          ++ "Failed to parse file " ++ path_join dirPath name ++ ": " ++ m)
    \/ (exists sub,
           In (CodeParser.DirEntry name sub) entries
           /\ message
              = "Failed to parse directory " ++ dirPath ++ ": "
                ++ "Failed to parse directory " ++ path_join dirPath name
                ++ ": " ++ m).
Proof.
  revert modules.
  induction entries as [|entry rest IH]; intros modules;
    cbn [CodeParser.parse_entries]; [discriminate|].
  assert (Hrest : forall modules',
             CodeParser.parse_entries ParsedModule parseCode path_join
               path_extname (fun path sub => walk path sub)
               (fun m => Thrown ("Failed to parse directory " ++ dirPath
                                 ++ ": " ++ m))
               dirPath fileExtensions rest modules'
             = Thrown message ->
             exists name m,
               (In (CodeParser.FileEntry name (Thrown m)) (entry :: rest)
                /\ message
                   = "Failed to parse directory " ++ dirPath ++ ": "
                     ++ "Failed to parse file " ++ path_join dirPath name
                     ++ ": " ++ m)
               \/ (exists sub,
                      In (CodeParser.DirEntry name sub) (entry :: rest)
                      /\ message
                         = "Failed to parse directory " ++ dirPath ++ ": "
                           ++ "Failed to parse directory "
                           ++ path_join dirPath name ++ ": " ++ m)).
  { intros modules' Hfail.
    destruct (IH modules' Hfail) as (name & m & [[Hin ->]|(sub & Hin & ->)]);
      exists name, m; [left|right; exists sub]; split;
      solve [now right | reflexivity]. }
  destruct entry as [name content|name sub|name].
  - destruct (CodeParser.includes_ext fileExtensions (path_extname name));
      [|apply Hrest].
    destruct content as [code|m]; cbn [CodeParser.parseFile];
      [apply Hrest|].
    intros [= <-]. exists name, m. left. split; [now left|reflexivity].
  - pose proof (parseDirectory_spec sub (path_join dirPath name)) as Hsub.
    unfold walk, walkable, files in *. cbn beta in Hsub.
    destruct (CodeParser.listable sub && _).
    + rewrite Hsub. apply Hrest.
    + destruct Hsub as [m ->]. intros [= <-].
      exists name, m. right. exists sub. split; [now left|reflexivity].
  - apply Hrest.
Qed.

(** X20. Every failure of parseDirectory carries the prefix Failed to
    parse directory and the path of the directory it was called on, before
    the message of what failed below: the listing of the directory itself,
    in which case that message follows as it is, or an entry of the
    listing, which has added its own prefix: Failed to parse file and its
    path for a file that cannot be read, Failed to parse directory and its
    path for a directory in which something failed. *)
Theorem parseDirectory_failure_is_prefixed
    (dirPath : string) (d : CodeParser.Dir) (message : string) :
  CodeParser.parseDirectory ParsedModule parseCode path_join path_extname
    dirPath d fileExtensions
  = Thrown message ->
  (exists m, message = "Failed to parse directory " ++ dirPath ++ ": " ++ m)
  /\ (forall m, d = CodeParser.mkDir (Thrown m) ->
                message = "Failed to parse directory " ++ dirPath ++ ": " ++ m)
  /\ (forall entries,
         d = CodeParser.mkDir (Returned entries) ->
         exists name m,
           (In (CodeParser.FileEntry name (Thrown m)) entries
            /\ message
               = "Failed to parse directory " ++ dirPath ++ ": "
                 ++ "Failed to parse file " ++ path_join dirPath name
                 ++ ": " ++ m)
           \/ (exists sub,
                  In (CodeParser.DirEntry name sub) entries
                  /\ message
                     = "Failed to parse directory " ++ dirPath ++ ": "
                       ++ "Failed to parse directory "
                       ++ path_join dirPath name ++ ": " ++ m)).
Proof.
  intros Hfail. split; [|split].
  - pose proof (parseDirectory_spec d dirPath) as Hspec.
    unfold walk_spec, walk, walkable, files in Hspec. cbn beta in Hspec.
    destruct (CodeParser.listable d && _).
    + rewrite Hspec in Hfail. discriminate.
    + destruct Hspec as [m Hm]. rewrite Hm in Hfail.
      injection Hfail as <-. now exists m.
  - intros m ->. cbn in Hfail. now injection Hfail as <-.
  - intros entries ->. cbn [CodeParser.parseDirectory] in Hfail.
    eapply parse_entries_failure. exact Hfail.
Qed.

End DirectoryWalk.

Lemma parseDirectory_failure_is_prefixed_witness :
  exists m,
    "Failed to parse directory src: Failed to parse directory src/lib: "
    ++ "EACCES: permission denied, scandir 'src/lib'"
    = "Failed to parse directory " ++ "src" ++ ": " ++ m.
Proof.
  apply (parseDirectory_failure_is_prefixed (string * string)
           Scenario.keep_code Sample.path_join Scenario.extname
           CodeParser.default_extensions "src"
           (Scenario.source_tree Scenario.unlistable)
           ("Failed to parse directory src: Failed to parse directory src/lib: "
            ++ "EACCES: permission denied, scandir 'src/lib'")).
  vm_compute. reflexivity.
Defined.

(** The unreadable picture is skipped: the walk succeeds on the tree
    whose subdirectory holds one more module. *)
Example parseDirectory_walk :
  CodeParser.parseDirectory (string * string) Scenario.keep_code
    Sample.path_join Scenario.extname "src"
    (Scenario.source_tree
       (CodeParser.mkDir
          (Returned [ CodeParser.FileEntry "b.tsx" (Returned "export class B {}");
                      CodeParser.OtherEntry "socket" ])))
    CodeParser.default_extensions
  = Returned [ ("src/a.ts", "export const a = 1;");
               ("src/lib/b.tsx", "export class B {}") ].
Proof. vm_compute. reflexivity. Qed.

(** ** Test cases from a completion *)

(** X21. Every failure of generateTestCases carries the prefix Failed to
    generate test cases. A completion that does not decode fails with that
    prefix followed by Failed to parse test cases and the decoder's
    message: the error of the inner catch reaches the caller, so a test
    for the text Failed to parse test cases passes. When the source file
    cannot be read the agent is not asked: the failure is the same for
    every agent. *)
Theorem generateTestCases_failures
    (readFile : string -> Outcome string)
    (JSON_parse : string -> string + json)
    (path_basename : string -> string)
    (filePath config_type : string) :
  (forall m agent,
      readFile filePath = Thrown m ->
      AITestGenerator.generateTestCases readFile agent JSON_parse
        path_basename filePath config_type
      = Thrown ("Failed to generate test cases: " ++ m))
  /\ (forall agent content result m,
         readFile filePath = Returned content ->
         agent (AITestGenerator.test_cases_prompt path_basename config_type
                  filePath content)
         = Returned result ->
         JSON_parse result = inl m ->
         AITestGenerator.generateTestCases readFile agent JSON_parse
           path_basename filePath config_type
         = Thrown ("Failed to generate test cases: "
                   ++ "Failed to parse test cases: " ++ m)
         /\ Text.includes "Failed to parse test cases"
              ("Failed to generate test cases: "
               ++ "Failed to parse test cases: " ++ m) = true)
  /\ (forall agent message,
         AITestGenerator.generateTestCases readFile agent JSON_parse
           path_basename filePath config_type
         = Thrown message ->
         JS.starts_with "Failed to generate test cases: " message = true).
Proof.
  split.
  { intros m agent Hread.
    unfold AITestGenerator.generateTestCases, AITestGenerator.generate_try.
    now rewrite Hread. }
  split.
  { intros agent content result m Hread Hagent Hparse. split.
    - unfold AITestGenerator.generateTestCases, AITestGenerator.generate_try.
      now rewrite Hread, Hagent, Hparse.
    - apply includes_spec.
      exists "Failed to generate test cases: ", (": " ++ m). reflexivity. }
  intros agent message.
  unfold AITestGenerator.generateTestCases.
  destruct (AITestGenerator.generate_try _ _ _ _ _ _) as [v|m];
    [discriminate|].
  intros [= <-]. apply starts_with_spec. now exists m.
Qed.

(** ** The completion request *)

(** X22. generateCompletion cannot ask for a temperature of 0, a limit
    of 0 tokens or an empty model name: each is replaced by its default
    (0.3, 2000, the model of the agent), so the request never has a zero
    temperature or a zero limit, and options made of these values give
    the same outcome as no options. *)
Theorem completion_request_never_zero :
  (forall agent prompt options,
      let request := OpenAIAgent.completion_request agent prompt options in
      ~ (OpenAIAgent.request_temperature request == 0)%Q
      /\ OpenAIAgent.max_tokens request <> 0%Z
      /\ OpenAIAgent.request_prompt request = prompt)
  /\ (forall create agent prompt zero,
         (zero == 0)%Q ->
         OpenAIAgent.generateCompletion create agent prompt
           {| OpenAIAgent.option_model := Some "";
              OpenAIAgent.temperature := Some zero;
              OpenAIAgent.maxTokens := Some 0%Z |}
         = OpenAIAgent.generateCompletion create agent prompt
             OpenAIAgent.no_options).
Proof.
  split.
  - intros agent prompt options request. subst request.
    unfold OpenAIAgent.completion_request.
    cbn [OpenAIAgent.request_temperature OpenAIAgent.max_tokens
         OpenAIAgent.request_prompt].
    split; [|split; [|reflexivity]].
    + destruct (OpenAIAgent.temperature options) as [q|]; [|discriminate].
      destruct (Qeq_bool q 0) eqn:Hq; [discriminate|].
      intros Hzero. apply Qeq_bool_iff in Hzero. congruence.
    + destruct (OpenAIAgent.maxTokens options) as [n|]; [|discriminate].
      destruct (n =? 0)%Z eqn:Hn; [discriminate|].
      now apply Z.eqb_neq.
  - intros create agent prompt zero Hzero.
    unfold OpenAIAgent.generateCompletion, OpenAIAgent.completion_request.
    cbn [OpenAIAgent.option_model OpenAIAgent.temperature
         OpenAIAgent.maxTokens OpenAIAgent.no_options JS.or_else JS.truthy].
    apply Qeq_bool_iff in Hzero. now rewrite Hzero.
Qed.

(** X23. executeTask fails on every task other than generate-test,
    analyze-code and suggest-improvements with Unknown task and the task,
    without asking the client. The two analysis tasks do not fail on a
    completion that is not JSON: they return the fixed error text with the
    raw completion. Whatever the task, a failure other than Unknown task
    carries the prefix Failed to generate completion. *)
Theorem executeTask_outcomes
    (create : OpenAIAgent.ChatRequest -> Outcome (list OpenAIAgent.Choice))
    (JSON_parse : string -> string + json)
    (JSON_stringify_indented : json -> string)
    (agent : OpenAIAgent.t) (task : string)
    (inputs : OpenAIAgent.TaskInputs) :
  let run :=
    OpenAIAgent.executeTask create JSON_parse JSON_stringify_indented
      agent task inputs in
  (task <> "generate-test" /\ task <> "analyze-code"
   /\ task <> "suggest-improvements" ->
   run = Thrown ("Unknown task: " ++ task))
  /\ (forall text m,
         OpenAIAgent.generateCompletion create agent
           (OpenAIAgent.analyze_code_prompt (OpenAIAgent.code inputs))
           OpenAIAgent.no_options
         = Returned text ->
         JSON_parse text = inl m ->
         task = "analyze-code" ->
         run = Returned (OpenAIAgent.Unparsed "Failed to parse analysis" text))
  /\ (forall text m,
         OpenAIAgent.generateCompletion create agent
           (OpenAIAgent.suggest_improvements_prompt JSON_stringify_indented
              (OpenAIAgent.code inputs) (OpenAIAgent.testResults inputs))
           OpenAIAgent.no_options
         = Returned text ->
         JSON_parse text = inl m ->
         task = "suggest-improvements" ->
         run = Returned (OpenAIAgent.Unparsed "Failed to parse suggestions"
                           text))
  /\ (forall message,
         run = Thrown message ->
         message = "Unknown task: " ++ task
         \/ JS.starts_with "Failed to generate completion: " message = true).
Proof.
  intros run. subst run.
  assert (Hprefix : forall prompt options message,
             OpenAIAgent.generateCompletion create agent prompt options
             = Thrown message ->
             JS.starts_with "Failed to generate completion: " message = true).
  { intros prompt options message. unfold OpenAIAgent.generateCompletion.
    destruct (OpenAIAgent.client agent); [|now intros [= <-]].
    destruct (create _) as [choices|m]; [discriminate|].
    intros [= <-]. apply starts_with_spec. now exists m. }
  split.
  { intros (H1 & H2 & H3). unfold OpenAIAgent.executeTask.
    apply String.eqb_neq in H1, H2, H3. now rewrite H1, H2, H3. }
  split.
  { intros text m Hgen Hparse ->. cbn.
    unfold OpenAIAgent.analyzeCode. now rewrite Hgen, Hparse. }
  split.
  { intros text m Hgen Hparse ->. cbn.
    unfold OpenAIAgent.suggestImprovements. now rewrite Hgen, Hparse. }
  intros message. unfold OpenAIAgent.executeTask.
  destruct (String.eqb task "generate-test").
  { unfold OpenAIAgent.generateTest.
    destruct (OpenAIAgent.generateCompletion _ _ _ _) as [text|m] eqn:Hgen;
      [discriminate|].
    intros [= <-]. right. eapply Hprefix, Hgen. }
  destruct (String.eqb task "analyze-code").
  { unfold OpenAIAgent.analyzeCode.
    destruct (OpenAIAgent.generateCompletion _ _ _ _) as [text|m] eqn:Hgen.
    - destruct (JSON_parse text); discriminate.
    - intros [= <-]. right. eapply Hprefix, Hgen. }
  destruct (String.eqb task "suggest-improvements").
  { unfold OpenAIAgent.suggestImprovements.
    destruct (OpenAIAgent.generateCompletion _ _ _ _) as [text|m] eqn:Hgen.
    - destruct (JSON_parse text); discriminate.
    - intros [= <-]. right. eapply Hprefix, Hgen. }
  intros [= <-]. now left.
Qed.

(** ** The map of agents *)

Lemma map_get_set_same (key : string) (value : OpenAIAgent.t)
    (agents : AgentManager.Agents) :
  AgentManager.map_get key (AgentManager.map_set key value agents)
  = Some value.
Proof.
  induction agents as [|[k v] rest IH]; cbn.
  - now rewrite String.eqb_refl.
  - destruct (String.eqb k key) eqn:E; cbn; now rewrite E.
Qed.

Lemma map_get_set_other (key other : string) (value : OpenAIAgent.t)
    (agents : AgentManager.Agents) :
  other <> key ->
  AgentManager.map_get other (AgentManager.map_set key value agents)
  = AgentManager.map_get other agents.
Proof.
  intros Hother. induction agents as [|[k v] rest IH]; cbn.
  - destruct (String.eqb key other) eqn:E; [|reflexivity].
    apply String.eqb_eq in E. congruence.
  - destruct (String.eqb k key) eqn:E; cbn.
    + apply String.eqb_eq in E. subst k.
      destruct (String.eqb key other) eqn:E'; [|reflexivity].
      apply String.eqb_eq in E'. congruence.
    + now rewrite IH.
Qed.

Lemma map_get_none_iff (key : string) (agents : AgentManager.Agents) :
  AgentManager.map_get key agents = None <-> ~ In key (map fst agents).
Proof.
  induction agents as [|[k v] rest IH]; cbn.
  - tauto.
  - destruct (String.eqb k key) eqn:E.
    + apply String.eqb_eq in E. split; [discriminate|tauto].
    + apply String.eqb_neq in E. rewrite IH. tauto.
Qed.

Lemma map_set_consistent (agent : OpenAIAgent.t)
    (agents : AgentManager.Agents) :
  consistent_agents agents ->
  consistent_agents (AgentManager.registerAgent agent agents).
Proof.
  unfold consistent_agents, AgentManager.registerAgent.
  intros [Hkeys Hids]. split.
  - induction agents as [|[k v] rest IH]; cbn.
    + constructor; [tauto|constructor].
    + destruct (String.eqb k (OpenAIAgent.id agent)) eqn:E; cbn;
        [exact Hkeys|].
      cbn in Hkeys. inversion Hkeys as [|? ? Hfresh Hrest]; subst.
      inversion Hids; subst.
      constructor; [|now apply IH].
      apply map_get_none_iff. rewrite map_get_set_other.
      * now apply map_get_none_iff.
      * now apply String.eqb_neq.
  - clear Hkeys. induction agents as [|[k v] rest IH]; cbn.
    + now repeat constructor.
    + inversion Hids as [|? ? Hhead Hrest]; subst.
      destruct (String.eqb k (OpenAIAgent.id agent)) eqn:E.
      * apply String.eqb_eq in E. constructor; [exact E|exact Hrest].
      * constructor; [exact Hhead|now apply IH].
Qed.

Lemma map_set_length (key : string) (value : OpenAIAgent.t)
    (agents : AgentManager.Agents) :
  List.length (AgentManager.map_set key value agents)
  = match AgentManager.map_get key agents with
    | Some _ => List.length agents
    | None => S (List.length agents)
    end.
Proof.
  induction agents as [|[k v] rest IH]; cbn; [reflexivity|].
  destruct (String.eqb k key); cbn; [reflexivity|].
  rewrite IH. now destruct (AgentManager.map_get key rest).
Qed.

Lemma map_delete_found (key : string) (agents : AgentManager.Agents) :
  fst (AgentManager.map_delete key agents) = true
  <-> AgentManager.map_get key agents <> None.
Proof.
  induction agents as [|[k v] rest IH]; cbn.
  - split; [discriminate|congruence].
  - destruct (String.eqb k key); cbn.
    + split; [discriminate|reflexivity].
    + destruct (AgentManager.map_delete key rest) as [found rest'].
      exact IH.
Qed.

Lemma map_delete_other (key other : string) (agents : AgentManager.Agents) :
  other <> key ->
  AgentManager.map_get other (snd (AgentManager.map_delete key agents))
  = AgentManager.map_get other agents.
Proof.
  intros Hother. induction agents as [|[k v] rest IH]; cbn; [reflexivity|].
  destruct (String.eqb k key) eqn:E; cbn.
  - apply String.eqb_eq in E. subst k.
    destruct (String.eqb key other) eqn:E'; [|reflexivity].
    apply String.eqb_eq in E'. congruence.
  - destruct (AgentManager.map_delete key rest) as [found rest'].
    cbn in *. now rewrite IH.
Qed.

Lemma map_delete_keys (key other : string) (agents : AgentManager.Agents) :
  In other (map fst (snd (AgentManager.map_delete key agents))) ->
  In other (map fst agents).
Proof.
  induction agents as [|[k v] rest IH]; cbn; [tauto|].
  destruct (String.eqb k key); cbn; [tauto|].
  destruct (AgentManager.map_delete key rest) as [found rest'].
  cbn in *. tauto.
Qed.

Lemma map_delete_consistent (key : string) (agents : AgentManager.Agents) :
  consistent_agents agents ->
  consistent_agents (snd (AgentManager.map_delete key agents))
  /\ AgentManager.map_get key (snd (AgentManager.map_delete key agents))
     = None.
Proof.
  unfold consistent_agents.
  induction agents as [|[k v] rest IH]; cbn.
  - intros [Hkeys Hids]. repeat split; assumption.
  - intros [Hkeys Hids].
    inversion Hkeys as [|? ? Hfresh Hrest]; subst.
    inversion Hids as [|? ? Hhead Htail]; subst.
    destruct (String.eqb k key) eqn:E; cbn.
    + apply String.eqb_eq in E. subst k.
      repeat split; try assumption. now apply map_get_none_iff.
    + pose proof (map_delete_keys key k rest) as Hsub.
      destruct (AgentManager.map_delete key rest) as [found rest'].
      cbn in *. rewrite E.
      destruct (IH (conj Hrest Htail)) as [[Hkeys' Hids'] Hgone].
      repeat split; try assumption.
      * constructor; [tauto|assumption].
      * constructor; assumption.
Qed.

(** X24. registerAgent followed by getAgent: the agent is found under
    its identifier, every other identifier answers as before, the number
    of agents grows by one exactly when the identifier is new, and the
    agents stay consistent (no identifier twice, each agent under its
    own identifier). *)
Theorem registered_agent_is_found (agent : OpenAIAgent.t)
    (agents : AgentManager.Agents) :
  let agents' := AgentManager.registerAgent agent agents in
  AgentManager.getAgent (OpenAIAgent.id agent) agents' = Some agent
  /\ (forall other,
         other <> OpenAIAgent.id agent ->
         AgentManager.getAgent other agents'
         = AgentManager.getAgent other agents)
  /\ List.length (AgentManager.getAllAgents agents')
     = match AgentManager.getAgent (OpenAIAgent.id agent) agents with
       | Some _ => List.length (AgentManager.getAllAgents agents)
       | None => S (List.length (AgentManager.getAllAgents agents))
       end
  /\ (consistent_agents agents -> consistent_agents agents').
Proof.
  cbv zeta.
  unfold AgentManager.getAgent, AgentManager.getAllAgents.
  split; [apply map_get_set_same|].
  split; [intros other Hother; now apply map_get_set_other|].
  split; [|apply map_set_consistent].
  rewrite !List.length_map. apply map_set_length.
Qed.

(** X25. unregisterAgent answers true exactly when the identifier was
    registered; afterwards the identifier is not found, every other
    identifier answers as before, and the agents stay consistent. *)
Theorem unregistered_agent_is_gone (agentId : string)
    (agents : AgentManager.Agents) :
  consistent_agents agents ->
  let result := AgentManager.unregisterAgent agentId agents in
  (fst result = true <-> AgentManager.getAgent agentId agents <> None)
  /\ AgentManager.getAgent agentId (snd result) = None
  /\ (forall other,
         other <> agentId ->
         AgentManager.getAgent other (snd result)
         = AgentManager.getAgent other agents)
  /\ consistent_agents (snd result).
Proof.
  intros Hconsistent. cbv zeta.
  unfold AgentManager.unregisterAgent, AgentManager.getAgent.
  destruct (map_delete_consistent agentId agents Hconsistent)
    as [Hkept Hgone].
  split; [apply map_delete_found|].
  split; [exact Hgone|].
  split; [intros other Hother; now apply map_delete_other|exact Hkept].
Qed.

(** X26. getDefaultAgent fails, with No agents available, exactly on a
    manager without agents. On consistent agents the default is the
    agent registered first: registering another agent keeps it, and
    registering an agent with the identifier of the default puts the new
    agent in its place as the default. *)
Theorem default_agent_is_the_earliest (agent : OpenAIAgent.t)
    (agents : AgentManager.Agents) :
  consistent_agents agents ->
  (forall message,
      AgentManager.getDefaultAgent agents = Thrown message
      <-> agents = [] /\ message = "No agents available")
  /\ (agents = [] ->
      AgentManager.getDefaultAgent
        (AgentManager.registerAgent agent agents) = Returned agent)
  /\ (forall first,
         AgentManager.getDefaultAgent agents = Returned first ->
         AgentManager.getDefaultAgent
           (AgentManager.registerAgent agent agents)
         = Returned (if String.eqb (OpenAIAgent.id first)
                                   (OpenAIAgent.id agent)
                     then agent else first)).
Proof.
  intros [Hkeys Hids]. split; [|split].
  - intros message. destruct agents as [|[k v] rest]; cbn.
    + split; [intros [= <-]; now split|intros [_ ->]; reflexivity].
    + split; [discriminate|intros [Hnil _]; discriminate Hnil].
  - intros ->. reflexivity.
  - intros first. destruct agents as [|[k v] rest]; cbn; [discriminate|].
    intros [= ->]. inversion Hids as [|? ? Hhead _]; subst.
    cbn in Hhead. subst k.
    unfold AgentManager.registerAgent. cbn.
    now destruct (String.eqb (OpenAIAgent.id first) (OpenAIAgent.id agent)).
Qed.

(** ** The agents of the configuration *)

Section Initialize.

Variable config : AgentManager.Config.
Variable key : string.
Hypothesis key_configured : AgentManager.openai_key config = Some key.
Hypothesis key_usable : JS.truthy key = true.

Let custom_model (agentConfig : AgentManager.AgentConfig) : string :=
  JS.or_else (AgentManager.agent_model agentConfig)
             (AgentManager.defaultModel config).

Let custom := fold_left (AgentManager.initialize_custom config).

Lemma initialize_custom_step (registered : AgentManager.Agents)
    (agentId : string) (agentConfig : AgentManager.AgentConfig) :
  AgentManager.initialize_custom config registered (agentId, agentConfig)
  = match AgentManager.type agentConfig with
    | Some t =>
        if String.eqb t "openai"
        then AgentManager.registerAgent
               (initialised_agent agentId key (custom_model agentConfig))
               registered
        else registered
    | None => registered
    end.
Proof.
  unfold AgentManager.initialize_custom, OpenAIAgent.init.
  cbn [OpenAIAgent.apiKey]. rewrite key_configured, key_usable.
  reflexivity.
Qed.

Lemma custom_consistent (entries : list (string * AgentManager.AgentConfig))
    (registered : AgentManager.Agents) :
  consistent_agents registered ->
  consistent_agents (custom entries registered).
Proof.
  unfold custom. revert registered.
  induction entries as [|[agentId agentConfig] rest IH]; cbn [fold_left];
    intros registered Hconsistent; [assumption|].
  apply IH. rewrite initialize_custom_step.
  destruct (AgentManager.type agentConfig) as [t|]; [|assumption].
  destruct (String.eqb t "openai"); [|assumption].
  now apply map_set_consistent.
Qed.

Lemma map_set_values (P : OpenAIAgent.t -> Prop) (k : string)
    (value : OpenAIAgent.t) (registered : AgentManager.Agents) :
  P value ->
  Forall P (map snd registered) ->
  Forall P (map snd (AgentManager.map_set k value registered)).
Proof.
  intros Hvalue. induction registered as [|[k' v'] rest IH]; cbn.
  - intros _. now repeat constructor.
  - intros Hall. inversion Hall; subst.
    destruct (String.eqb k' k); cbn; constructor; auto.
Qed.

Lemma custom_clients (entries : list (string * AgentManager.AgentConfig))
    (registered : AgentManager.Agents) :
  Forall (fun agent => OpenAIAgent.client agent = Some key)
         (map snd registered) ->
  Forall (fun agent => OpenAIAgent.client agent = Some key)
         (map snd (custom entries registered)).
Proof.
  unfold custom. revert registered.
  induction entries as [|[agentId agentConfig] rest IH]; cbn [fold_left];
    intros registered Hall; [assumption|].
  apply IH. rewrite initialize_custom_step.
  destruct (AgentManager.type agentConfig) as [t|]; [|assumption].
  destruct (String.eqb t "openai"); [|assumption].
  now apply map_set_values.
Qed.

Lemma custom_keeps_first (entries : list (string * AgentManager.AgentConfig))
    (k : string) (v : OpenAIAgent.t) (rest : AgentManager.Agents) :
  exists v' rest', custom entries ((k, v) :: rest) = (k, v') :: rest'.
Proof.
  unfold custom. revert v rest.
  induction entries as [|[agentId agentConfig] more IH]; cbn [fold_left];
    intros v rest; [now exists v, rest|].
  rewrite initialize_custom_step.
  destruct (AgentManager.type agentConfig) as [t|]; [|apply IH].
  destruct (String.eqb t "openai"); [|apply IH].
  unfold AgentManager.registerAgent. cbn.
  destruct (String.eqb k agentId); apply IH.
Qed.

Lemma custom_other (entries : list (string * AgentManager.AgentConfig))
    (registered : AgentManager.Agents) (agentId : string) :
  ~ In agentId (map fst entries) ->
  AgentManager.getAgent agentId (custom entries registered)
  = AgentManager.getAgent agentId registered.
Proof.
  unfold custom. revert registered.
  induction entries as [|[k agentConfig] rest IH]; cbn [fold_left map fst];
    intros registered Hfresh; [reflexivity|].
  rewrite IH by (cbn in Hfresh; tauto).
  rewrite initialize_custom_step.
  destruct (AgentManager.type agentConfig) as [t|]; [|reflexivity].
  destruct (String.eqb t "openai"); [|reflexivity].
  apply map_get_set_other. cbn in *. intros ->. tauto.
Qed.

Lemma custom_found (entries : list (string * AgentManager.AgentConfig))
    (registered : AgentManager.Agents) (agentId : string)
    (agentConfig : AgentManager.AgentConfig) :
  NoDup (map fst entries) ->
  In (agentId, agentConfig) entries ->
  AgentManager.type agentConfig = Some "openai" ->
  AgentManager.getAgent agentId (custom entries registered)
  = Some (initialised_agent agentId key (custom_model agentConfig)).
Proof.
  intros Hkeys Hin Htype. revert registered Hkeys Hin.
  induction entries as [|[k c] rest IH]; intros registered Hkeys Hin;
    [destruct Hin|].
  cbn in Hkeys. inversion Hkeys as [|? ? Hfresh Hrest]; subst.
  destruct Hin as [[= -> ->]|Hin].
  - unfold custom. cbn [fold_left]. fold (custom rest).
    rewrite custom_other by assumption.
    rewrite initialize_custom_step, Htype. cbn.
    apply map_get_set_same.
  - unfold custom. cbn [fold_left]. fold (custom rest). now apply IH.
Qed.

Lemma custom_origin (entries : list (string * AgentManager.AgentConfig))
    (registered : AgentManager.Agents) (agentId : string) :
  AgentManager.getAgent agentId (custom entries registered) <> None ->
  AgentManager.getAgent agentId registered <> None
  \/ exists agentConfig,
       In (agentId, agentConfig) entries
       /\ AgentManager.type agentConfig = Some "openai".
Proof.
  revert registered.
  induction entries as [|[k c] rest IH]; intros registered Hfound;
    [now left|].
  unfold custom in Hfound. cbn [fold_left] in Hfound.
  fold (custom rest) in Hfound.
  destruct (IH _ Hfound) as [Hstep|(agentConfig & Hin & Htype)].
  - rewrite initialize_custom_step in Hstep.
    destruct (AgentManager.type c) as [t|] eqn:Htype; [|now left].
    destruct (String.eqb t "openai") eqn:Ht; [|now left].
    apply String.eqb_eq in Ht. subst t.
    destruct (String.eqb agentId k) eqn:Hk.
    + apply String.eqb_eq in Hk. subst k. right. exists c. cbn. tauto.
    + apply String.eqb_neq in Hk. left.
      unfold AgentManager.getAgent, AgentManager.registerAgent in Hstep.
      cbn in Hstep. now rewrite map_get_set_other in Hstep.
  - right. exists agentConfig. cbn. tauto.
Qed.

End Initialize.

(** X27. initialize never fails. Without a usable OpenAI key (absent or
    empty) it registers nothing, whatever agents the configuration
    lists. With a key, starting from no agents: the default agent is
    openai-default and holds the key, every registered agent holds the
    key, every registered identifier is openai-default or a configured
    agent of type openai, each configured agent of type openai is found
    under its identifier with its own model (or the default model, or
    gpt-4), and the agents are consistent. *)
Theorem initialize_registers_configured_agents
    (config : AgentManager.Config) :
  (forall registered,
      fst (AgentManager.initialize config registered) = None)
  /\ (forall registered,
         (forall key, AgentManager.openai_key config = Some key ->
                      JS.truthy key = false) ->
         snd (AgentManager.initialize config registered) = registered)
  /\ (forall key,
         AgentManager.openai_key config = Some key ->
         JS.truthy key = true ->
         let registered := snd (AgentManager.initialize config []) in
         (exists default,
             AgentManager.getDefaultAgent registered = Returned default
             /\ OpenAIAgent.id default = "openai-default"
             /\ OpenAIAgent.client default = Some key)
         /\ Forall (fun agent => OpenAIAgent.client agent = Some key)
                   (AgentManager.getAllAgents registered)
         /\ consistent_agents registered
         /\ (forall agentId,
                AgentManager.getAgent agentId registered <> None ->
                agentId = "openai-default"
                \/ exists agentConfig,
                     In (agentId, agentConfig) (AgentManager.agents config)
                     /\ AgentManager.type agentConfig = Some "openai")
         /\ (NoDup (map fst (AgentManager.agents config)) ->
             forall agentId agentConfig,
               In (agentId, agentConfig) (AgentManager.agents config) ->
               AgentManager.type agentConfig = Some "openai" ->
               AgentManager.getAgent agentId registered
               = Some (initialised_agent agentId key
                         (JS.or_else (AgentManager.agent_model agentConfig)
                                     (AgentManager.defaultModel config))))).
Proof.
  split; [|split].
  - intros registered. unfold AgentManager.initialize, OpenAIAgent.init.
    cbn [OpenAIAgent.apiKey].
    destruct (AgentManager.openai_key config) as [key|]; [|reflexivity].
    now destruct (JS.truthy key).
  - intros registered Hkey.
    assert (Hstep : forall agents entry,
               AgentManager.initialize_custom config agents entry = agents).
    { intros agents [agentId agentConfig].
      unfold AgentManager.initialize_custom, OpenAIAgent.init.
      cbn [OpenAIAgent.apiKey].
      destruct (AgentManager.type agentConfig) as [t|]; [|reflexivity].
      destruct (String.eqb t "openai"); [|reflexivity].
      destruct (AgentManager.openai_key config) as [key|] eqn:Hsome;
        [|reflexivity].
      now rewrite (Hkey key eq_refl). }
    assert (Hfold : forall entries agents,
               fold_left (AgentManager.initialize_custom config) entries
                 agents = agents).
    { induction entries as [|entry rest IH]; intros agents; cbn;
        [reflexivity|]. now rewrite Hstep. }
    unfold AgentManager.initialize.
    destruct (AgentManager.openai_key config) as [key|] eqn:Hsome;
      [rewrite (Hkey key eq_refl)|]; cbn; apply Hfold.
  - intros key Hkey Husable registered. subst registered.
    unfold AgentManager.initialize, OpenAIAgent.init.
    cbn [OpenAIAgent.apiKey]. rewrite Hkey, Husable.
    cbn [snd AgentManager.registerAgent AgentManager.map_set
         OpenAIAgent.id OpenAIAgent.new].
    set (default := (_, _) : string * OpenAIAgent.t).
    assert (Hstart : consistent_agents [default]).
    { split; cbn; repeat constructor. intros []. }
    assert (Hclients : Forall (fun agent => OpenAIAgent.client agent
                                            = Some key)
                              (map snd [default])).
    { now repeat constructor. }
    pose proof (custom_consistent config key Hkey Husable
                  (AgentManager.agents config) _ Hstart) as Hconsistent.
    pose proof (custom_clients config key Hkey Husable
                  (AgentManager.agents config) _ Hclients) as Hall.
    destruct (custom_keeps_first config key Hkey Husable
                (AgentManager.agents config) (fst default) (snd default) [])
      as (v' & rest' & Hfirst).
    change (fst default, snd default) with default in Hfirst.
    split; [|split; [exact Hall|split; [exact Hconsistent|split]]].
    + exists v'. rewrite Hfirst in *. cbn.
      destruct Hconsistent as [_ Hids].
      inversion Hids as [|? ? Hid _]; subst.
      inversion Hall as [|? ? Hclient _]; subst.
      cbn in Hid. auto.
    + intros agentId Hfound.
      destruct (custom_origin config key Hkey Husable _ _ _ Hfound)
        as [Hdefault|Hcustom]; [left|now right].
      unfold AgentManager.getAgent, default in Hdefault.
      cbn [AgentManager.map_get] in Hdefault.
      destruct (String.eqb "openai-default" agentId) eqn:E;
        [|congruence].
      apply String.eqb_eq in E. now subst.
    + intros Hkeys agentId agentConfig Hin Htype.
      now apply (custom_found config key Hkey Husable).
Qed.

Lemma two_agents_consistent :
  consistent_agents
    (AgentManager.registerAgent (OpenAIAgent.new "reviewer")
       (AgentManager.registerAgent (OpenAIAgent.new "writer") [])).
Proof.
  split; cbn.
  - constructor; [|constructor; [intros []|constructor]].
    intros [H|[]]. discriminate H.
  - repeat constructor.
Qed.

Lemma unregistered_agent_is_gone_witness :
  let agents :=
    AgentManager.registerAgent (OpenAIAgent.new "reviewer")
      (AgentManager.registerAgent (OpenAIAgent.new "writer") []) in
  consistent_agents agents
  /\ AgentManager.getAgent "writer"
       (snd (AgentManager.unregisterAgent "writer" agents)) = None
  /\ AgentManager.getAgent "reviewer"
       (snd (AgentManager.unregisterAgent "writer" agents))
     = Some (OpenAIAgent.new "reviewer").
Proof.
  cbv zeta. split; [exact two_agents_consistent|].
  destruct (unregistered_agent_is_gone "writer" _ two_agents_consistent)
    as (_ & Hgone & Hother & _).
  split; [exact Hgone|].
  rewrite Hother; [reflexivity|discriminate].
Defined.

Lemma default_agent_is_the_earliest_witness :
  let agents :=
    AgentManager.registerAgent (OpenAIAgent.new "reviewer")
      (AgentManager.registerAgent (OpenAIAgent.new "writer") []) in
  consistent_agents agents
  /\ AgentManager.getDefaultAgent
       (AgentManager.registerAgent (OpenAIAgent.new "third") agents)
     = Returned (OpenAIAgent.new "writer").
Proof.
  cbv zeta. split; [exact two_agents_consistent|].
  destruct (default_agent_is_the_earliest (OpenAIAgent.new "third") _
              two_agents_consistent) as (_ & _ & Hkept).
  apply (Hkept (OpenAIAgent.new "writer")). reflexivity.
Defined.

(** ** Completions before and after init *)

